(** * tg-listener: conversation store, flow engine and router

    A shallow embedding of the conversation core of the tg-listener
    library (packages [conv], [config] and [handler]) together with the
    properties of its specification.

    Conventions of the embedding.
    - A Go [string] is a sequence of bytes: Rocq's [string].
    - [int64], [int], [time.Time] and [time.Duration] are integers of [Z];
      where the source relies on the width of a type (the [rune]
      conversion of [conversationKey]) the wrap-around is written out.
    - A [*Conversation] is a location in a heap of conversations, so that
      the manager's index and a handler holding the pointer see the same
      object.
    - [time.Now()] reads a clock oracle and advances it by one reading.
    - Hooks, bot calls, the display function of a step and the handler
      of the main menu (which the wrapper registers to redraw the menu)
      are external code: each call is recorded, in program order, in the
      trace of the world. The writes to the index of the manager are
      recorded in the same trace, so that their order relative to the
      hook calls can be stated.
    - The step handlers, and the callback handlers that [handleCallback]
      finds under the data or under a prefix of it, are code of the
      application: arbitrary computations on the world, run after their
      call is recorded.
    - The embedding is sequential: one handler runs at a time, and the
      locks of the source are not modelled. *)

From Stdlib Require Import ZArith Lia Bool List Ascii String SpecFloat.
From stdpp Require Import base option list gmap strings fin_maps.

Local Open Scope Z_scope.

(* ================================================================== *)
(** * Byte strings *)
(* ================================================================== *)

Definition byteZ (c : ascii) : Z := Z.of_N (N_of_ascii c).
Definition byte_of_Z (z : Z) : ascii := ascii_of_N (Z.to_N (z mod 256)).

Fixpoint sdrop (n : nat) (s : string) : string :=
  match n, s with
  | O, _ => s
  | S _, EmptyString => EmptyString
  | S n', String _ s' => sdrop n' s'
  end.

Fixpoint stake (n : nat) (s : string) : string :=
  match n, s with
  | O, _ => EmptyString
  | S _, EmptyString => EmptyString
  | S n', String c s' => String c (stake n' s')
  end.

(** [s[i:j]] *)
Definition slice (i j : nat) (s : string) : string := stake (j - i) (sdrop i s).

Fixpoint slast (s : string) : option ascii :=
  match s with
  | EmptyString => None
  | String c EmptyString => Some c
  | String _ s' => slast s'
  end.

Fixpoint sforallb (p : ascii -> bool) (s : string) : bool :=
  match s with
  | EmptyString => true
  | String c s' => p c && sforallb p s'
  end.

(* ================================================================== *)
(** * Package unicode/utf8 *)
(* ================================================================== *)

Module utf8.

Definition RuneError : Z := 0xFFFD.
Definition RuneSelf : Z := 0x80.
Definition MaxRune : Z := 0x10FFFF.
Definition UTFMax : nat := 4.
Definition surrogateMin : Z := 0xD800.
Definition surrogateMax : Z := 0xDFFF.
Definition rune1Max : Z := 0x7F.
Definition rune2Max : Z := 0x7FF.
Definition rune3Max : Z := 0xFFFF.

(** The entry of the table [first] for a leading byte: ASCII, invalid, or
    the size of the sequence with the accepted range of its second byte. *)
Inductive firstInfo :=
| AS
| XX
| SZ (size : nat) (lo hi : Z).

Definition first (b : Z) : firstInfo :=
  if b <? 0x80 then AS
  else if b <? 0xC2 then XX
  else if b <? 0xE0 then SZ 2 0x80 0xBF
  else if b =? 0xE0 then SZ 3 0xA0 0xBF
  else if b <? 0xED then SZ 3 0x80 0xBF
  else if b =? 0xED then SZ 3 0x80 0x9F
  else if b <? 0xF0 then SZ 3 0x80 0xBF
  else if b =? 0xF0 then SZ 4 0x90 0xBF
  else if b <? 0xF4 then SZ 4 0x80 0xBF
  else if b =? 0xF4 then SZ 4 0x80 0x8F
  else XX.

Definition locb : Z := 0x80.
Definition hicb : Z := 0xBF.
Definition maskx : Z := 0x3F.
Definition mask2 : Z := 0x1F.
Definition mask3 : Z := 0x0F.
Definition mask4 : Z := 0x07.

(** [utf8.DecodeRuneInString]: the first rune of [s] and its width. *)
Definition DecodeRuneInString (s : string) : Z * nat :=
  match s with
  | EmptyString => (RuneError, 0%nat)
  | String c0 t0 =>
    let s0 := byteZ c0 in
    match first s0 with
    | AS => (s0, 1%nat)
    | XX => (RuneError, 1%nat)
    | SZ sz lo hi =>
      if (String.length s <? sz)%nat then (RuneError, 1%nat) else
      match t0 with
      | EmptyString => (RuneError, 1%nat)
      | String c1 t1 =>
        let s1 := byteZ c1 in
        if (s1 <? lo) || (hi <? s1) then (RuneError, 1%nat) else
        if (sz <=? 2)%nat then
          (Z.lor (Z.shiftl (Z.land s0 mask2) 6) (Z.land s1 maskx), 2%nat)
        else
        match t1 with
        | EmptyString => (RuneError, 1%nat)
        | String c2 t2 =>
          let s2 := byteZ c2 in
          if (s2 <? locb) || (hicb <? s2) then (RuneError, 1%nat) else
          if (sz <=? 3)%nat then
            (Z.lor (Z.lor (Z.shiftl (Z.land s0 mask3) 12)
                          (Z.shiftl (Z.land s1 maskx) 6))
                   (Z.land s2 maskx), 3%nat)
          else
          match t2 with
          | EmptyString => (RuneError, 1%nat)
          | String c3 _ =>
            let s3 := byteZ c3 in
            if (s3 <? locb) || (hicb <? s3) then (RuneError, 1%nat) else
            (Z.lor (Z.lor (Z.lor (Z.shiftl (Z.land s0 mask4) 18)
                                 (Z.shiftl (Z.land s1 maskx) 12))
                          (Z.shiftl (Z.land s2 maskx) 6))
                   (Z.land s3 maskx), 4%nat)
          end
        end
      end
    end
  end.

(** [utf8.RuneStart]: the byte is not a continuation byte. *)
Definition RuneStart (b : Z) : bool := negb (Z.land b 0xC0 =? 0x80).

(** The backward scan of [DecodeLastRuneInString]:
    [for start--; start >= lim; start-- { if RuneStart(s[start]) break }],
    run on at most [n] positions below [start]. *)
Fixpoint scanStart (n : nat) (s : string) (start : nat) (lim : nat) : Z :=
  match n with
  | O => Z.of_nat start - 1
  | S n' =>
    match start with
    | O => -1
    | S st =>
      if (st <? lim)%nat then Z.of_nat st
      else match String.get st s with
           | Some c => if RuneStart (byteZ c) then Z.of_nat st
                       else scanStart n' s st lim
           | None => Z.of_nat st
           end
    end
  end.

(** [utf8.DecodeLastRuneInString]: the last rune of [s] and its width. *)
Definition DecodeLastRuneInString (s : string) : Z * nat :=
  let e := String.length s in
  match e with
  | O => (RuneError, 0%nat)
  | S start =>
    match String.get start s with
    | None => (RuneError, 0%nat)
    | Some c =>
      let r := byteZ c in
      if r <? RuneSelf then (r, 1%nat) else
      let lim := (e - UTFMax)%nat in
      let st := scanStart UTFMax s start lim in
      let st := if st <? 0 then O else Z.to_nat st in
      let '(r, size) := DecodeRuneInString (slice st e s) in
      if negb (st + size =? e)%nat then (RuneError, 1%nat) else (r, size)
    end
  end.

(** The runes visited by [for _, c := range s]. *)
Fixpoint runes_fuel (fuel : nat) (s : string) : list Z :=
  match fuel with
  | O => []
  | S fuel' =>
    match s with
    | EmptyString => []
    | _ => let '(r, size) := DecodeRuneInString s in
           r :: runes_fuel fuel' (sdrop size s)
    end
  end.

Definition runes (s : string) : list Z := runes_fuel (String.length s) s.

(** [utf8.AppendRune] on an empty buffer: the encoding of a rune, the
    encoding of [RuneError] for a surrogate or an out-of-range value. *)
Definition encode3 (r : Z) : string :=
  String (byte_of_Z (Z.lor 0xE0 (Z.shiftr r 12)))
  (String (byte_of_Z (Z.lor 0x80 (Z.land (Z.shiftr r 6) maskx)))
  (String (byte_of_Z (Z.lor 0x80 (Z.land r maskx))) EmptyString)).

Definition EncodeRune (r : Z) : string :=
  (* [switch i := uint32(r)] *)
  let i := r mod 2 ^ 32 in
  if i <=? rune1Max then String (byte_of_Z r) EmptyString
  else if i <=? rune2Max then
    String (byte_of_Z (Z.lor 0xC0 (Z.shiftr r 6)))
    (String (byte_of_Z (Z.lor 0x80 (Z.land r maskx))) EmptyString)
  else if (MaxRune <? i) || ((surrogateMin <=? i) && (i <=? surrogateMax)) then
    encode3 RuneError
  else if i <=? rune3Max then encode3 r
  else
    String (byte_of_Z (Z.lor 0xF0 (Z.shiftr r 18)))
    (String (byte_of_Z (Z.lor 0x80 (Z.land (Z.shiftr r 12) maskx)))
    (String (byte_of_Z (Z.lor 0x80 (Z.land (Z.shiftr r 6) maskx)))
    (String (byte_of_Z (Z.lor 0x80 (Z.land r maskx))) EmptyString))).

End utf8.

(* ================================================================== *)
(** * Package unicode *)
(* ================================================================== *)

Module unicode.

Definition MaxLatin1 : Z := 0xFF.

(** [unicode.IsSpace]: the Latin-1 cases of the switch, then the
    [White_Space] range table above Latin-1. *)
Definition IsSpace (r : Z) : bool :=
  if (0 <=? r) && (r <=? MaxLatin1) then
    (r =? 9) || (r =? 10) || (r =? 11) || (r =? 12) || (r =? 13)
    || (r =? 32) || (r =? 0x85) || (r =? 0xA0)
  else
    (r =? 0x1680) || ((0x2000 <=? r) && (r <=? 0x200A))
    || (r =? 0x2028) || (r =? 0x2029) || (r =? 0x202F)
    || (r =? 0x205F) || (r =? 0x3000).

End unicode.

(* ================================================================== *)
(** * Package strings *)
(* ================================================================== *)

Module strings.

Fixpoint HasPrefix (s prefix : string) {struct prefix} : bool :=
  match prefix with
  | EmptyString => true
  | String p prefix' =>
    match s with
    | EmptyString => false
    | String c s' => if Ascii.eqb c p then HasPrefix s' prefix' else false
    end
  end.

Definition TrimPrefix (s prefix : string) : string :=
  if HasPrefix s prefix then sdrop (String.length prefix) s else s.

(** [strings.Index]: the offset of the first instance of [substr]. *)
Fixpoint Index (s substr : string) : option nat :=
  if HasPrefix s substr then Some O
  else match s with
       | EmptyString => None
       | String _ s' => option_map S (Index s' substr)
       end.

(** The loop of [genSplit] for [n < 0] and a non-empty separator: cut at
    the first instance of [sep] until there is none left. Go bounds the
    loop by [Count(s, sep)], the number of cuts that succeed; any bound
    that is not smaller gives the same pieces. *)
Fixpoint genSplit (n : nat) (s sep : string) : list string :=
  match n with
  | O => [s]
  | S n' =>
    match Index s sep with
    | None => [s]
    | Some m => stake m s :: genSplit n' (sdrop (m + String.length sep) s) sep
    end
  end.

(** [strings.Split], for the non-empty separators the engine uses. *)
Definition Split (s sep : string) : list string :=
  genSplit (String.length s) s sep.

Fixpoint inCutset (cutset : string) (c : ascii) : bool :=
  match cutset with
  | EmptyString => false
  | String x cutset' => Ascii.eqb c x || inCutset cutset' c
  end.

Fixpoint trimLeftASCII (s cutset : string) : string :=
  match s with
  | EmptyString => EmptyString
  | String c s' => if inCutset cutset c then trimLeftASCII s' cutset else s
  end.

(** Trailing bytes are dropped from the end; the recursion from the front
    keeps a byte as soon as something after it is kept. *)
Fixpoint trimRightASCII (s cutset : string) : string :=
  match s with
  | EmptyString => EmptyString
  | String c s' =>
    match trimRightASCII s' cutset with
    | EmptyString => if inCutset cutset c then EmptyString else String c EmptyString
    | kept => String c kept
    end
  end.

(** [strings.Trim] for a cutset of ASCII bytes (the only cutsets in use). *)
Definition Trim (s cutset : string) : string :=
  match s, cutset with
  | EmptyString, _ => s
  | _, EmptyString => s
  | _, _ => trimLeftASCII (trimRightASCII s cutset) cutset
  end.

(** [for i, r := range s { if f(r) == truth { return i } }] *)
Fixpoint indexFunc_fuel (fuel : nat) (s : string) (f : Z -> bool) (truth : bool)
    (i : nat) : option nat :=
  match fuel with
  | O => None
  | S fuel' =>
    match s with
    | EmptyString => None
    | _ => let '(r, size) := utf8.DecodeRuneInString s in
           if Bool.eqb (f r) truth then Some i
           else indexFunc_fuel fuel' (sdrop size s) f truth (i + size)
    end
  end.

Definition indexFunc (s : string) (f : Z -> bool) (truth : bool) : option nat :=
  indexFunc_fuel (String.length s) s f truth O.

(** [for i := len(s); i > 0; { r, size := DecodeLastRuneInString(s[0:i]); ... }] *)
Fixpoint lastIndexFunc_fuel (fuel : nat) (s : string) (f : Z -> bool)
    (truth : bool) (i : nat) : option nat :=
  match fuel with
  | O => None
  | S fuel' =>
    if (i =? 0)%nat then None else
    let '(r, size) := utf8.DecodeLastRuneInString (stake i s) in
    let i' := (i - size)%nat in
    if Bool.eqb (f r) truth then Some i'
    else lastIndexFunc_fuel fuel' s f truth i'
  end.

Definition lastIndexFunc (s : string) (f : Z -> bool) (truth : bool) : option nat :=
  lastIndexFunc_fuel (String.length s) s f truth (String.length s).

Definition TrimLeftFunc (s : string) (f : Z -> bool) : string :=
  match indexFunc s f false with
  | None => EmptyString
  | Some i => sdrop i s
  end.

Definition TrimRightFunc (s : string) (f : Z -> bool) : string :=
  match lastIndexFunc s f false with
  | Some i =>
    match String.get i s with
    | Some c =>
      if utf8.RuneSelf <=? byteZ c
      then stake (i + snd (utf8.DecodeRuneInString (sdrop i s))) s
      else stake (S i) s
    | None => stake (S i) s
    end
  | None => EmptyString
  end.

Definition TrimFunc (s : string) (f : Z -> bool) : string :=
  TrimRightFunc (TrimLeftFunc s f) f.

Definition asciiSpace (c : ascii) : bool :=
  let b := byteZ c in
  (b =? 9) || (b =? 10) || (b =? 11) || (b =? 12) || (b =? 13) || (b =? 32).

(** The first loop of [TrimSpace]: skip ASCII white space from the left;
    a byte [>= RuneSelf] hands the rest over to [TrimFunc]. *)
Inductive scan := Handover (rest : string) | Kept (rest : string).

Fixpoint trimSpaceStart (s : string) : scan :=
  match s with
  | EmptyString => Kept EmptyString
  | String c s' =>
    if utf8.RuneSelf <=? byteZ c then Handover s
    else if asciiSpace c then trimSpaceStart s'
    else Kept s
  end.

(** The second loop of [TrimSpace]: skip ASCII white space from the right;
    a byte [>= RuneSelf] hands [s[start:stop]] over to [TrimRightFunc]. The
    recursion runs from the front and keeps a byte as soon as something
    after it is kept. *)
Fixpoint trimSpaceStop (s : string) : scan :=
  match s with
  | EmptyString => Kept EmptyString
  | String c s' =>
    match trimSpaceStop s' with
    | Kept EmptyString =>
      if utf8.RuneSelf <=? byteZ c then Handover (String c EmptyString)
      else if asciiSpace c then Kept EmptyString
      else Kept (String c EmptyString)
    | Kept kept => Kept (String c kept)
    | Handover kept => Handover (String c kept)
    end
  end.

(** [strings.TrimSpace] *)
Definition TrimSpace (s : string) : string :=
  match trimSpaceStart s with
  | Handover rest => TrimFunc rest unicode.IsSpace
  | Kept rest =>
    match trimSpaceStop rest with
    | Handover kept => TrimRightFunc kept unicode.IsSpace
    | Kept kept => kept
    end
  end.

End strings.

(* ================================================================== *)
(** * Package config: flow definitions *)
(* ================================================================== *)

Module ValidationConfig.
Record t := mk {
  Type_ : string;      (* field [Type] *)
  Pattern : string;
  ErrorMsg : string;
  Min : string;
  Max : string;
  MinLength : Z;
  MaxLength : Z;
  Custom : string
}.
End ValidationConfig.

Module BranchConfig.
Record t := mk {
  Condition : string;
  NextStep : string;
  Handler : string
}.
End BranchConfig.

Definition InputTypeText : string := "text".
Definition InputTypeCallback : string := "callback".
Definition InputTypeAny : string := "any".
Definition InputTypeNone : string := "none".
Definition InputTypePhoto : string := "photo".
Definition InputTypeDocument : string := "document".

(** [StepConfig]; the keyboard and template fields only matter to the
    renderer and are left out. *)
Module StepConfig.
Record t := mk {
  ID : string;
  PromptText : string;
  InputType : string;
  Validation : option ValidationConfig.t;
  NextStep : string;
  Branches : list BranchConfig.t;
  OnEnter : string;
  OnComplete : string;
  StoreAs : string;
  SkipIf : string
}.
End StepConfig.

Module FlowConfig.
Record t := mk {
  ID : string;
  Name : string;
  InitialStep : string;
  Steps : gmap string StepConfig.t;
  TTL : Z
}.

Definition GetStep (f : t) (stepID : string) : option StepConfig.t :=
  Steps f !! stepID.

Definition GetTTL (f : t) (defaultTTL : Z) : Z :=
  if 0 <? TTL f then TTL f else defaultTTL.
End FlowConfig.

Module Config.
Record t := mk {
  Flows : gmap string FlowConfig.t
}.

Definition GetFlow (c : t) (id : string) : option FlowConfig.t := Flows c !! id.
End Config.

(* ================================================================== *)
(** * Package conv: conversations *)
(* ================================================================== *)

Inductive ConversationState :=
| StateIdle
| StateWaiting
| StateProcessing
| StateCompleted
| StateCancelled.

(** The dynamic values of [map[string]interface{}] that the code tells
    apart: strings, the three numeric types of [GetInt], and the values
    of the types that no accessor knows, here [bool]. A [float64] is a
    binary floating-point number in the representation of the Standard
    Library. *)
Inductive Value :=
| VString (s : string)
| VInt (n : Z)
| VInt64 (n : Z)
| VFloat64 (f : spec_float)
| VBool (b : bool).

Record HistoryEntry := mkHistoryEntry {
  he_StepID : string;
  he_Input : string;
  he_Timestamp : Z
}.

Module Conversation.
Record t := mk {
  UserID : Z;
  ChatID : Z;
  TopicID : Z;
  FlowID : string;
  StepID : string;
  State : ConversationState;
  Data : gmap string Value;
  KeyboardMsgID : Z;
  CreatedAt : Z;
  UpdatedAt : Z;
  ExpiresAt : Z;
  History : list HistoryEntry
}.

Definition with_StepID (x : string) (c : t) : t :=
  mk (UserID c) (ChatID c) (TopicID c) (FlowID c) x (State c) (Data c)
     (KeyboardMsgID c) (CreatedAt c) (UpdatedAt c) (ExpiresAt c) (History c).
Definition with_State (x : ConversationState) (c : t) : t :=
  mk (UserID c) (ChatID c) (TopicID c) (FlowID c) (StepID c) x (Data c)
     (KeyboardMsgID c) (CreatedAt c) (UpdatedAt c) (ExpiresAt c) (History c).
Definition with_Data (x : gmap string Value) (c : t) : t :=
  mk (UserID c) (ChatID c) (TopicID c) (FlowID c) (StepID c) (State c) x
     (KeyboardMsgID c) (CreatedAt c) (UpdatedAt c) (ExpiresAt c) (History c).
Definition with_KeyboardMsgID (x : Z) (c : t) : t :=
  mk (UserID c) (ChatID c) (TopicID c) (FlowID c) (StepID c) (State c) (Data c)
     x (CreatedAt c) (UpdatedAt c) (ExpiresAt c) (History c).
Definition with_UpdatedAt (x : Z) (c : t) : t :=
  mk (UserID c) (ChatID c) (TopicID c) (FlowID c) (StepID c) (State c) (Data c)
     (KeyboardMsgID c) (CreatedAt c) x (ExpiresAt c) (History c).
Definition with_ExpiresAt (x : Z) (c : t) : t :=
  mk (UserID c) (ChatID c) (TopicID c) (FlowID c) (StepID c) (State c) (Data c)
     (KeyboardMsgID c) (CreatedAt c) (UpdatedAt c) x (History c).
Definition with_History (x : list HistoryEntry) (c : t) : t :=
  mk (UserID c) (ChatID c) (TopicID c) (FlowID c) (StepID c) (State c) (Data c)
     (KeyboardMsgID c) (CreatedAt c) (UpdatedAt c) (ExpiresAt c) x.

(** [NewConversation], given the reading [now] of the clock. *)
Definition New (now : Z) (userID chatID topicID : Z) (flowID stepID : string)
    (ttl : Z) : t :=
  mk userID chatID topicID flowID stepID StateWaiting ∅ 0 now now (now + ttl) [].

(** [Get]: the value and whether the key exists. *)
Definition Get (c : t) (key : string) : option Value := Data c !! key.

Definition GetString (c : t) (key : string) : string :=
  match Get c key with
  | None => EmptyString
  | Some (VString s) => s
  | Some _ => EmptyString
  end.

Definition GetPreviousStep (c : t) : string :=
  if (2 <=? length (History c))%nat then
    match History c !! (length (History c) - 2)%nat with
    | Some e => he_StepID e
    | None => EmptyString
    end
  else EmptyString.

(** [time.Now().After(c.ExpiresAt)] at the reading [now]. *)
Definition expiredAt (now : Z) (c : t) : bool := ExpiresAt c <? now.
End Conversation.

(* ================================================================== *)
(** * The world: heap of conversations, manager, clock and trace *)
(* ================================================================== *)

Definition loc := nat.

Inductive Event :=
| EvOnStart (c : loc)
| EvOnEnd (c : loc)
| EvOnStepChange (c : loc) (from to : string)
| EvMapStore (key : string) (c : loc)
| EvMapDelete (key : string)
| EvSendMessage (chatID threadID : Z) (text : string)
| EvDeleteMessage (chatID messageID : Z)
| EvAnswerCallback (queryID text : string)
| EvStepHandler (name : string) (c : loc)
| EvDisplayStep (c : loc) (stepID : string)
| EvCallbackHandler (name : string)
| EvMessageHandler.

Global Instance Event_eq_dec : EqDecision Event.
Proof. solve_decision. Defined.

Module Manager.
Record t := mk {
  conversations : gmap string loc;
  defaultTTL : Z;
  onStart : bool;        (* [m.onStart != nil] *)
  onEnd : bool;          (* [m.onEnd != nil] *)
  onStepChange : bool    (* [m.onStepChange != nil] *)
}.

Definition with_conversations (x : gmap string loc) (m : t) : t :=
  mk x (defaultTTL m) (onStart m) (onEnd m) (onStepChange m).

(** [NewManager] *)
Definition New (defaultTTL : Z) : t :=
  let defaultTTL := if defaultTTL <=? 0 then 30 * 60 * 1000000000 else defaultTTL in
  mk ∅ defaultTTL false false false.
End Manager.

Record World := mkWorld {
  heap : loc -> Conversation.t;
  nextLoc : loc;
  manager : Manager.t;
  clock : nat -> Z;
  tick : nat;
  trace : list Event
}.

Definition M (A : Type) : Type := World -> A * World.

Definition ret {A} (a : A) : M A := fun w => (a, w).
Definition bind {A B} (m : M A) (k : A -> M B) : M B :=
  fun w => let '(a, w') := m w in k a w'.

Notation "x <- m ;; k" := (bind m (fun x => k))
  (at level 100, m at next level, right associativity).
Notation "m ;;; k" := (bind m (fun _ => k))
  (at level 100, right associativity).

Definition when (b : bool) (m : M unit) : M unit := if b then m else ret tt.

(** [time.Now()] *)
Definition now : M Z :=
  fun w => (clock w (tick w),
            mkWorld (heap w) (nextLoc w) (manager w) (clock w) (S (tick w)) (trace w)).

Definition emit (e : Event) : M unit :=
  fun w => (tt, mkWorld (heap w) (nextLoc w) (manager w) (clock w) (tick w)
                        (trace w ++ [e])).

Definition load (c : loc) : M Conversation.t := fun w => (heap w c, w).

Definition modify (c : loc) (f : Conversation.t -> Conversation.t) : M unit :=
  fun w => (tt, mkWorld (fun l => if decide (l = c) then f (heap w c) else heap w l)
                        (nextLoc w) (manager w) (clock w) (tick w) (trace w)).

Definition alloc (v : Conversation.t) : M loc :=
  fun w => (nextLoc w,
            mkWorld (fun l => if decide (l = nextLoc w) then v else heap w l)
                    (S (nextLoc w)) (manager w) (clock w) (tick w) (trace w)).

Definition getManager : M Manager.t := fun w => (manager w, w).

(** [m.conversations[key]] *)
Definition mapLookup (key : string) : M (option loc) :=
  fun w => (Manager.conversations (manager w) !! key, w).

(** [m.conversations[key] = conv] *)
Definition mapStore (key : string) (c : loc) : M unit :=
  fun w => (tt, mkWorld (heap w) (nextLoc w)
                  (Manager.with_conversations
                     (<[key := c]> (Manager.conversations (manager w))) (manager w))
                  (clock w) (tick w) (trace w ++ [EvMapStore key c])).

(** [delete(m.conversations, key)] *)
Definition mapDelete (key : string) : M unit :=
  fun w => (tt, mkWorld (heap w) (nextLoc w)
                  (Manager.with_conversations
                     (delete key (Manager.conversations (manager w))) (manager w))
                  (clock w) (tick w) (trace w ++ [EvMapDelete key])).

(** ** Methods on [*Conversation] *)

Definition conv_Set (c : loc) (key : string) (value : Value) : M unit :=
  modify c (fun v => Conversation.with_Data (<[key := value]> (Conversation.Data v)) v) ;;;
  t <- now ;;
  modify c (Conversation.with_UpdatedAt t).

Definition conv_SetStep (c : loc) (stepID : string) : M unit :=
  modify c (Conversation.with_StepID stepID) ;;;
  t <- now ;;
  modify c (Conversation.with_UpdatedAt t).

Definition conv_SetKeyboardMsgID (c : loc) (msgID : Z) : M unit :=
  modify c (Conversation.with_KeyboardMsgID msgID).

Definition conv_AddHistory (c : loc) (stepID input : string) : M unit :=
  t <- now ;;
  modify c (fun v => Conversation.with_History
                       (Conversation.History v ++ [mkHistoryEntry stepID input t]) v).

Definition conv_GetPreviousStep (c : loc) : M string :=
  v <- load c ;; ret (Conversation.GetPreviousStep v).

Definition conv_IsExpired (c : loc) : M bool :=
  t <- now ;;
  v <- load c ;;
  ret (Conversation.expiredAt t v).

Definition conv_Refresh (c : loc) (ttl : Z) : M unit :=
  t <- now ;;
  modify c (Conversation.with_ExpiresAt (t + ttl)) ;;;
  t' <- now ;;
  modify c (Conversation.with_UpdatedAt t').

Definition conv_Complete (c : loc) : M unit :=
  modify c (Conversation.with_State StateCompleted) ;;;
  t <- now ;;
  modify c (Conversation.with_UpdatedAt t).

Definition conv_Cancel (c : loc) : M unit :=
  modify c (Conversation.with_State StateCancelled) ;;;
  t <- now ;;
  modify c (Conversation.with_UpdatedAt t).

(** ** The conversation key *)

(** [rune(x)] for an [int64]: the low 32 bits, signed. *)
Definition rune (x : Z) : Z := (x + 2 ^ 31) mod 2 ^ 32 - 2 ^ 31.

(** [string(rune(x))] *)
Definition string_of_rune (r : Z) : string := utf8.EncodeRune r.

Definition conversationKey (userID chatID : Z) : string :=
  (string_of_rune (rune userID) ++ ":" ++ string_of_rune (rune chatID))%string.

(** ** Methods of [*Manager] *)

Definition NewConversation (userID chatID topicID : Z) (flowID stepID : string)
    (ttl : Z) : M loc :=
  t <- now ;;
  alloc (Conversation.New t userID chatID topicID flowID stepID ttl).

Definition Start (userID chatID topicID : Z) (flowID initialStep : string)
    (ttl : Z) : M loc :=
  m <- getManager ;;
  let ttl := if ttl <=? 0 then Manager.defaultTTL m else ttl in
  let key := conversationKey userID chatID in
  existing <- mapLookup key ;;
  match existing with
  | Some old => when (Manager.onEnd m) (emit (EvOnEnd old))
  | None => ret tt
  end ;;;
  conv <- NewConversation userID chatID topicID flowID initialStep ttl ;;
  mapStore key conv ;;;
  when (Manager.onStart m) (emit (EvOnStart conv)) ;;;
  ret conv.

Definition End (userID chatID : Z) : M unit :=
  m <- getManager ;;
  let key := conversationKey userID chatID in
  found <- mapLookup key ;;
  match found with
  | Some conv =>
    mapDelete key ;;;
    when (Manager.onEnd m) (emit (EvOnEnd conv))
  | None => ret tt
  end.

Definition Get (userID chatID : Z) : M (option loc) :=
  let key := conversationKey userID chatID in
  found <- mapLookup key ;;
  match found with
  | None => ret None
  | Some conv =>
    expired <- conv_IsExpired conv ;;
    if expired then End userID chatID ;;; ret None
    else ret (Some conv)
  end.

Definition ChangeStep (userID chatID : Z) (newStep : string) : M unit :=
  m <- getManager ;;
  found <- Get userID chatID ;;
  match found with
  | None => ret tt
  | Some conv =>
    v <- load conv ;;
    let oldStep := Conversation.StepID v in
    conv_SetStep conv newStep ;;;
    when (Manager.onStepChange m) (emit (EvOnStepChange conv oldStep newStep))
  end.

(** The body of the loop of [Cleanup] over the entries of the index; Go
    visits them in an unspecified order, here the order of
    [map_to_list]. *)
Fixpoint Cleanup_loop (entries : list (string * loc)) (count : Z) : M Z :=
  match entries with
  | [] => ret count
  | (key, conv) :: rest =>
    m <- getManager ;;
    expired <- conv_IsExpired conv ;;
    if expired then
      when (Manager.onEnd m) (emit (EvOnEnd conv)) ;;;
      mapDelete key ;;;
      Cleanup_loop rest (count + 1)
    else Cleanup_loop rest count
  end.

Definition Cleanup : M Z :=
  m <- getManager ;;
  Cleanup_loop (map_to_list (Manager.conversations m)) 0.

Definition Count : M Z :=
  m <- getManager ;; ret (Z.of_nat (size (Manager.conversations m))).

(* ================================================================== *)
(** * Package strconv: [ParseUint] *)
(* ================================================================== *)

Module strconv.

Inductive NumError := ErrSyntax | ErrRange.

Definition maxUint64 : Z := 2 ^ 64 - 1.

(** [lower(c)]: [c | ('x' - 'X')] *)
Definition lower (c : Z) : Z := Z.lor c 0x20.

(** The digit value of a byte, before the comparison with the base. *)
Definition digit (c : Z) : option Z :=
  if (48 <=? c) && (c <=? 57) then Some (c - 48)
  else if (97 <=? lower c) && (lower c <=? 122) then Some (lower c - 97 + 10)
  else None.

Fixpoint ParseUint_loop (s : string) (base cutoff maxVal n : Z) : Z + NumError :=
  match s with
  | EmptyString => inl n
  | String ch rest =>
    match digit (byteZ ch) with
    | None => inr ErrSyntax
    | Some d =>
      if base <=? d then inr ErrSyntax
      else if cutoff <=? n then inr ErrRange
      else
        let n := (n * base) mod 2 ^ 64 in
        let n1 := (n + d) mod 2 ^ 64 in
        if (n1 <? n) || (maxVal <? n1) then inr ErrRange
        else ParseUint_loop rest base cutoff maxVal n1
    end
  end.

(** [strconv.ParseUint(s, base, bitSize)] for an explicit base in [2, 36]
    (no prefix and no underscores are accepted then). *)
Definition ParseUint (s : string) (base : Z) (bitSize : Z) : Z + NumError :=
  match s with
  | EmptyString => inr ErrSyntax
  | _ =>
    let cutoff := maxUint64 / base + 1 in
    let maxVal := 2 ^ bitSize - 1 in
    ParseUint_loop s base cutoff maxVal 0
  end.

End strconv.

(* ================================================================== *)
(** * Package conv: the flow engine *)
(* ================================================================== *)

(** A Go [error] is its message; [None] is [nil]. *)
Definition error := option string.

(** A validator inspects the input and the session and reports an error;
    it does not write to the session. *)
Definition Validator := string -> Conversation.t -> error.
Definition ConditionEvaluator := Conversation.t -> string -> bool.
(** A step handler is code of the application: it is given the pointer
    to the session, may do anything to the sessions and to the store, and
    reports an error. *)
Definition StepHandler := loc -> M error.

Module FlowEngine.
Record t := mk {
  config : option Config.t;
  stepHandlers : gmap string StepHandler;
  validators : gmap string Validator;
  conditionEvaluator : option ConditionEvaluator
}.
End FlowEngine.

Definition GetStepHandler (e : FlowEngine.t) (name : string) : option StepHandler :=
  FlowEngine.stepHandlers e !! name.

Definition GetValidator (e : FlowEngine.t) (name : string) : option Validator :=
  FlowEngine.validators e !! name.

Definition GetFlow (e : FlowEngine.t) (flowID : string) : option FlowConfig.t :=
  match FlowEngine.config e with
  | None => None
  | Some cfg => Config.GetFlow cfg flowID
  end.

Definition GetStep (e : FlowEngine.t) (flowID stepID : string) : option StepConfig.t :=
  match GetFlow e flowID with
  | None => None
  | Some flow => FlowConfig.GetStep flow stepID
  end.

Definition getErrorMsg (configured defaultMsg : string) : string :=
  if String.eqb configured EmptyString then defaultMsg else configured.

Definition isHexRune (c : Z) : bool :=
  ((48 <=? c) && (c <=? 57)) || ((97 <=? c) && (c <=? 102))
  || ((65 <=? c) && (c <=? 70)).

(** The loop [for _, c := range input[2:]] of [validateAddress]: the
    first rune that is not a hexadecimal digit is an error. *)
Fixpoint checkHexRunes (rs : list Z) (msg : string) : error :=
  match rs with
  | [] => None
  | c :: rest => if negb (isHexRune c) then Some msg else checkHexRunes rest msg
  end.

Definition validateAddress (e : FlowEngine.t) (input : string)
    (validation : ValidationConfig.t) : error :=
  if negb (String.length input =? 42)%nat || negb (strings.HasPrefix input "0x") then
    Some (getErrorMsg (ValidationConfig.ErrorMsg validation)
                      "Please enter a valid Ethereum address")
  else
    match strconv.ParseUint (sdrop 2 input) 16 64 with
    | inl _ => None
    | inr _ =>
      checkHexRunes (utf8.runes (sdrop 2 input))
        (getErrorMsg (ValidationConfig.ErrorMsg validation)
                     "Please enter a valid Ethereum address")
    end.

Definition validateCustom (e : FlowEngine.t) (input : string)
    (validation : ValidationConfig.t) (conv : Conversation.t) : error :=
  if String.eqb (ValidationConfig.Custom validation) EmptyString then None
  else match GetValidator e (ValidationConfig.Custom validation) with
       | None => None
       | Some validator => validator input conv
       end.

Definition dquote : ascii := ascii_of_nat 34.
Definition squote : ascii := ascii_of_nat 39.
(** The cutset of the calls of [strings.Trim]: the double and the single
    quote. *)
Definition quotes : string := String dquote (String squote EmptyString).
(** A string literal of the condition language: [s] between double quotes. *)
Definition quoted (s : string) : string :=
  String dquote (s ++ String dquote EmptyString).

(** The first element of a two-element slice, [None] for another length:
    the test [len(parts) == 2]. *)
Definition twoParts (parts : list string) : option (string * string) :=
  match parts with
  | [a; b] => Some (a, b)
  | _ => None
  end.

Definition simpleEvaluate (e : FlowEngine.t) (conv : Conversation.t)
    (condition : string) : bool :=
  match twoParts (strings.Split condition "==") with
  | Some (p0, p1) =>
    let key := strings.TrimSpace p0 in
    let expected := strings.Trim (strings.TrimSpace p1) quotes in
    let key := strings.TrimPrefix key "data." in
    let actual := Conversation.GetString conv key in
    String.eqb actual expected
  | None =>
    match twoParts (strings.Split condition "!=") with
    | Some (p0, p1) =>
      let key := strings.TrimSpace p0 in
      let expected := strings.Trim (strings.TrimSpace p1) quotes in
      let key := strings.TrimPrefix key "data." in
      let actual := Conversation.GetString conv key in
      negb (String.eqb actual expected)
    | None => true
    end
  end.

Definition EvaluateCondition (e : FlowEngine.t) (conv : Conversation.t)
    (condition : string) : bool :=
  if String.eqb condition EmptyString then true
  else match FlowEngine.conditionEvaluator e with
       | Some evaluator => evaluator conv condition
       | None => simpleEvaluate e conv condition
       end.

Definition evaluateBranchCondition (e : FlowEngine.t) (conv : Conversation.t)
    (condition input : string) : bool :=
  match (if strings.HasPrefix condition "input"
         then twoParts (strings.Split condition "==") else None) with
  | Some (_, p1) =>
    let expected := strings.Trim (strings.TrimSpace p1) quotes in
    String.eqb input expected
  | None => simpleEvaluate e conv condition
  end.

(** The loop of [DetermineNextStep] over [step.Branches], falling through
    to [step.NextStep]. *)
Fixpoint firstBranch (e : FlowEngine.t) (conv : Conversation.t) (input : string)
    (branches : list BranchConfig.t) (nextStep : string) : string :=
  match branches with
  | [] => nextStep
  | branch :: rest =>
    if evaluateBranchCondition e conv (BranchConfig.Condition branch) input
    then BranchConfig.NextStep branch
    else firstBranch e conv input rest nextStep
  end.

Definition DetermineNextStep (e : FlowEngine.t) (conv : Conversation.t)
    (input : string) : string :=
  match GetStep e (Conversation.FlowID conv) (Conversation.StepID conv) with
  | None => EmptyString
  | Some step =>
    firstBranch e conv input (StepConfig.Branches step) (StepConfig.NextStep step)
  end.

(** [ExecuteStepHandler]: the call of the handler is recorded, then the
    handler runs on the pointer. *)
Definition ExecuteStepHandler (e : FlowEngine.t) (c : loc) (handlerName : string)
    : M error :=
  match GetStepHandler e handlerName with
  | None => ret None
  | Some handler =>
    emit (EvStepHandler handlerName c) ;;;
    handler c
  end.

(** ** Package handler: the data of the router *)

Definition CallbackMainMenu : string := "main_menu".
Definition CallbackBack : string := "back".
Definition CallbackCancel : string := "cancel".

(** The fields of [telego.Message] the router reads. [msg.From] is a
    pointer: [HasFrom] says that it is not nil, and the router reads
    [FromID] only behind that check. *)
Record Message := mkMessage {
  msg_HasFrom : bool;
  msg_FromID : Z;
  msg_FromUsername : string;
  msg_ChatID : Z;
  msg_MessageThreadID : Z;
  msg_MessageID : Z;
  msg_Text : string
}.

Record CallbackQuery := mkCallbackQuery {
  q_ID : string;
  q_FromID : Z;
  q_FromUsername : string;
  q_ChatID : Z;              (* [query.Message.GetChat().ID] *)
  q_Data : string
}.

Module Router.
Record t := mk {
  flowEngine : FlowEngine.t;
  authFunc : option (Z -> string -> bool);   (* [bot.GetAuthFunc()] *)
  callbackHandlers : gset string;            (* the registered names *)
  messageHandler : bool;                     (* [r.messageHandler != nil] *)
  stepDisplayFunc : bool                     (* [r.stepDisplayFunc != nil] *)
}.
End Router.

(** [core.Bot.CheckAuth] *)
Definition CheckAuth (r : Router.t) (userID : Z) (username : string) : bool :=
  match Router.authFunc r with
  | None => true
  | Some fn => fn userID username
  end.

(** ** Validation and the router, over the library functions they call

    [strconv.ParseFloat] and [regexp.MatchString] belong to the Go
    library; the development is parametric in them. *)
Section Validation.

Variable float64 : Type.
(** [strconv.ParseFloat(s, 64)]; [None] when it returns an error. *)
Variable ParseFloat : string -> option float64.
(** [x < y] on [float64] *)
Variable float_lt : float64 -> float64 -> bool.
(** [regexp.MatchString(pattern, s)]; [None] when the pattern does not
    compile. *)
Variable MatchString : string -> string -> option bool.

Definition validateNumber (e : FlowEngine.t) (input : string)
    (validation : ValidationConfig.t) : error :=
  match ParseFloat input with
  | None => Some (getErrorMsg (ValidationConfig.ErrorMsg validation)
                              "Please enter a valid number")
  | Some num =>
    let tooSmall :=
      if negb (String.eqb (ValidationConfig.Min validation) EmptyString) then
        match ParseFloat (ValidationConfig.Min validation) with
        | Some min => float_lt num min
        | None => false
        end
      else false in
    if tooSmall then
      Some (getErrorMsg (ValidationConfig.ErrorMsg validation)
              ("Number cannot be less than " ++ ValidationConfig.Min validation))
    else
    let tooLarge :=
      if negb (String.eqb (ValidationConfig.Max validation) EmptyString) then
        match ParseFloat (ValidationConfig.Max validation) with
        | Some max => float_lt max num
        | None => false
        end
      else false in
    if tooLarge then
      Some (getErrorMsg (ValidationConfig.ErrorMsg validation)
              ("Number cannot be greater than " ++ ValidationConfig.Max validation))
    else None
  end.

Definition emailPattern : string :=
  "^[a-zA-Z0-9._%+-]+@[a-zA-Z0-9.-]+\.[a-zA-Z]{2,}$".

Definition validateEmail (e : FlowEngine.t) (input : string)
    (validation : ValidationConfig.t) : error :=
  let matched := match MatchString emailPattern input with
                 | Some b => b
                 | None => false
                 end in
  if negb matched then
    Some (getErrorMsg (ValidationConfig.ErrorMsg validation)
                      "Please enter a valid email address")
  else None.

Definition validateRegex (e : FlowEngine.t) (input : string)
    (validation : ValidationConfig.t) : error :=
  if String.eqb (ValidationConfig.Pattern validation) EmptyString then None
  else match MatchString (ValidationConfig.Pattern validation) input with
       | None => Some "Validation rule configuration error"
       | Some matched =>
         if negb matched then
           Some (getErrorMsg (ValidationConfig.ErrorMsg validation)
                             "Input format is incorrect")
         else None
       end.

Definition ValidateInput (e : FlowEngine.t) (conv : Conversation.t)
    (input : string) : error :=
  match GetStep e (Conversation.FlowID conv) (Conversation.StepID conv) with
  | None => None
  | Some step =>
    match StepConfig.Validation step with
    | None => None
    | Some validation =>
      let ty := ValidationConfig.Type_ validation in
      if String.eqb ty "number" then validateNumber e input validation
      else if String.eqb ty "address" then validateAddress e input validation
      else if String.eqb ty "email" then validateEmail e input validation
      else if String.eqb ty "regex" then validateRegex e input validation
      else if String.eqb ty "custom" then validateCustom e input validation conv
      else None
    end
  end.

(** ** Package handler: the handlers of the router *)

Definition displayStep (r : Router.t) (c : loc) : M unit :=
  if Router.stepDisplayFunc r then
    v <- load c ;; emit (EvDisplayStep c (Conversation.StepID v))
  else ret tt.

Definition handleMainMenu (r : Router.t) (query : CallbackQuery) : M unit :=
  emit (EvAnswerCallback (q_ID query) EmptyString) ;;;
  End (q_FromID query) (q_ChatID query) ;;;
  if decide ((CallbackMainMenu ++ "_internal")%string ∈ Router.callbackHandlers r)
  then emit (EvCallbackHandler (CallbackMainMenu ++ "_internal")%string)
  else ret tt.

Definition handleBack (r : Router.t) (query : CallbackQuery) : M unit :=
  emit (EvAnswerCallback (q_ID query) EmptyString) ;;;
  let chatID := q_ChatID query in
  c <- Get (q_FromID query) chatID ;;
  match c with
  | Some c =>
    prevStep <- conv_GetPreviousStep c ;;
    if negb (String.eqb prevStep EmptyString) then
      ChangeStep (q_FromID query) chatID prevStep ;;;
      displayStep r c
    else
      End (q_FromID query) chatID ;;;
      handleMainMenu r query
  | None => handleMainMenu r query
  end.

Definition handleConversationCallback (r : Router.t) (query : CallbackQuery)
    (c : loc) : M unit :=
  emit (EvAnswerCallback (q_ID query) EmptyString) ;;;
  v <- load c ;;
  match GetStep (Router.flowEngine r) (Conversation.FlowID v) (Conversation.StepID v) with
  | None => ret tt
  | Some step =>
    if negb (String.eqb (StepConfig.InputType step) InputTypeCallback)
       && negb (String.eqb (StepConfig.InputType step) InputTypeAny)
    then ret tt
    else
      when (negb (String.eqb (StepConfig.StoreAs step) EmptyString))
           (conv_Set c (StepConfig.StoreAs step) (VString (q_Data query))) ;;;
      v1 <- load c ;;
      conv_AddHistory c (Conversation.StepID v1) (q_Data query) ;;;
      if negb (String.eqb (StepConfig.OnComplete step) EmptyString) then
        _ <- ExecuteStepHandler (Router.flowEngine r) c (StepConfig.OnComplete step) ;;
        ret tt
      else
        v2 <- load c ;;
        let nextStep := DetermineNextStep (Router.flowEngine r) v2 (q_Data query) in
        if negb (String.eqb nextStep EmptyString) then
          ChangeStep (q_FromID query) (Conversation.ChatID v2) nextStep ;;;
          displayStep r c
        else ret tt
  end.

(** The prefix of the message that reports a validation failure: a cross
    mark (U+274C) and a space. *)
Definition crossMark : string := utf8.EncodeRune 0x274C ++ " ".

Definition handleConversationMessage (r : Router.t) (msg : Message) (c : loc)
    : M unit :=
  v <- load c ;;
  match GetStep (Router.flowEngine r) (Conversation.FlowID v) (Conversation.StepID v) with
  | None => ret tt
  | Some step =>
    if negb (String.eqb (StepConfig.InputType step) InputTypeText)
       && negb (String.eqb (StepConfig.InputType step) InputTypeAny)
    then ret tt
    else
      let input := msg_Text msg in
      match ValidateInput (Router.flowEngine r) v input with
      | Some err =>
        emit (EvSendMessage (msg_ChatID msg) (msg_MessageThreadID msg)
                            (crossMark ++ err))
      | None =>
        when (negb (String.eqb (StepConfig.StoreAs step) EmptyString))
             (conv_Set c (StepConfig.StoreAs step) (VString input)) ;;;
        v1 <- load c ;;
        conv_AddHistory c (Conversation.StepID v1) input ;;;
        emit (EvDeleteMessage (msg_ChatID msg) (msg_MessageID msg)) ;;;
        if negb (String.eqb (StepConfig.OnComplete step) EmptyString) then
          _ <- ExecuteStepHandler (Router.flowEngine r) c (StepConfig.OnComplete step) ;;
          ret tt
        else
          v2 <- load c ;;
          let nextStep := DetermineNextStep (Router.flowEngine r) v2 input in
          if negb (String.eqb nextStep EmptyString) then
            ChangeStep (msg_FromID msg) (Conversation.ChatID v2) nextStep ;;;
            displayStep r c
          else ret tt
      end
  end.

Definition handleMessage (r : Router.t) (msg : Message) : M unit :=
  if negb (msg_HasFrom msg) then ret tt
  else if negb (CheckAuth r (msg_FromID msg) (msg_FromUsername msg)) then ret tt
  else
    c <- Get (msg_FromID msg) (msg_ChatID msg) ;;
    match c with
    | Some c => handleConversationMessage r msg c
    | None => when (Router.messageHandler r) (emit EvMessageHandler)
    end.

End Validation.

(* ================================================================== *)
(** * More of the packages: flow validation, accessors, dispatch *)
(* ================================================================== *)

(** ** Package config *)



(** ** Package conv *)

(** [int(n)] for a [float64]: the fraction is cut off, towards zero. Go
    leaves the result to the implementation when the number has no place
    in [int] (too large, infinite, not a number): [unrepresentable] is
    the choice of the implementation. [int] has 64 bits. *)
Definition int_of_float64 (unrepresentable : spec_float -> Z) (f : spec_float) : Z :=
  match f with
  | S754_zero _ => 0
  | S754_finite s m e =>
    let magnitude :=
      if 0 <=? e then Z.pos m * 2 ^ e else Z.pos m / 2 ^ (- e) in
    let n := if s then - magnitude else magnitude in
    if (- 2 ^ 63 <=? n) && (n <? 2 ^ 63) then n else unrepresentable f
  | S754_infinity _ | S754_nan => unrepresentable f
  end.

(** [Conversation.GetInt]: an [int] or an [int64] is returned, a
    [float64] is converted, anything else, a string included, reads
    as 0. *)
Definition GetInt (unrepresentable : spec_float -> Z)
    (c : Conversation.t) (key : string) : Z :=
  match Conversation.Get c key with
  | None => 0
  | Some (VInt n) => n
  | Some (VInt64 n) => n
  | Some (VFloat64 f) => int_of_float64 unrepresentable f
  | Some _ => 0
  end.

(** ** The wrapper: [StartConversation] of tgwrapper.go *)

Definition StartConversation (cfg : Config.t) (userID chatID topicID : Z)
    (flowID : string) (keyboardMsgID : Z) : M (option loc * error) :=
  match Config.GetFlow cfg flowID with
  | None => ret (None, Some ("flow " ++ flowID ++ " does not exist")%string)
  | Some flow =>
    c <- Start userID chatID topicID flowID (FlowConfig.InitialStep flow)
               (FlowConfig.TTL flow) ;;
    when (0 <? keyboardMsgID) (conv_SetKeyboardMsgID c keyboardMsgID) ;;;
    ret (Some c, None)
  end.

(** ** Package handler: commands and callbacks *)

(** [strings.SplitN(s, sep, n)] for [n > 0] and a non-empty separator:
    at most [n] pieces, and never more than [len(s) + 1]. *)
Definition SplitN (s sep : string) (n : nat) : list string :=
  strings.genSplit (Nat.min n (String.length s + 1) - 1) s sep.

(** [Router.RegisterCommand] on the names of the registered commands. *)
Definition RegisterCommand (command : string) (commandHandlers : gset string)
    : gset string :=
  {[ strings.TrimPrefix command "/" ]} ∪ commandHandlers.

(** What [handleCommand] does with a message: nothing, a nil dereference
    of [msg.From] (the function reads [msg.From.ID] without a check), a
    silent drop of an unauthorised sender, or the look-up of a command
    name, whose handler runs when it is registered. *)
Inductive CommandOutcome :=
| NotACommand
| NilSender
| Unauthorized (command : string)
| Invoked (command : string)
| NoHandler (command : string).

(** The name in [parts[0]] once the slash and the bot mention are cut. *)
Definition commandName (text : string) : string :=
  let parts := SplitN text " " 2 in
  let command := strings.TrimPrefix (hd EmptyString parts) "/" in
  match strings.Index command "@" with
  | Some idx => stake idx command
  | None => command
  end.

Definition handleCommand (r : Router.t) (commandHandlers : gset string)
    (msg : Message) : CommandOutcome :=
  match msg_Text msg with
  | EmptyString => NotACommand
  | String c0 _ =>
    if negb (Ascii.eqb c0 "/") then NotACommand
    else
      let command := commandName (msg_Text msg) in
      if negb (msg_HasFrom msg) then NilSender
      else if negb (CheckAuth r (msg_FromID msg) (msg_FromUsername msg))
      then Unauthorized command
      else if decide (command ∈ commandHandlers) then Invoked command
      else NoHandler command
  end.

(** The loop of [handleCallback] over [r.prefixHandlers]: the first
    registered prefix, in the order of the visit, that [data] starts
    with. *)
Fixpoint matchPrefix (prefixes : list string) (data : string) : option string :=
  match prefixes with
  | [] => None
  | prefix :: rest =>
    if strings.HasPrefix data prefix then Some prefix else matchPrefix rest data
  end.

(** A callback handler is code of the application: it is given the
    query, may do anything to the sessions and to the store, and reports
    an error, which the router only logs. *)
Definition CallbackHandler := CallbackQuery -> M error.

(** The code behind the two maps of handlers of the router: the handler
    registered for a callback, and the handler registered for a
    prefix. *)
Record HandlerCode := mkHandlerCode {
  callbackCode : string -> CallbackHandler;
  prefixCode : string -> CallbackHandler
}.

(** [Router.handleCallback]. Go visits the map of prefix handlers in an
    unspecified order: [prefixes] lists the registered prefixes in the
    order of that visit. The call of a registered handler is recorded
    under the string it was registered with, then the handler runs, and
    the router drops the error it reports. *)
Definition handleCallback (r : Router.t) (code : HandlerCode)
    (prefixes : list string) (query : CallbackQuery) : M unit :=
  if negb (CheckAuth r (q_FromID query) (q_FromUsername query)) then
    emit (EvAnswerCallback (q_ID query) EmptyString)
  else
    let data := q_Data query in
    if String.eqb data CallbackMainMenu then handleMainMenu r query
    else if String.eqb data CallbackBack || String.eqb data CallbackCancel
    then handleBack r query
    else if decide (data ∈ Router.callbackHandlers r)
    then emit (EvCallbackHandler data) ;;;
         _ <- callbackCode code data query ;; ret tt
    else
      match matchPrefix prefixes data with
      | Some prefix =>
        emit (EvCallbackHandler prefix) ;;;
        _ <- prefixCode code prefix query ;; ret tt
      | None =>
        c <- Get (q_FromID query) (q_ChatID query) ;;
        match c with
        | Some c => handleConversationCallback r query c
        | None => emit (EvAnswerCallback (q_ID query) EmptyString)
        end
      end.

(** ** Package core: callback data and keyboards *)

(** [ParseCallbackData] *)
Definition ParseCallbackData (data prefix : string) : string :=
  if (String.length prefix <=? String.length data)%nat
     && String.eqb (stake (String.length prefix) data) prefix
  then sdrop (String.length prefix) data
  else data.

(** The handler that [setupInternalHandlers] of the wrapper registers
    for the prefix [flow:]. [topicID] and [msgID] are
    [core.GetTopicID(query.Message)] and [query.Message.GetMessageID()];
    [ShowMainMenu] and [showStepPrompt] are the two functions of the
    wrapper that render a menu and the prompt of a step. *)
Definition flowStartHandler (cfg : Config.t)
    (ShowMainMenu : Z -> Z -> Z -> M error) (showStepPrompt : loc -> M error)
    (topicID msgID : Z) : CallbackHandler :=
  fun query =>
    emit (EvAnswerCallback (q_ID query) EmptyString) ;;;
    let flowID := ParseCallbackData (q_Data query) "flow:" in
    let chatID := q_ChatID query in
    started <- StartConversation cfg (q_FromID query) chatID topicID flowID msgID ;;
    match started.2 with
    | Some _ => ShowMainMenu chatID topicID msgID
    | None =>
      c <- Get (q_FromID query) chatID ;;
      match c with
      | Some c => showStepPrompt c
      | None => ret None
      end
    end.

(** [telego.InlineKeyboardButton]: the two fields [Button] sets. *)
Record InlineKeyboardButton := mkInlineKeyboardButton {
  btn_Text : string;
  btn_CallbackData : string
}.

(** [Button] *)
Definition Button (text callback : string) : InlineKeyboardButton :=
  mkInlineKeyboardButton text callback.

(** The rows of a [KeyboardBuilder]. *)
Definition Rows := list (list InlineKeyboardButton).

(** The loop [for i := 0; i < len(buttons); i += columns] of [Grid];
    [fuel] bounds the number of rounds. *)
Fixpoint Grid_loop (fuel i columns : nat) (buttons : list InlineKeyboardButton)
    (rows : Rows) : Rows :=
  match fuel with
  | O => rows
  | S fuel' =>
    if (i <? length buttons)%nat then
      let end_ := Nat.min (i + columns) (length buttons) in
      Grid_loop fuel' (i + columns) columns buttons
                (rows ++ [take (end_ - i) (drop i buttons)])
    else rows
  end.

(** [KeyboardBuilder.Grid]: the loop advances by one column at least, so
    [len(buttons)] rounds are enough. *)
Definition Grid (rows : Rows) (buttons : list InlineKeyboardButton) (columns : Z)
    : Rows :=
  let columns := if columns <=? 0 then 2 else columns in
  Grid_loop (length buttons) 0 (Z.to_nat columns) buttons rows.

(** [string(rune('0'+n))], the page numbers of [Pagination]. *)
Definition pageRune (n : Z) : string := string_of_rune (rune (48 + n)).

(** The two arrows: U+2B05 and U+27A1, each with the variation selector
    U+FE0F. *)
Definition leftArrow : string := (utf8.EncodeRune 0x2B05 ++ utf8.EncodeRune 0xFE0F)%string.
Definition rightArrow : string := (utf8.EncodeRune 0x27A1 ++ utf8.EncodeRune 0xFE0F)%string.

(** [KeyboardBuilder.Pagination] *)
Definition Pagination (rows : Rows) (currentPage totalPages : Z) (prefix : string)
    : Rows :=
  if totalPages <=? 1 then rows
  else
    let buttons :=
      (if 1 <? currentPage
       then [Button leftArrow (prefix ++ pageRune (currentPage - 1))] else [])
      ++ [Button (pageRune currentPage ++ "/" ++ pageRune totalPages) "noop"]
      ++ (if currentPage <? totalPages
          then [Button rightArrow (prefix ++ pageRune (currentPage + 1))] else []) in
    if (0 <? length buttons)%nat then rows ++ [buttons] else rows.

(** ** Running the monad in a proof *)

Ltac run :=
  unfold conv_Set, conv_SetStep, conv_SetKeyboardMsgID, conv_AddHistory,
    conv_GetPreviousStep, conv_IsExpired, conv_Refresh, conv_Complete,
    conv_Cancel, NewConversation, bind, now, load, modify, alloc, ret, emit,
    when, getManager, mapLookup, mapStore, mapDelete;
  cbn [fst snd heap manager trace tick clock nextLoc].

Ltac run_in H :=
  unfold conv_Set, conv_SetStep, conv_SetKeyboardMsgID, conv_AddHistory,
    conv_GetPreviousStep, conv_IsExpired, conv_Refresh, conv_Complete,
    conv_Cancel, NewConversation, bind, now, load, modify, alloc, ret, emit,
    when, getManager, mapLookup, mapStore, mapDelete in H;
  cbn [fst snd heap manager trace tick clock nextLoc] in H.

(* ================================================================== *)
(** * Sample configurations, sessions and worlds *)
(* ================================================================== *)

Definition sampleValidation (ty : string) : ValidationConfig.t :=
  ValidationConfig.mk ty EmptyString EmptyString EmptyString EmptyString 0 0 EmptyString.

Definition sampleStep (validation : option ValidationConfig.t)
    (branches : list BranchConfig.t) (nextStep : string) : StepConfig.t :=
  StepConfig.mk "s" EmptyString InputTypeText validation nextStep branches EmptyString EmptyString EmptyString EmptyString.

Definition sampleEngine (step : StepConfig.t) (evaluator : option ConditionEvaluator)
    : FlowEngine.t :=
  FlowEngine.mk
    (Some (Config.mk {[ "f" := FlowConfig.mk "f" EmptyString "s" {[ "s" := step ]} 0 ]}))
    ∅ ∅ evaluator.

Definition sampleConversation : Conversation.t :=
  Conversation.New 0 1 1 0 "f" "s" 100.

Definition branchesAB : list BranchConfig.t :=
  [BranchConfig.mk ("input == " ++ quoted "a") "s2" EmptyString;
   BranchConfig.mk ("input == " ++ quoted "b") "s3" EmptyString].


(** A session that has stored the string [zzz] under [x] and the integer
    5 under [n]. *)
Definition sampleData : Conversation.t :=
  Conversation.with_Data {[ "x" := VString "zzz"; "n" := VInt 5 ]} sampleConversation.

(** An engine whose only branch has a condition for a custom evaluator,
    and whose registered evaluator rejects every condition. *)
Definition customEngine : FlowEngine.t :=
  sampleEngine (sampleStep None [BranchConfig.mk "custom:vip" "s2" EmptyString] "s3")
               (Some (fun _ _ => false)).

(** A world with an empty index, all hooks set, and a clock that
    advances by one second at each reading. *)
Definition sampleManager : Manager.t :=
  Manager.mk ∅ (30 * 60 * 1000000000) true true true.

Definition sampleWorld : World :=
  mkWorld (fun _ => sampleConversation) 0%nat sampleManager
          (fun n => 1000000000 * Z.of_nat n) 0%nat [].

(** The world after user 1 has started flow [f] in chat 2 with a TTL of
    five nanoseconds: at the next reading the session has expired. *)
Definition expiredWorld : World :=
  (Start 1 2 0 "f" "s" 5 sampleWorld).2.

(** The world after user 1 has started flow [f] in chat 2 with the default
    TTL. *)
Definition liveWorld : World :=
  (Start 1 2 0 "f" "s" 0 sampleWorld).2.

(** The world of [expiredWorld] with the clock stopped at one second. *)
Definition frozenWorld : World :=
  mkWorld (heap expiredWorld) (nextLoc expiredWorld) (manager expiredWorld)
          (fun _ => 1000000000) (tick expiredWorld) (trace expiredWorld).

(** A session that stores the string [a!=b] under the key [é] (U+00E9). *)
Definition sampleAccent : Conversation.t :=
  Conversation.with_Data {[ utf8.EncodeRune 0xE9 := VString "a!=b" ]} sampleConversation.

(** Handlers that do nothing and report no error. *)
Definition idleCode : HandlerCode :=
  mkHandlerCode (fun _ _ => ret None) (fun _ _ => ret None).

(* ================================================================== *)
(** * Vocabulary of the properties *)
(* ================================================================== *)

(** ** Bytes and addresses *)

Definition all_bytes : list ascii := map ascii_of_nat (seq 0 256).

(** The hexadecimal digits, in either case. *)
Definition isHexDigit (c : ascii) : bool :=
  existsb (Ascii.eqb c) (list_ascii_of_string "0123456789abcdefABCDEF").

(** The part of a multi-byte rune that its first two bytes determine. *)
Definition leadBits (sz : nat) (s0 s1 : Z) : Z :=
  match sz with
  | 2%nat => Z.shiftl (Z.land s0 utf8.mask2) 6
  | 3%nat => Z.lor (Z.shiftl (Z.land s0 utf8.mask3) 12)
                   (Z.shiftl (Z.land s1 utf8.maskx) 6)
  | _ => Z.lor (Z.shiftl (Z.land s0 utf8.mask4) 18)
               (Z.shiftl (Z.land s1 utf8.maskx) 12)
  end.

Definition leadCheck (c0 c1 : ascii) : bool :=
  match utf8.first (byteZ c0) with
  | utf8.SZ sz lo hi =>
    if (byteZ c1 <? lo) || (hi <? byteZ c1) then true
    else (128 <=? leadBits sz (byteZ c0) (byteZ c1)) && (2 <=? sz)%nat && (sz <=? 4)%nat
  | _ => true
  end.

Definition digitCheck (c : ascii) : bool :=
  match strconv.digit (byteZ c) with
  | Some d => if 16 <=? d then true else isHexDigit c
  | None => true
  end.

Definition addressMessage (validation : ValidationConfig.t) : string :=
  getErrorMsg (ValidationConfig.ErrorMsg validation)
              "Please enter a valid Ethereum address".

(** The shape of an address: 42 bytes, the prefix [0x], then 40
    hexadecimal digits. *)
Definition wellFormedAddress (input : string) : bool :=
  (String.length input =? 42)%nat && strings.HasPrefix input "0x"
  && sforallb isHexDigit (sdrop 2 input).

(** ** Conditions *)

(** The condition [key op "value"], one space on each side of [op]. *)
Definition comparison (key op value : string) : string :=
  (key ++ String " " (op ++ String " " (quoted value)))%string.

(** A byte of ASCII that is not white space. *)
Definition graphic (c : ascii) : bool :=
  (byteZ c <? utf8.RuneSelf) && negb (strings.asciiSpace c).

(** The string is empty, or starts and ends with a byte accepted by [p]. *)
Definition bothEnds (p : ascii -> bool) (s : string) : bool :=
  match s with
  | EmptyString => true
  | String c _ => p c && match slast s with Some l => p l | None => true end
  end.

(** The key has no white space at its ends. *)
Definition tidyKey (key : string) : bool := bothEnds graphic key.
(** The value has no quote character at its ends. *)
Definition tidyValue (value : string) : bool :=
  bothEnds (fun c => negb (strings.inCutset quotes c)) value.

(** ** The session store *)

Abbreviation index w := (Manager.conversations (manager w)).

(** The world after [time.Now()]. *)
Definition ticked (w : World) : World :=
  mkWorld (heap w) (nextLoc w) (manager w) (clock w) (S (tick w)) (trace w).

(** The world after [End] has found [conv] under [key]. *)
Definition ended (key : string) (conv : loc) (w : World) : World :=
  mkWorld (heap w) (nextLoc w)
          (Manager.with_conversations (delete key (index w)) (manager w))
          (clock w) (tick w)
          (trace w ++ EvMapDelete key
                   :: (if Manager.onEnd (manager w) then [EvOnEnd conv] else [])).

(** [n] calls of [Get] in a row. *)
Fixpoint Get_repeated (n : nat) (userID chatID : Z) (w : World) : list (option loc) * World :=
  match n with
  | O => ([], w)
  | S n' => let '(r, w1) := Get userID chatID w in
            let '(rs, w2) := Get_repeated n' userID chatID w1 in
            (r :: rs, w2)
  end.

(** The number of calls of the end hook on [conv] in a trace. *)
Definition endHookCalls (conv : loc) (tr : list Event) : nat :=
  length (filter (fun ev => ev = EvOnEnd conv) tr).

(** The entries that [Cleanup] finds expired when the clock shows [t]. *)
Definition expiredEntry (hp : loc -> Conversation.t) (t : Z) (entry : string * loc) : bool :=
  Conversation.expiredAt t (hp entry.2).

(** The world after the sweep has removed [conv] under [key]. *)
Definition swept (key : string) (conv : loc) (w : World) : World :=
  mkWorld (heap w) (nextLoc w)
          (Manager.with_conversations (delete key (index w)) (manager w))
          (clock w) (tick w)
          (trace w ++ (if Manager.onEnd (manager w) then [EvOnEnd conv] else [])
                   ++ [EvMapDelete key]).

(** ** The router *)

(** The events of [handleMainMenu] on a key without a session. *)
Definition mainMenuEvents (r : Router.t) (query : CallbackQuery) : list Event :=
  EvAnswerCallback (q_ID query) EmptyString
  :: (if decide ((CallbackMainMenu ++ "_internal")%string ∈ Router.callbackHandlers r)
      then [EvCallbackHandler (CallbackMainMenu ++ "_internal")%string] else []).

(** The world after [handleBack] has found the session [c] without a
    previous step. *)
Definition backToMenu (r : Router.t) (query : CallbackQuery) (c : loc) (w : World)
    : World :=
  mkWorld (heap w) (nextLoc w)
    (Manager.with_conversations
       (delete (conversationKey (q_FromID query) (q_ChatID query)) (index w))
       (manager w))
    (clock w) (S (tick w))
    (trace w ++ [EvAnswerCallback (q_ID query) EmptyString;
                 EvMapDelete (conversationKey (q_FromID query) (q_ChatID query))]
             ++ (if Manager.onEnd (manager w) then [EvOnEnd c] else [])
             ++ mainMenuEvents r query).

Definition isDisplayStep (ev : Event) : bool :=
  match ev with
  | EvDisplayStep _ _ => true
  | _ => false
  end.

(** A router over the flow of the specification's end-to-end example:
    step [A] takes text, stores it under [name] and leads to step [B]. *)
Definition stepA (validation : option ValidationConfig.t) : StepConfig.t :=
  StepConfig.mk "A" EmptyString InputTypeText validation "B" [] EmptyString EmptyString "name" EmptyString.

Definition routerF (validation : option ValidationConfig.t) : Router.t :=
  Router.mk
    (FlowEngine.mk
       (Some (Config.mk
          {[ "F" := FlowConfig.mk "F" EmptyString "A"
                      {[ "A" := stepA validation;
                         "B" := StepConfig.mk "B" EmptyString InputTypeText None EmptyString [] EmptyString EmptyString EmptyString EmptyString ]}
                      0 ]}))
       ∅ ∅ None)
    None {[ "main_menu_internal" ]} false true.

Definition worldF : World := (Start 1 2 0 "F" "A" 0 sampleWorld).2.

Definition textMessage (text : string) : Message :=
  mkMessage true 1 "alice" 2 0 77 text.

Definition backQuery : CallbackQuery := mkCallbackQuery "q1" 1 "alice" 2 "back".

(** ** Encoding of runes *)

(** A Unicode scalar value: in range and not a surrogate. *)
Definition validRune (r : Z) : bool :=
  (0 <=? r) && (r <=? utf8.MaxRune)
  && negb ((utf8.surrogateMin <=? r) && (r <=? utf8.surrogateMax)).

(** ** The router *)

(** What a navigation leaves of a session: everything but the step and
    the time of the last update. *)
Definition kept (a b : Conversation.t) : Prop :=
  Conversation.Data b = Conversation.Data a
  /\ Conversation.History b = Conversation.History a
  /\ Conversation.ExpiresAt b = Conversation.ExpiresAt a
  /\ Conversation.FlowID b = Conversation.FlowID a
  /\ Conversation.State b = Conversation.State a.

(** The events of a navigation: answers to the query, ends of sessions,
    changes and displays of steps, and the handler registered for the
    main menu. No other handler, no message sent or deleted, no session
    stored. *)
Definition quietEvent (ev : Event) : bool :=
  match ev with
  | EvAnswerCallback _ _ | EvOnEnd _ | EvMapDelete _
  | EvOnStepChange _ _ _ | EvDisplayStep _ _ => true
  | EvCallbackHandler name => String.eqb name (CallbackMainMenu ++ "_internal")
  | _ => false
  end.

(** [w'] comes from [w] by navigation: sessions keep their data, the
    index loses keys at most, no session is created and the events are
    quiet. *)
Definition navigates (w w' : World) : Prop :=
  (forall l, kept (heap w l) (heap w' l))
  /\ (forall key, index w' !! key = None \/ index w' !! key = index w !! key)
  /\ nextLoc w' = nextLoc w
  /\ exists evs, trace w' = trace w ++ evs /\ forallb quietEvent evs = true.

Definition nav {A : Type} (m : M A) : Prop := forall w, navigates w (m w).2.

(** A session that has taken two inputs: [Alice] at step [A], then [Bob]
    at step [B]. *)
Definition worldAB : World :=
  (handleMessage unit (fun _ => None) (fun _ _ => false) (fun _ _ => None)
     (routerF None) (textMessage "Bob")
     (handleMessage unit (fun _ => None) (fun _ _ => false) (fun _ _ => None)
        (routerF None) (textMessage "Alice") worldF).2).2.

(** A router whose step [A] names the completion handler [finish]: the
    handler marks the session as done and reports an error. *)
Definition routerDone : Router.t :=
  Router.mk
    (FlowEngine.mk
       (Some (Config.mk
          {[ "F" := FlowConfig.mk "F" EmptyString "A"
                      {[ "A" := StepConfig.mk "A" EmptyString InputTypeText None "B" []
                                  EmptyString "finish" "name" EmptyString ]}
                      0 ]}))
       {[ "finish" := fun c => conv_Set c "done" (VBool true) ;;; ret (Some "failed") ]}
       ∅ None)
    None ∅ false true.

(** A router whose step [A] takes callbacks under an [address] rule and
    stores them under [choice]. *)
Definition routerC : Router.t :=
  Router.mk
    (FlowEngine.mk
       (Some (Config.mk
          {[ "F" := FlowConfig.mk "F" EmptyString "A"
                      {[ "A" := StepConfig.mk "A" EmptyString InputTypeCallback
                                  (Some (sampleValidation "address")) "B" []
                                  EmptyString EmptyString "choice" EmptyString ]}
                      0 ]}))
       ∅ ∅ None)
    None ∅ false true.

(** The handlers of the wrapper: [flow:] starts a flow of the
    configuration of [routerF]; the menus and the prompt are not
    rendered. *)
Definition wrapperCode : HandlerCode :=
  mkHandlerCode
    (fun _ _ => ret None)
    (fun _ =>
       flowStartHandler
         (Config.mk
            {[ "F" := FlowConfig.mk "F" EmptyString "A"
                        {[ "A" := stepA None;
                           "B" := StepConfig.mk "B" EmptyString InputTypeText None EmptyString [] EmptyString EmptyString EmptyString EmptyString ]}
                        0 ]})
         (fun _ _ _ => ret None) (fun _ => ret None) 0 77).

(* ================================================================== *)
(** * Bytes, runes and the address rule *)
(* ================================================================== *)

Lemma all_bytes_complete (c : ascii) : In c all_bytes.
Proof.
  unfold all_bytes. rewrite <- (ascii_nat_embedding c).
  apply in_map. apply in_seq. pose proof (nat_ascii_bounded c). lia.
Qed.

Lemma forall_bytes (P : ascii -> bool) :
  forallb P all_bytes = true -> forall c, P c = true.
Proof.
  intros H c. rewrite forallb_forall in H. apply H, all_bytes_complete.
Qed.

Lemma forall_bytes2 (P : ascii -> ascii -> bool) :
  forallb (fun a => forallb (P a) all_bytes) all_bytes = true ->
  forall a b, P a b = true.
Proof.
  intros H a b. apply (forall_bytes (P a)).
  apply (forall_bytes (fun a => forallb (P a) all_bytes) H a).
Qed.

Lemma byteZ_nonneg (c : ascii) : 0 <= byteZ c.
Proof. unfold byteZ. lia. Qed.

Lemma lor_lower (a b : Z) : 0 <= b -> a <= Z.lor a b.
Proof.
  intros Hb. pose proof (Z.sub_lor_l_same_l b a) as H.
  assert (0 <= Z.land b (Z.lnot a)) by (apply Z.land_nonneg; left; exact Hb).
  lia.
Qed.

Lemma land_maskx_nonneg (b : Z) : 0 <= Z.land b utf8.maskx.
Proof. apply Z.land_nonneg. right. unfold utf8.maskx. lia. Qed.

Lemma isHexRune_byte (c : ascii) : isHexRune (byteZ c) = isHexDigit c.
Proof.
  apply (eqb_prop _ _).
  apply (forall_bytes (fun c => Bool.eqb (isHexRune (byteZ c)) (isHexDigit c))).
  vm_compute. reflexivity.
Qed.

Lemma isHexRune_small (r : Z) : isHexRune r = true -> r < 128.
Proof. unfold isHexRune. lia. Qed.

Lemma leadCheck_all (c0 c1 : ascii) : leadCheck c0 c1 = true.
Proof. apply forall_bytes2. vm_compute. reflexivity. Qed.

(** A leading byte outside ASCII never decodes to a hexadecimal digit. *)
Lemma DecodeRune_nonascii (c0 : ascii) (t : string) :
  128 <= byteZ c0 ->
  isHexRune (fst (utf8.DecodeRuneInString (String c0 t))) = false.
Proof.
  intros Hc0. apply not_true_is_false. intros Hhex.
  apply isHexRune_small in Hhex. revert Hhex.
  unfold utf8.DecodeRuneInString.
  destruct (utf8.first (byteZ c0)) as [| |sz lo hi] eqn:Hfirst.
  - unfold utf8.first in Hfirst.
    destruct (byteZ c0 <? 128) eqn:E; [lia|].
    repeat match type of Hfirst with
           | (if ?b then _ else _) = _ => destruct b; try discriminate
           end.
  - simpl. unfold utf8.RuneError. lia.
  - destruct (String.length (String c0 t) <? sz)%nat;
      [simpl; unfold utf8.RuneError; lia|].
    destruct t as [|c1 t1]; [simpl; unfold utf8.RuneError; lia|].
    pose proof (leadCheck_all c0 c1) as Hlead. unfold leadCheck in Hlead.
    rewrite Hfirst in Hlead.
    destruct ((byteZ c1 <? lo) || (hi <? byteZ c1));
      [simpl; unfold utf8.RuneError; lia|].
    apply andb_prop in Hlead as [Hlead Hsz4].
    apply andb_prop in Hlead as [Hlead Hsz2].
    apply Z.leb_le in Hlead. apply Nat.leb_le in Hsz2, Hsz4.
    assert (Hsz : sz = 2%nat \/ sz = 3%nat \/ sz = 4%nat) by lia.
    destruct Hsz as [-> | [-> | ->]]; simpl (_ <=? _)%nat; cbv iota.
    + simpl fst. simpl leadBits in Hlead.
      pose proof (lor_lower (Z.shiftl (Z.land (byteZ c0) utf8.mask2) 6)
                    (Z.land (byteZ c1) utf8.maskx) (land_maskx_nonneg _)). lia.
    + destruct t1 as [|c2 t2]; [simpl; unfold utf8.RuneError; lia|].
      destruct ((byteZ c2 <? utf8.locb) || (utf8.hicb <? byteZ c2));
        [simpl; unfold utf8.RuneError; lia|].
      simpl fst. simpl leadBits in Hlead.
      pose proof (lor_lower
                    (Z.lor (Z.shiftl (Z.land (byteZ c0) utf8.mask3) 12)
                           (Z.shiftl (Z.land (byteZ c1) utf8.maskx) 6))
                    (Z.land (byteZ c2) utf8.maskx) (land_maskx_nonneg _)). lia.
    + destruct t1 as [|c2 t2]; [simpl; unfold utf8.RuneError; lia|].
      destruct ((byteZ c2 <? utf8.locb) || (utf8.hicb <? byteZ c2));
        [simpl; unfold utf8.RuneError; lia|].
      destruct t2 as [|c3 t3]; [simpl; unfold utf8.RuneError; lia|].
      destruct ((byteZ c3 <? utf8.locb) || (utf8.hicb <? byteZ c3));
        [simpl; unfold utf8.RuneError; lia|].
      simpl fst. simpl leadBits in Hlead.
      assert (0 <= Z.shiftl (Z.land (byteZ c2) utf8.maskx) 6)
        by (apply Z.shiftl_nonneg, land_maskx_nonneg).
      pose proof (lor_lower
                    (Z.lor (Z.shiftl (Z.land (byteZ c0) utf8.mask4) 18)
                           (Z.shiftl (Z.land (byteZ c1) utf8.maskx) 12))
                    (Z.shiftl (Z.land (byteZ c2) utf8.maskx) 6) ltac:(assumption)).
      pose proof (lor_lower
                    (Z.lor (Z.lor (Z.shiftl (Z.land (byteZ c0) utf8.mask4) 18)
                                  (Z.shiftl (Z.land (byteZ c1) utf8.maskx) 12))
                           (Z.shiftl (Z.land (byteZ c2) utf8.maskx) 6))
                    (Z.land (byteZ c3) utf8.maskx) (land_maskx_nonneg _)). lia.
Qed.

Lemma DecodeRune_ascii (c0 : ascii) (t : string) :
  byteZ c0 < 128 ->
  utf8.DecodeRuneInString (String c0 t) = (byteZ c0, 1%nat).
Proof.
  intros H. unfold utf8.DecodeRuneInString, utf8.first.
  destruct (byteZ c0 <? 128) eqn:E; [reflexivity|lia].
Qed.

(** The rune loop of [validateAddress] accepts exactly the strings of
    hexadecimal digits. *)
Lemma checkHexRunes_bytes (msg : string) (n : nat) (s : string) :
  (String.length s <= n)%nat ->
  checkHexRunes (utf8.runes_fuel n s) msg
  = if sforallb isHexDigit s then None else Some msg.
Proof.
  revert s. induction n as [|n IH]; intros s Hlen.
  - destruct s; [reflexivity|simpl in Hlen; lia].
  - destruct s as [|c t]; [reflexivity|].
    simpl in Hlen. cbn [utf8.runes_fuel sforallb].
    destruct (Z_lt_ge_dec (byteZ c) 128) as [Hlt|Hge].
    + rewrite (DecodeRune_ascii c t Hlt). cbn [checkHexRunes sdrop].
      rewrite isHexRune_byte.
      destruct (isHexDigit c); cbn [negb andb]; [apply IH; lia|reflexivity].
    + pose proof (DecodeRune_nonascii c t ltac:(lia)) as Hnon.
      destruct (utf8.DecodeRuneInString (String c t)) as [r size].
      cbn [fst] in Hnon. cbn [checkHexRunes]. rewrite Hnon. cbn [negb].
      assert (isHexDigit c = false) as ->; [|reflexivity].
      rewrite <- isHexRune_byte. apply not_true_is_false.
      intros Hh. apply isHexRune_small in Hh. lia.
Qed.

Lemma digitCheck_all (c : ascii) : digitCheck c = true.
Proof. apply forall_bytes. vm_compute. reflexivity. Qed.

(** [ParseUint] in base 16 succeeds only on hexadecimal digits. *)
Lemma ParseUint_loop_hex (s : string) (cutoff maxVal n v : Z) :
  strconv.ParseUint_loop s 16 cutoff maxVal n = inl v ->
  sforallb isHexDigit s = true.
Proof.
  revert n. induction s as [|c t IH]; intros n H; [reflexivity|].
  cbn [strconv.ParseUint_loop] in H. cbn [sforallb].
  pose proof (digitCheck_all c) as Hd. unfold digitCheck in Hd.
  destruct (strconv.digit (byteZ c)) as [d|]; [|discriminate].
  destruct (16 <=? d); [discriminate|]. rewrite Hd. cbn [andb].
  destruct (cutoff <=? n); [discriminate|].
  match type of H with
  | (if ?b then _ else _) = _ => destruct b; [discriminate|]
  end.
  eapply IH. exact H.
Qed.

Lemma ParseUint_hex (s : string) (v : Z) :
  strconv.ParseUint s 16 64 = inl v -> sforallb isHexDigit s = true.
Proof.
  unfold strconv.ParseUint. destruct s; [discriminate|].
  apply ParseUint_loop_hex.
Qed.

Lemma getErrorMsg_nonempty (configured defaultMsg : string) :
  defaultMsg <> EmptyString -> getErrorMsg configured defaultMsg <> EmptyString.
Proof.
  intros Hd. unfold getErrorMsg.
  destruct (String.eqb configured EmptyString) eqn:E; [exact Hd|].
  apply String.eqb_neq. exact E.
Qed.

Lemma validateAddress_spec (e : FlowEngine.t) (input : string)
    (validation : ValidationConfig.t) :
  validateAddress e input validation
  = if wellFormedAddress input then None else Some (addressMessage validation).
Proof.
  unfold validateAddress, wellFormedAddress. fold (addressMessage validation).
  destruct (String.length input =? 42)%nat; cbn [negb orb andb]; [|reflexivity].
  destruct (strings.HasPrefix input "0x"); cbn [negb andb]; [|reflexivity].
  destruct (strconv.ParseUint (sdrop 2 input) 16 64) as [v|err] eqn:Hp.
  - rewrite (ParseUint_hex _ _ Hp). reflexivity.
  - unfold utf8.runes. apply checkHexRunes_bytes. lia.
Qed.


(* ================================================================== *)
(** * Properties of the flow engine *)
(* ================================================================== *)

Section EngineProperties.

Variable float64 : Type.
Variable ParseFloat : string -> option float64.
Variable float_lt : float64 -> float64 -> bool.
Variable MatchString : string -> string -> option bool.

Lemma firstBranch_app e conv input pre post nextStep :
  (forall b, In b pre ->
     evaluateBranchCondition e conv (BranchConfig.Condition b) input = false) ->
  firstBranch e conv input (pre ++ post) nextStep
  = firstBranch e conv input post nextStep.
Proof.
  induction pre as [|b pre IH]; intros Hpre; simpl; [reflexivity|].
  rewrite (Hpre b (or_introl eq_refl)). apply IH.
  intros b' Hb'. apply Hpre. right. exact Hb'.
Qed.

(** C6: when the current step exists, [DetermineNextStep] returns the
    target of the first branch, in declared order, whose condition
    evaluates to true, and the step's own [NextStep] when no branch
    matches; with the branches [input == "a" -> s2] and
    [input == "b" -> s3] and the input [a] the result is [s2] whatever the
    step's [NextStep] is. *)
Theorem DetermineNextStep_first_match
    (e : FlowEngine.t) (conv : Conversation.t) (input : string)
    (step : StepConfig.t) :
  GetStep e (Conversation.FlowID conv) (Conversation.StepID conv) = Some step ->
  (forall pre b post,
      StepConfig.Branches step = pre ++ b :: post ->
      (forall b', In b' pre ->
         evaluateBranchCondition e conv (BranchConfig.Condition b') input = false) ->
      evaluateBranchCondition e conv (BranchConfig.Condition b) input = true ->
      DetermineNextStep e conv input = BranchConfig.NextStep b)
  /\ ((forall b, In b (StepConfig.Branches step) ->
         evaluateBranchCondition e conv (BranchConfig.Condition b) input = false) ->
      DetermineNextStep e conv input = StepConfig.NextStep step)
  /\ (forall h1 h2,
        StepConfig.Branches step
        = [BranchConfig.mk ("input == " ++ quoted "a") "s2" h1;
           BranchConfig.mk ("input == " ++ quoted "b") "s3" h2] ->
        input = "a" ->
        DetermineNextStep e conv input = "s2").
Proof.
  intros Hstep. unfold DetermineNextStep. rewrite Hstep.
  split; [|split].
  - intros pre b post Hbr Hpre Hb. rewrite Hbr.
    rewrite firstBranch_app by exact Hpre. simpl. rewrite Hb. reflexivity.
  - intros Hall. rewrite <- (app_nil_r (StepConfig.Branches step)).
    rewrite firstBranch_app by exact Hall. reflexivity.
  - intros h1 h2 Hbr ->. rewrite Hbr. reflexivity.
Qed.

(** C10: a validation rule whose type tag is none of [number],
    [address], [email], [regex] and [custom] (the tag [required] of the
    configuration's documentation is one) makes [ValidateInput] succeed on
    every input, which is also its result on a step without a rule. *)
Theorem ValidateInput_unknown_type
    (e : FlowEngine.t) (conv : Conversation.t) (input : string)
    (step : StepConfig.t) (validation : ValidationConfig.t) :
  GetStep e (Conversation.FlowID conv) (Conversation.StepID conv) = Some step ->
  StepConfig.Validation step = Some validation ->
  ValidationConfig.Type_ validation <> "number" ->
  ValidationConfig.Type_ validation <> "address" ->
  ValidationConfig.Type_ validation <> "email" ->
  ValidationConfig.Type_ validation <> "regex" ->
  ValidationConfig.Type_ validation <> "custom" ->
  ValidateInput float64 ParseFloat float_lt MatchString e conv input = None
  /\ (forall e' conv' step',
        GetStep e' (Conversation.FlowID conv') (Conversation.StepID conv') = Some step' ->
        StepConfig.Validation step' = None ->
        ValidateInput float64 ParseFloat float_lt MatchString e' conv' input
        = ValidateInput float64 ParseFloat float_lt MatchString e conv input).
Proof.
  intros Hstep Hval Hn Ha He Hr Hc.
  assert (Hnone : ValidateInput float64 ParseFloat float_lt MatchString e conv input = None).
  { unfold ValidateInput. rewrite Hstep, Hval.
    apply String.eqb_neq in Hn, Ha, He, Hr, Hc.
    rewrite Hn, Ha, He, Hr, Hc. reflexivity. }
  split; [exact Hnone|].
  intros e' conv' step' Hstep' Hval'. rewrite Hnone.
  unfold ValidateInput. rewrite Hstep', Hval'. reflexivity.
Qed.

Lemma validateAddress_through_ValidateInput
    (e : FlowEngine.t) (conv : Conversation.t) (input : string)
    (step : StepConfig.t) (validation : ValidationConfig.t) :
  GetStep e (Conversation.FlowID conv) (Conversation.StepID conv) = Some step ->
  StepConfig.Validation step = Some validation ->
  ValidationConfig.Type_ validation = "address" ->
  ValidateInput float64 ParseFloat float_lt MatchString e conv input
  = if wellFormedAddress input then None else Some (addressMessage validation).
Proof.
  intros Hstep Hval Hty. unfold ValidateInput. rewrite Hstep, Hval, Hty.
  cbn [String.eqb Ascii.eqb Bool.eqb]. apply validateAddress_spec.
Qed.

(** C8: under an [address] rule [ValidateInput] accepts an input exactly
    when it is 42 bytes long, starts with [0x] and continues with 40
    hexadecimal digits of either case; every rejection carries the
    configured message, or the default one when none is configured, and
    that message is not empty. [0x] followed by forty [a] is accepted;
    [0x123] and a 42-byte input with a [g] are rejected. *)
Theorem ValidateInput_address
    (e : FlowEngine.t) (conv : Conversation.t)
    (step : StepConfig.t) (validation : ValidationConfig.t) :
  GetStep e (Conversation.FlowID conv) (Conversation.StepID conv) = Some step ->
  StepConfig.Validation step = Some validation ->
  ValidationConfig.Type_ validation = "address" ->
  (forall input,
     ValidateInput float64 ParseFloat float_lt MatchString e conv input = None
     <-> (String.length input = 42%nat
          /\ strings.HasPrefix input "0x" = true
          /\ sforallb isHexDigit (sdrop 2 input) = true))
  /\ (forall input msg,
        ValidateInput float64 ParseFloat float_lt MatchString e conv input = Some msg ->
        msg <> EmptyString
        /\ msg = (if String.eqb (ValidationConfig.ErrorMsg validation) EmptyString
                  then "Please enter a valid Ethereum address"
                  else ValidationConfig.ErrorMsg validation))
  /\ ValidateInput float64 ParseFloat float_lt MatchString e conv
       "0xaaaaaaaaaaaaaaaaaaaaaaaaaaaaaaaaaaaaaaaa" = None
  /\ ValidateInput float64 ParseFloat float_lt MatchString e conv "0x123" <> None
  /\ ValidateInput float64 ParseFloat float_lt MatchString e conv
       "0xaaaaaaaaaaaaaaaaaaaaaaaaaaaaaaaaaaaaaaag" <> None.
Proof.
  intros Hstep Hval Hty.
  pose proof (fun input => validateAddress_through_ValidateInput e conv input step validation
                             Hstep Hval Hty) as Heq.
  repeat split.
  - rewrite Heq in H. unfold wellFormedAddress in H.
    destruct (String.length input =? 42)%nat eqn:E; [|discriminate].
    apply Nat.eqb_eq. exact E.
  - rewrite Heq in H. unfold wellFormedAddress in H.
    destruct (String.length input =? 42)%nat; [|discriminate].
    destruct (strings.HasPrefix input "0x"); [reflexivity|discriminate].
  - rewrite Heq in H. unfold wellFormedAddress in H.
    destruct (String.length input =? 42)%nat; [|discriminate].
    destruct (strings.HasPrefix input "0x"); [|discriminate].
    destruct (sforallb isHexDigit (sdrop 2 input)); [reflexivity|discriminate].
  - intros (Hlen & Hpre & Hhex). rewrite Heq. unfold wellFormedAddress.
    rewrite Hlen, Hpre, Hhex. reflexivity.
  - rewrite Heq in H. destruct (wellFormedAddress input); [discriminate|].
    injection H as <-. apply getErrorMsg_nonempty. discriminate.
  - rewrite Heq in H. destruct (wellFormedAddress input); [discriminate|].
    injection H as <-. reflexivity.
  - rewrite Heq. reflexivity.
  - rewrite Heq. discriminate.
  - rewrite Heq. discriminate.
Qed.

End EngineProperties.

Lemma DetermineNextStep_first_match_witness :
  GetStep (sampleEngine (sampleStep None branchesAB "s9") None)
          (Conversation.FlowID sampleConversation)
          (Conversation.StepID sampleConversation)
  = Some (sampleStep None branchesAB "s9")
  /\ DetermineNextStep (sampleEngine (sampleStep None branchesAB "s9") None)
                       sampleConversation "a" = "s2".
Proof.
  split; [reflexivity|].
  exact (proj2 (proj2 (DetermineNextStep_first_match
           (sampleEngine (sampleStep None branchesAB "s9") None)
           sampleConversation "a" (sampleStep None branchesAB "s9") eq_refl))
         EmptyString EmptyString eq_refl eq_refl).
Defined.

Lemma ValidateInput_unknown_type_witness :
  ValidateInput unit (fun _ => None) (fun _ _ => false) (fun _ _ => None)
    (sampleEngine (sampleStep (Some (sampleValidation "required")) [] "s2") None)
    sampleConversation EmptyString = None.
Proof.
  apply (ValidateInput_unknown_type unit (fun _ => None) (fun _ _ => false)
           (fun _ _ => None)
           (sampleEngine (sampleStep (Some (sampleValidation "required")) [] "s2") None)
           sampleConversation EmptyString
           (sampleStep (Some (sampleValidation "required")) [] "s2")
           (sampleValidation "required") eq_refl eq_refl);
    discriminate.
Defined.

Lemma ValidateInput_address_witness :
  ValidateInput unit (fun _ => None) (fun _ _ => false) (fun _ _ => None)
    (sampleEngine (sampleStep (Some (sampleValidation "address")) [] "s2") None)
    sampleConversation "0x123" <> None.
Proof.
  apply (ValidateInput_address unit (fun _ => None) (fun _ _ => false)
           (fun _ _ => None)
           (sampleEngine (sampleStep (Some (sampleValidation "address")) [] "s2") None)
           sampleConversation
           (sampleStep (Some (sampleValidation "address")) [] "s2")
           (sampleValidation "address") eq_refl eq_refl eq_refl).
Defined.


(* ================================================================== *)
(** * Cutting and trimming: the condition language *)
(* ================================================================== *)

Lemma sappend_nil (t : string) : (EmptyString ++ t)%string = t.
Proof. reflexivity. Qed.

Lemma sappend_cons (c : ascii) (s t : string) :
  (String c s ++ t)%string = String c (s ++ t).
Proof. reflexivity. Qed.

Lemma sappend_assoc (a b c : string) : ((a ++ b) ++ c = a ++ (b ++ c))%string.
Proof.
  induction a as [|x a IH]; rewrite ?sappend_cons, ?sappend_nil; [reflexivity|].
  now rewrite IH.
Qed.

Lemma stake_app (s t : string) : stake (String.length s) (s ++ t) = s.
Proof.
  induction s as [|c s IH]; rewrite ?sappend_cons, ?sappend_nil;
    cbn [String.length stake]; [reflexivity|]. now rewrite IH.
Qed.

Lemma sdrop_app (s t : string) : sdrop (String.length s) (s ++ t) = t.
Proof.
  induction s as [|c s IH]; rewrite ?sappend_cons, ?sappend_nil;
    cbn [String.length sdrop]; [reflexivity|exact IH].
Qed.

Lemma sdrop_add (n m : nat) (s : string) : sdrop (n + m) s = sdrop m (sdrop n s).
Proof.
  revert s. induction n as [|n IH]; intros s; simpl; [reflexivity|].
  destruct s; [now destruct m|apply IH].
Qed.

Lemma slast_app_one (s : string) (c : ascii) :
  slast (s ++ String c EmptyString) = Some c.
Proof.
  induction s as [|x s IH]; [reflexivity|].
  change (String x s ++ String c EmptyString)%string
    with (String x (s ++ String c EmptyString)).
  destruct (s ++ String c EmptyString)%string eqn:E; [discriminate|].
  cbn [slast]. cbn [slast] in IH. exact IH.
Qed.

(** A byte [g] that does not occur in [sep] separates the instances of
    [sep]: none straddles it. *)
Lemma HasPrefix_guard (sep : string) (g : ascii) (s t : string) :
  strings.inCutset sep g = false ->
  strings.HasPrefix (s ++ String g t) sep = strings.HasPrefix s sep.
Proof.
  revert s. induction sep as [|p sep IH]; intros s Hg; [reflexivity|].
  cbn [strings.inCutset] in Hg. apply orb_false_elim in Hg as [Hgp Hg].
  destruct s as [|c s]; rewrite ?sappend_cons, ?sappend_nil;
    cbn [strings.HasPrefix].
  - rewrite Hgp. reflexivity.
  - destruct (Ascii.eqb c p); [apply IH; exact Hg|reflexivity].
Qed.

Lemma Index_guard (sep : string) (g : ascii) (s t : string) :
  sep <> EmptyString ->
  strings.inCutset sep g = false ->
  strings.Index (s ++ String g t) sep
  = match strings.Index s sep with
    | Some i => Some i
    | None => option_map (fun j => (String.length s + 1 + j)%nat) (strings.Index t sep)
    end.
Proof.
  intros Hsep Hg. induction s as [|c s IH].
  - rewrite sappend_nil. cbn [String.length Nat.add].
    assert (Hp : strings.HasPrefix (String g t) sep = false).
    { destruct sep as [|p sep]; [congruence|].
      cbn [strings.inCutset] in Hg. apply orb_false_elim in Hg as [Hgp _].
      cbn [strings.HasPrefix]. rewrite Hgp. reflexivity. }
    assert (He : strings.Index EmptyString sep = None).
    { destruct sep; [congruence|reflexivity]. }
    rewrite He. cbn [strings.Index]. rewrite Hp. reflexivity.
  - change (String c s ++ String g t)%string with (String c (s ++ String g t)).
    cbn [strings.Index].
    change (String c (s ++ String g t)) with (String c s ++ String g t)%string at 1.
    rewrite (HasPrefix_guard sep g (String c s) t Hg).
    destruct (strings.HasPrefix (String c s) sep); [reflexivity|].
    rewrite IH. destruct (strings.Index s sep); [reflexivity|].
    cbn [String.length]. destruct (strings.Index t sep); reflexivity.
Qed.

Lemma Index_empty (sep : string) : sep <> EmptyString -> strings.Index EmptyString sep = None.
Proof. destruct sep; [congruence|reflexivity]. Qed.

(** No instance of [sep] in [value] gives none in [" " ++ quoted value],
    when neither the space nor the double quote occurs in [sep]. *)
Lemma Index_quoted (sep value : string) :
  sep <> EmptyString ->
  strings.inCutset sep " " = false ->
  strings.inCutset sep dquote = false ->
  strings.Index value sep = None ->
  strings.Index (String " " (quoted value)) sep = None.
Proof.
  intros Hsep Hsp Hdq Hv.
  change (String " " (quoted value)) with (EmptyString ++ String " " (quoted value))%string.
  rewrite (Index_guard sep " " _ _ Hsep Hsp), (Index_empty sep Hsep).
  unfold quoted.
  change (String dquote (value ++ String dquote EmptyString))
    with (EmptyString ++ String dquote (value ++ String dquote EmptyString))%string.
  rewrite (Index_guard sep dquote _ _ Hsep Hdq), (Index_empty sep Hsep).
  rewrite (Index_guard sep dquote _ _ Hsep Hdq), Hv, (Index_empty sep Hsep).
  reflexivity.
Qed.

Lemma Index_comparison_op (key op value : string) :
  op <> EmptyString ->
  strings.inCutset op " " = false ->
  strings.Index key op = None ->
  strings.Index (comparison key op value) op = Some (String.length key + 1)%nat.
Proof.
  intros Hop Hsp Hk. unfold comparison.
  rewrite (Index_guard op " " _ _ Hop Hsp), Hk.
  assert (Hp : strings.HasPrefix (op ++ String " " (quoted value)) op = true).
  { clear. induction op as [|c op IH]; [reflexivity|].
    rewrite sappend_cons. cbn [strings.HasPrefix].
    rewrite Ascii.eqb_refl. exact IH. }
  assert (Hi : strings.Index (op ++ String " " (quoted value)) op = Some O).
  { destruct (op ++ String " " (quoted value))%string eqn:E;
      cbn [strings.Index]; rewrite Hp; reflexivity. }
  rewrite Hi. cbn [option_map]. f_equal. lia.
Qed.

Lemma Split_comparison (key op value : string) :
  op <> EmptyString ->
  strings.inCutset op " " = false ->
  strings.inCutset op dquote = false ->
  strings.Index key op = None ->
  strings.Index value op = None ->
  strings.Split (comparison key op value) op
  = [(key ++ " ")%string; String " " (quoted value)].
Proof.
  intros Hop Hsp Hdq Hk Hv. unfold strings.Split.
  assert (Hlen : exists n, String.length (comparison key op value) = S n).
  { unfold comparison. destruct key; rewrite ?sappend_cons, ?sappend_nil;
      cbn [String.length]; eauto. }
  destruct Hlen as [n ->]. cbn [strings.genSplit].
  rewrite (Index_comparison_op key op value Hop Hsp Hk).
  assert (Hcut : comparison key op value
                 = ((key ++ " ") ++ (op ++ String " " (quoted value)))%string).
  { unfold comparison. rewrite sappend_assoc. reflexivity. }
  assert (Hl : (String.length key + 1)%nat = String.length (key ++ " ")%string).
  { clear. induction key; rewrite ?sappend_cons, ?sappend_nil;
      cbn [String.length Nat.add]; [reflexivity|]. now rewrite <- IHkey. }
  rewrite Hl. rewrite Hcut at 1. rewrite stake_app. f_equal.
  rewrite sdrop_add. rewrite Hcut. rewrite sdrop_app, sdrop_app.
  destruct n; cbn [strings.genSplit]; [reflexivity|].
  rewrite (Index_quoted op value Hop Hsp Hdq Hv). reflexivity.
Qed.

(** A condition that holds [key other "value"] with another operator is
    not cut by [op]. *)
Lemma Split_comparison_other (key op other value : string) :
  op <> EmptyString ->
  strings.inCutset op " " = false ->
  strings.inCutset op dquote = false ->
  strings.Index key op = None ->
  strings.Index other op = None ->
  strings.Index value op = None ->
  strings.Split (comparison key other value) op = [comparison key other value].
Proof.
  intros Hop Hsp Hdq Hk Ho Hv. unfold strings.Split.
  assert (Hi : strings.Index (comparison key other value) op = None).
  { unfold comparison. rewrite (Index_guard op " " _ _ Hop Hsp), Hk.
    rewrite (Index_guard op " " _ _ Hop Hsp), Ho.
    unfold quoted.
    change (String dquote (value ++ String dquote EmptyString))
      with (EmptyString ++ String dquote (value ++ String dquote EmptyString))%string.
    rewrite (Index_guard op dquote _ _ Hop Hdq), (Index_empty op Hop).
    rewrite (Index_guard op dquote _ _ Hop Hdq), Hv, (Index_empty op Hop).
    reflexivity. }
  destruct (String.length (comparison key other value));
    cbn [strings.genSplit]; [reflexivity|]. rewrite Hi. reflexivity.
Qed.

Lemma Split_absent (s sep : string) :
  strings.Index s sep = None -> strings.Split s sep = [s].
Proof.
  intros Hi. unfold strings.Split.
  destruct (String.length s); cbn [strings.genSplit]; [reflexivity|].
  rewrite Hi. reflexivity.
Qed.

(** ** White space and quotes at the two ends *)

Lemma trimSpaceStart_graphic (c : ascii) (s : string) :
  graphic c = true -> strings.trimSpaceStart (String c s) = strings.Kept (String c s).
Proof.
  unfold graphic. intros H. apply andb_prop in H as [Ha Hs].
  cbn [strings.trimSpaceStart].
  destruct (utf8.RuneSelf <=? byteZ c) eqn:E; [lia|].
  apply negb_true_iff in Hs. rewrite Hs. reflexivity.
Qed.

Lemma trimSpaceStop_one (c : ascii) :
  graphic c = true ->
  strings.trimSpaceStop (String c EmptyString) = strings.Kept (String c EmptyString).
Proof.
  unfold graphic. intros H. apply andb_prop in H as [Ha Hs].
  cbn [strings.trimSpaceStop].
  destruct (utf8.RuneSelf <=? byteZ c) eqn:E; [lia|].
  apply negb_true_iff in Hs. rewrite Hs. reflexivity.
Qed.

Lemma trimSpaceStop_graphic (s : string) (l : ascii) :
  slast s = Some l -> graphic l = true ->
  strings.trimSpaceStop s = strings.Kept s.
Proof.
  intros Hl Hg. induction s as [|c s IH]; [discriminate|].
  destruct s as [|c' s'].
  - injection Hl as ->. apply trimSpaceStop_one, Hg.
  - change (slast (String c (String c' s'))) with (slast (String c' s')) in Hl.
    specialize (IH Hl).
    change (strings.trimSpaceStop (String c (String c' s')))
      with (match strings.trimSpaceStop (String c' s') with
            | strings.Kept EmptyString =>
              if utf8.RuneSelf <=? byteZ c then strings.Handover (String c EmptyString)
              else if strings.asciiSpace c then strings.Kept EmptyString
              else strings.Kept (String c EmptyString)
            | strings.Kept kept => strings.Kept (String c kept)
            | strings.Handover kept => strings.Handover (String c kept)
            end).
    rewrite IH. reflexivity.
Qed.

Lemma trimSpaceStop_space (s : string) (l : ascii) :
  slast s = Some l -> graphic l = true ->
  strings.trimSpaceStop (s ++ " ") = strings.Kept s.
Proof.
  intros Hl Hg. induction s as [|c s IH]; [discriminate|].
  destruct s as [|c' s'].
  - injection Hl as ->. rewrite sappend_cons, sappend_nil.
    unfold graphic in Hg. apply andb_prop in Hg as [Ha Hs].
    apply negb_true_iff in Hs.
    change (strings.trimSpaceStop (String l " "))
      with (if utf8.RuneSelf <=? byteZ l then strings.Handover (String l EmptyString)
            else if strings.asciiSpace l then strings.Kept EmptyString
            else strings.Kept (String l EmptyString)).
    destruct (utf8.RuneSelf <=? byteZ l) eqn:E; [lia|]. rewrite Hs. reflexivity.
  - change (slast (String c (String c' s'))) with (slast (String c' s')) in Hl.
    specialize (IH Hl).
    change (strings.trimSpaceStop (String c (String c' s') ++ " "))
      with (match strings.trimSpaceStop (String c' s' ++ " ") with
            | strings.Kept EmptyString =>
              if utf8.RuneSelf <=? byteZ c then strings.Handover (String c EmptyString)
              else if strings.asciiSpace c then strings.Kept EmptyString
              else strings.Kept (String c EmptyString)
            | strings.Kept kept => strings.Kept (String c kept)
            | strings.Handover kept => strings.Handover (String c kept)
            end).
    rewrite IH. reflexivity.
Qed.

Lemma TrimSpace_key (key : string) :
  tidyKey key = true -> strings.TrimSpace (key ++ " ") = key.
Proof.
  unfold tidyKey, bothEnds. destruct key as [|c k]; [reflexivity|].
  intros H. apply andb_prop in H as [Hc Hl].
  destruct (slast (String c k)) as [l|] eqn:El;
    [|exfalso; clear -El; revert c El; induction k; intros; simpl in El;
      [discriminate|eapply IHk; exact El]].
  unfold strings.TrimSpace.
  change (String c k ++ " ")%string with (String c (k ++ " ")).
  rewrite (trimSpaceStart_graphic c _ Hc).
  change (String c (k ++ " ")) with (String c k ++ " ")%string.
  rewrite (trimSpaceStop_space _ l El Hl). reflexivity.
Qed.

Lemma graphic_dquote : graphic dquote = true.
Proof. reflexivity. Qed.

Lemma TrimSpace_quoted (value : string) :
  strings.TrimSpace (String " " (quoted value)) = quoted value.
Proof.
  unfold strings.TrimSpace.
  change (strings.trimSpaceStart (String " " (quoted value)))
    with (strings.trimSpaceStart (quoted value)).
  unfold quoted at 1. rewrite (trimSpaceStart_graphic dquote _ graphic_dquote).
  fold (quoted value).
  rewrite (trimSpaceStop_graphic (quoted value) dquote); [reflexivity| |reflexivity].
  unfold quoted.
  change (String dquote (value ++ String dquote EmptyString))
    with ((String dquote value) ++ String dquote EmptyString)%string.
  apply slast_app_one.
Qed.

Lemma trimRightASCII_one (s cutset : string) (l q : ascii) :
  slast s = Some l -> strings.inCutset cutset l = false ->
  strings.inCutset cutset q = true ->
  strings.trimRightASCII (s ++ String q EmptyString) cutset = s.
Proof.
  intros Hl Hin Hq. induction s as [|c s IH]; [discriminate|].
  destruct s as [|c' s'].
  - injection Hl as ->. rewrite sappend_cons, sappend_nil.
    cbn [strings.trimRightASCII]. rewrite Hq, Hin. reflexivity.
  - change (slast (String c (String c' s'))) with (slast (String c' s')) in Hl.
    specialize (IH Hl).
    change (strings.trimRightASCII (String c (String c' s') ++ String q EmptyString) cutset)
      with (match strings.trimRightASCII (String c' s' ++ String q EmptyString) cutset with
            | EmptyString =>
              if strings.inCutset cutset c then EmptyString else String c EmptyString
            | kept => String c kept
            end).
    rewrite IH. reflexivity.
Qed.

Lemma Trim_quoted (value : string) :
  tidyValue value = true -> strings.Trim (quoted value) quotes = value.
Proof.
  unfold tidyValue, bothEnds. destruct value as [|c v]; [reflexivity|].
  intros H. apply andb_prop in H as [Hc Hl].
  destruct (slast (String c v)) as [l|] eqn:El;
    [|exfalso; clear -El; revert c El; induction v; intros; simpl in El;
      [discriminate|eapply IHv; exact El]].
  apply negb_true_iff in Hc, Hl.
  unfold strings.Trim, quoted.
  change (strings.trimRightASCII (String dquote (String c v ++ String dquote EmptyString)) quotes)
    with (match strings.trimRightASCII (String c v ++ String dquote EmptyString) quotes with
          | EmptyString =>
            if strings.inCutset quotes dquote then EmptyString else String dquote EmptyString
          | kept => String dquote kept
          end).
  rewrite (trimRightASCII_one (String c v) quotes l dquote El Hl eq_refl).
  cbn [strings.trimLeftASCII].
  change (strings.inCutset quotes dquote) with true. cbn iota.
  rewrite Hc. reflexivity.
Qed.


(* ================================================================== *)
(** * White space at the ends of a string *)
(* ================================================================== *)

Lemma sappend_nil_r (a : string) : (a ++ EmptyString)%string = a.
Proof.
  induction a as [|c a IH]; [apply sappend_nil|].
  rewrite sappend_cons, IH. reflexivity.
Qed.

Lemma slength_app (a b : string) :
  String.length (a ++ b) = (String.length a + String.length b)%nat.
Proof.
  induction a as [|c a IH]; rewrite ?sappend_cons, ?sappend_nil;
    cbn [String.length Nat.add]; [reflexivity|]. rewrite IH. reflexivity.
Qed.

Lemma length_stake_le (n : nat) (s : string) :
  (String.length (stake n s) <= String.length s)%nat.
Proof.
  revert n. induction s as [|c s IH]; intros [|n]; cbn [stake String.length]; try lia.
  specialize (IH n). lia.
Qed.

Lemma length_sdrop (n : nat) (s : string) :
  String.length (sdrop n s) = (String.length s - n)%nat.
Proof.
  revert n. induction s as [|c s IH]; intros [|n]; cbn [sdrop String.length]; try lia.
  apply IH.
Qed.

Lemma stake_app_le (n : nat) (s t : string) :
  (n <= String.length s)%nat -> stake n (s ++ t) = stake n s.
Proof.
  revert n. induction s as [|c s IH]; intros n H; cbn [String.length] in H.
  - replace n with O by lia. destruct t; reflexivity.
  - rewrite sappend_cons. destruct n as [|n]; [reflexivity|].
    cbn [stake]. rewrite IH by lia. reflexivity.
Qed.

Lemma sdrop_app_le (n : nat) (s t : string) :
  (n <= String.length s)%nat -> sdrop n (s ++ t) = (sdrop n s ++ t)%string.
Proof.
  revert n. induction s as [|c s IH]; intros n H; cbn [String.length] in H.
  - replace n with O by lia. reflexivity.
  - rewrite sappend_cons. destruct n as [|n]; [cbn [sdrop]; rewrite sappend_cons; reflexivity|].
    cbn [sdrop]. apply IH. lia.
Qed.

Lemma stake_full (s : string) : stake (String.length s) s = s.
Proof.
  induction s as [|c s IH]; cbn [stake String.length]; [reflexivity|].
  rewrite IH. reflexivity.
Qed.

Lemma get_app_lt (n : nat) (s t : string) :
  (n < String.length s)%nat -> String.get n (s ++ t) = String.get n s.
Proof.
  revert n. induction s as [|c s IH]; intros n H; cbn [String.length] in H; [lia|].
  rewrite sappend_cons. destruct n as [|n]; [reflexivity|].
  cbn [String.get]. apply IH. lia.
Qed.

Lemma get_app_end (s : string) (c : ascii) (t : string) :
  String.get (String.length s) (s ++ String c t) = Some c.
Proof.
  induction s as [|c0 s IH]; rewrite ?sappend_cons, ?sappend_nil; [reflexivity|].
  cbn [String.length String.get]. exact IH.
Qed.

Lemma get_lt (n : nat) (s : string) :
  (n < String.length s)%nat -> exists c, String.get n s = Some c.
Proof.
  revert n. induction s as [|c s IH]; intros n H; cbn [String.length] in H; [lia|].
  destruct n as [|n]; [exists c; reflexivity|]. cbn [String.get]. apply IH. lia.
Qed.

(** ** The decoder at the front of a string *)

Lemma first_SZ (b : Z) (sz : nat) (lo hi : Z) :
  utf8.first b = utf8.SZ sz lo hi ->
  (sz = 2 \/ sz = 3 \/ sz = 4)%nat /\ 128 <= lo.
Proof.
  unfold utf8.first.
  repeat match goal with
         | |- context [if ?b then _ else _] => destruct b
         end;
    intros H; try discriminate; injection H as <- <- <-; split; try lia; auto.
Qed.

Lemma Decode_width_pos (c : ascii) (s : string) :
  (1 <= (utf8.DecodeRuneInString (String c s)).2)%nat.
Proof.
  unfold utf8.DecodeRuneInString.
  repeat match goal with
         | |- context [match ?x with _ => _ end] => destruct x
         end; cbn [snd]; lia.
Qed.

Lemma Decode_width_le (s : string) :
  ((utf8.DecodeRuneInString s).2 <= String.length s)%nat.
Proof.
  unfold utf8.DecodeRuneInString.
  repeat match goal with
         | |- context [match ?x with _ => _ end] => destruct x
         end; cbn [snd String.length]; lia.
Qed.

(** A space behind a string does not change its first rune. *)
Lemma Decode_app_space (c0 : ascii) (t0 t : string) :
  utf8.DecodeRuneInString (String c0 t0 ++ String " " t)
  = utf8.DecodeRuneInString (String c0 t0).
Proof.
  rewrite sappend_cons. unfold utf8.DecodeRuneInString.
  destruct (utf8.first (byteZ c0)) as [| |sz lo hi] eqn:F; [reflexivity|reflexivity|].
  destruct (first_SZ _ _ _ _ F) as [Hsz Hlo].
  assert (Hsp : (byteZ " " <? lo) = true) by (apply Z.ltb_lt; change (byteZ " ") with 32; lia).
  assert (Hcb : (byteZ " " <? utf8.locb) = true) by reflexivity.
  destruct t0 as [|c1 [|c2 [|c3 t3]]];
    rewrite ?sappend_cons, ?sappend_nil; cbn [String.length];
    destruct Hsz as [-> | [-> | ->]];
    cbn [Nat.ltb Nat.leb]; rewrite ?Hsp, ?Hcb; cbn [orb];
    repeat match goal with
           | |- context [if ?b then _ else _] => destruct b
           end; reflexivity.
Qed.

(** ** The decoder at the end of a string *)

Lemma scanStart_lt (n : nat) (s : string) (start lim : nat) :
  utf8.scanStart n s start lim <= Z.of_nat start - 1.
Proof.
  revert start. induction n as [|n IH]; intros start; cbn [utf8.scanStart]; [lia|].
  destruct start as [|st]; [lia|].
  destruct (st <? lim)%nat; [lia|].
  destruct (String.get st s) as [c|]; [|lia].
  destruct (utf8.RuneStart (byteZ c)); [lia|]. specialize (IH st). lia.
Qed.

Lemma DecodeLast_width_pos (s : string) :
  s <> EmptyString -> (1 <= (utf8.DecodeLastRuneInString s).2)%nat.
Proof.
  intros Hs. unfold utf8.DecodeLastRuneInString.
  destruct (String.length s) as [|start] eqn:El.
  { destruct s; [congruence|discriminate]. }
  destruct (get_lt start s ltac:(lia)) as [c ->].
  destruct (byteZ c <? utf8.RuneSelf); [cbn; lia|].
  cbv zeta.
  pose proof (scanStart_lt utf8.UTFMax s start (S start - utf8.UTFMax)) as Hscan.
  set (scan := utf8.scanStart utf8.UTFMax s start (S start - utf8.UTFMax)) in *.
  set (st := if scan <? 0 then O else Z.to_nat scan).
  assert (Hst : (st < S start)%nat).
  { unfold st. destruct (Z.ltb_spec scan 0); lia. }
  destruct (utf8.DecodeRuneInString (slice st (S start) s)) as [r size].
  destruct (Nat.eqb_spec (st + size) (S start)); cbn [negb snd]; lia.
Qed.

Lemma DecodeLast_app_space (s : string) :
  utf8.DecodeLastRuneInString (s ++ " ") = (32, 1%nat).
Proof.
  unfold utf8.DecodeLastRuneInString.
  rewrite slength_app. cbn [String.length]. rewrite Nat.add_1_r.
  rewrite get_app_end. reflexivity.
Qed.

(** ** The two scans of [TrimFunc] *)

Lemma indexFunc_fuel_ge (fuel : nat) (s : string) (f : Z -> bool) (truth : bool)
    (i j : nat) :
  strings.indexFunc_fuel fuel s f truth i = Some j -> (i <= j)%nat.
Proof.
  revert s i. induction fuel as [|fuel IH]; intros s i; cbn [strings.indexFunc_fuel];
    [discriminate|].
  destruct s as [|c s]; [discriminate|].
  destruct (utf8.DecodeRuneInString (String c s)) as [r size].
  destruct (Bool.eqb (f r) truth); [intros [= <-]; lia|].
  intros H. apply IH in H. lia.
Qed.

Lemma lastIndexFunc_fuel_lt (fuel : nat) (s : string) (f : Z -> bool) (truth : bool)
    (i0 i : nat) :
  (i0 <= String.length s)%nat ->
  strings.lastIndexFunc_fuel fuel s f truth i0 = Some i -> (i < i0)%nat.
Proof.
  revert i0. induction fuel as [|fuel IH]; intros i0 Hle;
    cbn [strings.lastIndexFunc_fuel]; [discriminate|].
  destruct (Nat.eqb_spec i0 0) as [|Hne]; [discriminate|].
  assert (Hw : (1 <= (utf8.DecodeLastRuneInString (stake i0 s)).2)%nat).
  { apply DecodeLast_width_pos. intros E.
    destruct i0 as [|n]; [lia|]. destruct s; [cbn in Hle; lia|discriminate]. }
  destruct (utf8.DecodeLastRuneInString (stake i0 s)) as [r size]. cbn [snd] in Hw.
  cbv zeta. destruct (Bool.eqb (f r) truth); [intros [= <-]; lia|].
  intros H. apply IH in H; lia.
Qed.

Lemma lastIndexFunc_fuel_app (fuel : nat) (s t : string) (f : Z -> bool)
    (truth : bool) (i0 : nat) :
  (i0 <= String.length s)%nat ->
  strings.lastIndexFunc_fuel fuel (s ++ t) f truth i0
  = strings.lastIndexFunc_fuel fuel s f truth i0.
Proof.
  revert i0. induction fuel as [|fuel IH]; intros i0 Hle;
    cbn [strings.lastIndexFunc_fuel]; [reflexivity|].
  destruct (i0 =? 0)%nat; [reflexivity|].
  rewrite (stake_app_le i0 s t Hle).
  destruct (utf8.DecodeLastRuneInString (stake i0 s)) as [r size]. cbv zeta.
  destruct (Bool.eqb (f r) truth); [reflexivity|]. apply IH. lia.
Qed.

Lemma lastIndexFunc_app_space (s : string) :
  strings.lastIndexFunc (s ++ " ") unicode.IsSpace false
  = strings.lastIndexFunc s unicode.IsSpace false.
Proof.
  unfold strings.lastIndexFunc. rewrite slength_app. cbn [String.length].
  rewrite Nat.add_1_r. cbn [strings.lastIndexFunc_fuel Nat.eqb].
  replace (stake (S (String.length s)) (s ++ " ")) with (s ++ " ")%string.
  2:{ rewrite <- (stake_full (s ++ " ")) at 1. rewrite slength_app.
      cbn [String.length]. rewrite Nat.add_1_r. reflexivity. }
  rewrite DecodeLast_app_space. cbv zeta.
  change (Bool.eqb (unicode.IsSpace 32) false) with false. cbn iota.
  replace (S (String.length s) - 1)%nat with (String.length s) by lia.
  apply lastIndexFunc_fuel_app. lia.
Qed.

Lemma TrimLeftFunc_length (s : string) (f : Z -> bool) :
  (String.length (strings.TrimLeftFunc s f) <= String.length s)%nat.
Proof.
  unfold strings.TrimLeftFunc. destruct (strings.indexFunc s f false) as [i|].
  - rewrite length_sdrop. lia.
  - cbn. lia.
Qed.

Lemma TrimRightFunc_length (s : string) (f : Z -> bool) :
  (String.length (strings.TrimRightFunc s f) <= String.length s)%nat.
Proof.
  unfold strings.TrimRightFunc. destruct (strings.lastIndexFunc s f false) as [i|].
  - destruct (String.get i s) as [c|]; [destruct (_ <=? _)|]; apply length_stake_le.
  - cbn. lia.
Qed.

Lemma trimSpaceStart_length (s : string) :
  match strings.trimSpaceStart s with
  | strings.Handover rest | strings.Kept rest =>
    (String.length rest <= String.length s)%nat
  end.
Proof.
  induction s as [|c s IH]; cbn [strings.trimSpaceStart]; [cbn; lia|].
  destruct (utf8.RuneSelf <=? byteZ c); [lia|].
  destruct (strings.asciiSpace c); [|lia].
  destruct (strings.trimSpaceStart s); cbn [String.length]; lia.
Qed.

Lemma trimSpaceStop_length (s : string) :
  match strings.trimSpaceStop s with
  | strings.Handover rest | strings.Kept rest =>
    (String.length rest <= String.length s)%nat
  end.
Proof.
  induction s as [|c s IH]; cbn [strings.trimSpaceStop]; [cbn; lia|].
  destruct (strings.trimSpaceStop s) as [kept|[|k kept]]; cbn [String.length] in *;
    try lia.
  destruct (utf8.RuneSelf <=? byteZ c); [cbn; lia|].
  destruct (strings.asciiSpace c); cbn; lia.
Qed.

Lemma TrimSpace_length (s : string) :
  (String.length (strings.TrimSpace s) <= String.length s)%nat.
Proof.
  unfold strings.TrimSpace.
  pose proof (trimSpaceStart_length s) as H1.
  destruct (strings.trimSpaceStart s) as [rest|rest].
  - unfold strings.TrimFunc.
    pose proof (TrimRightFunc_length (strings.TrimLeftFunc rest unicode.IsSpace)
                  unicode.IsSpace).
    pose proof (TrimLeftFunc_length rest unicode.IsSpace). lia.
  - pose proof (trimSpaceStop_length rest) as H2.
    destruct (strings.trimSpaceStop rest) as [kept|kept]; [|lia].
    pose proof (TrimRightFunc_length kept unicode.IsSpace). lia.
Qed.

Lemma trimSpaceStop_app_space (s : string) :
  strings.trimSpaceStop (s ++ " ") = strings.trimSpaceStop s.
Proof.
  induction s as [|c s IH]; [reflexivity|].
  rewrite sappend_cons. cbn [strings.trimSpaceStop]. rewrite IH. reflexivity.
Qed.

(** A string that [TrimFunc] leaves alone is left alone by its two
    halves. *)
Lemma TrimFunc_fixed (c : ascii) (k : string) (f : Z -> bool) :
  strings.TrimFunc (String c k) f = String c k ->
  strings.indexFunc (String c k) f false = Some O
  /\ strings.TrimRightFunc (String c k) f = String c k.
Proof.
  unfold strings.TrimFunc. intros H.
  assert (Hl : strings.TrimLeftFunc (String c k) f = String c k).
  { pose proof (TrimRightFunc_length (strings.TrimLeftFunc (String c k) f) f) as H1.
    rewrite H in H1. unfold strings.TrimLeftFunc in *.
    destruct (strings.indexFunc (String c k) f false) as [i|]; [|cbn in H1; lia].
    rewrite length_sdrop in H1. cbn [String.length] in H1.
    replace i with O by lia. reflexivity. }
  rewrite Hl in H. split; [|exact H].
  unfold strings.TrimLeftFunc in Hl.
  destruct (strings.indexFunc (String c k) f false) as [i|]; [|discriminate].
  apply (f_equal String.length) in Hl. rewrite length_sdrop in Hl.
  cbn [String.length] in Hl. f_equal. lia.
Qed.

Lemma TrimFunc_app_space (c : ascii) (k : string) :
  strings.TrimFunc (String c k) unicode.IsSpace = String c k ->
  strings.TrimFunc (String c k ++ " ") unicode.IsSpace = String c k.
Proof.
  intros H. destruct (TrimFunc_fixed c k _ H) as [Hi Hr].
  unfold strings.TrimFunc.
  assert (Hl : strings.TrimLeftFunc (String c k ++ " ") unicode.IsSpace
               = (String c k ++ " ")%string).
  { unfold strings.TrimLeftFunc, strings.indexFunc in *.
    rewrite slength_app. cbn [String.length Nat.add] in *.
    cbn [strings.indexFunc_fuel] in *. rewrite sappend_cons in *.
    change (String c (k ++ " "))%string with (String c k ++ String " " EmptyString)%string.
    rewrite Decode_app_space.
    pose proof (Decode_width_pos c k) as Hw.
    destruct (utf8.DecodeRuneInString (String c k)) as [r size]. cbn [snd] in Hw.
    destruct (Bool.eqb (unicode.IsSpace r) false); [reflexivity|].
    apply indexFunc_fuel_ge in Hi. lia. }
  rewrite Hl. clear Hl Hi H.
  unfold strings.TrimRightFunc in *. rewrite lastIndexFunc_app_space.
  destruct (strings.lastIndexFunc (String c k) unicode.IsSpace false) as [i|] eqn:Ei;
    [|discriminate].
  assert (Hlt : (i < String.length (String c k))%nat).
  { unfold strings.lastIndexFunc in Ei. apply lastIndexFunc_fuel_lt in Ei; lia. }
  rewrite (get_app_lt i _ _ Hlt).
  destruct (get_lt i _ Hlt) as [ci Hci]. rewrite Hci in *.
  destruct (utf8.RuneSelf <=? byteZ ci).
  - rewrite (sdrop_app_le i (String c k) " ") by lia.
    assert (Hne : exists d t, sdrop i (String c k) = String d t).
    { pose proof (length_sdrop i (String c k)) as Hlen.
      destruct (sdrop i (String c k)) as [|d t]; [cbn [String.length] in Hlen, Hlt; lia|].
      eauto. }
    destruct Hne as (d & t & Hd). rewrite Hd in *. rewrite Decode_app_space.
    pose proof (Decode_width_le (String d t)) as Hw.
    rewrite <- Hd in Hw at 2. rewrite length_sdrop in Hw.
    rewrite stake_app_le by lia. exact Hr.
  - rewrite stake_app_le by lia. exact Hr.
Qed.

(** A string without white space at its ends is what [TrimSpace] leaves
    of it and a space. *)
Lemma TrimSpace_trimmed (key : string) :
  strings.TrimSpace key = key -> strings.TrimSpace (key ++ " ") = key.
Proof.
  destruct key as [|c k]; [reflexivity|]. intros H.
  unfold strings.TrimSpace in *. rewrite sappend_cons.
  cbn [strings.trimSpaceStart] in *.
  destruct (utf8.RuneSelf <=? byteZ c).
  - change (String c (k ++ " "))%string with (String c k ++ " ")%string.
    apply TrimFunc_app_space, H.
  - destruct (strings.asciiSpace c).
    + exfalso. pose proof (TrimSpace_length k) as Hlen.
      unfold strings.TrimSpace in Hlen. rewrite H in Hlen.
      cbn [String.length] in Hlen. lia.
    + change (String c (k ++ " "))%string with (String c k ++ " ")%string.
      rewrite trimSpaceStop_app_space. exact H.
Qed.


(* ================================================================== *)
(** * The condition evaluators *)
(* ================================================================== *)

Lemma simpleEvaluate_engine (e e' : FlowEngine.t) (conv : Conversation.t)
    (condition : string) :
  simpleEvaluate e conv condition = simpleEvaluate e' conv condition.
Proof. reflexivity. Qed.

Lemma firstBranch_engine (e e' : FlowEngine.t) (conv : Conversation.t)
    (input : string) (branches : list BranchConfig.t) (nextStep : string) :
  firstBranch e conv input branches nextStep
  = firstBranch e' conv input branches nextStep.
Proof.
  induction branches as [|b rest IH]; [reflexivity|].
  cbn [firstBranch]. rewrite IH. reflexivity.
Qed.

(** The registered evaluator has no influence on [DetermineNextStep]. *)
Lemma DetermineNextStep_evaluator_irrelevant
    (cfg : option Config.t) (handlers : gmap string StepHandler)
    (vals : gmap string Validator) (ce ce' : option ConditionEvaluator)
    (conv : Conversation.t) (input : string) :
  DetermineNextStep (FlowEngine.mk cfg handlers vals ce) conv input
  = DetermineNextStep (FlowEngine.mk cfg handlers vals ce') conv input.
Proof.
  unfold DetermineNextStep, GetStep, GetFlow. cbn [FlowEngine.config].
  destruct cfg as [c|]; [|reflexivity].
  destruct (Config.GetFlow c (Conversation.FlowID conv)); [|reflexivity].
  destruct (FlowConfig.GetStep t (Conversation.StepID conv)); [|reflexivity].
  apply firstBranch_engine.
Qed.

(** C2: with an evaluator registered that rejects every condition,
    [EvaluateCondition] rejects the condition [custom:vip], yet
    [DetermineNextStep] takes the branch guarded by it: the branch
    conditions go to the built-in evaluator, never to the registered one. *)
Theorem DetermineNextStep_bypasses_conditionEvaluator :
  EvaluateCondition customEngine sampleConversation "custom:vip" = false
  /\ DetermineNextStep customEngine sampleConversation "hello" = "s2"
  /\ GetStep customEngine "f" "s"
     = Some (sampleStep None [BranchConfig.mk "custom:vip" "s2" EmptyString] "s3").
Proof. repeat split; reflexivity. Qed.

(** C7, as the claim has it, fails: the condition [x != "a==b"] on a
    session that stores [zzz] under [x] is cut at the [==] inside the
    literal and evaluates to false, although [zzz] differs from [a==b];
    and the condition [count == 5], which is neither of the two quoted
    forms, does not evaluate to true. The same cut makes [x == "a==b"]
    and [a==b == "v"] true although the strings differ, and
    [x != "a!=b"] true on a session that stores [a!=b] under [x], and
    [a!=b != "v"] true on a session that stores [v] under [a!=b]; a value
    between further quotes is compared without them, and a key with
    white space at its end is looked up without it. *)
Lemma simpleEvaluate_counterexample :
  simpleEvaluate customEngine sampleData ("x != " ++ quoted "a==b") = false
  /\ negb (String.eqb (Conversation.GetString sampleData "x") "a==b") = true
  /\ simpleEvaluate customEngine sampleData "count == 5" = false
  /\ (simpleEvaluate customEngine sampleData ("x == " ++ quoted "a==b") = true
      /\ String.eqb (Conversation.GetString sampleData "x") "a==b" = false)
  /\ (simpleEvaluate customEngine sampleData ("a==b == " ++ quoted "v") = true
      /\ String.eqb (Conversation.GetString sampleData "a==b") "v" = false)
  /\ (simpleEvaluate customEngine
        (Conversation.with_Data {[ "x" := VString "a!=b" ]} sampleConversation)
        ("x != " ++ quoted "a!=b") = true
      /\ negb (String.eqb
                 (Conversation.GetString
                    (Conversation.with_Data {[ "x" := VString "a!=b" ]} sampleConversation)
                    "x") "a!=b") = false)
  /\ (simpleEvaluate customEngine
        (Conversation.with_Data {[ "a!=b" := VString "v" ]} sampleConversation)
        ("a!=b != " ++ quoted "v") = true
      /\ negb (String.eqb
                 (Conversation.GetString
                    (Conversation.with_Data {[ "a!=b" := VString "v" ]} sampleConversation)
                    "a!=b") "v") = false)
  /\ (simpleEvaluate customEngine sampleData ("x == " ++ quoted "'zzz'") = true
      /\ String.eqb (Conversation.GetString sampleData "x") "'zzz'" = false)
  /\ (simpleEvaluate customEngine sampleData ("x " ++ " == " ++ quoted "zzz") = true
      /\ String.eqb (Conversation.GetString sampleData "x ") "zzz" = false).
Proof. repeat split; vm_compute; reflexivity. Qed.

Lemma twoParts_None (parts : list string) :
  length parts <> 2%nat -> twoParts parts = None.
Proof.
  destruct parts as [|a [|b [|c rest]]]; cbn [twoParts length]; intros H;
    try reflexivity. exfalso. apply H. reflexivity.
Qed.

(** A key that starts and ends with a byte of ASCII that is not white
    space has no white space at its ends. *)
Lemma tidyKey_trimmed (key : string) :
  tidyKey key = true -> strings.TrimSpace key = key.
Proof.
  unfold tidyKey, bothEnds. destruct key as [|c k]; [reflexivity|].
  intros H. apply andb_prop in H as [Hc Hl].
  destruct (slast (String c k)) as [l|] eqn:El;
    [|exfalso; clear -El; revert c El; induction k; intros; simpl in El;
      [discriminate|eapply IHk; exact El]].
  unfold strings.TrimSpace. rewrite (trimSpaceStart_graphic c _ Hc).
  rewrite (trimSpaceStop_graphic _ l El Hl). reflexivity.
Qed.

(** C7, amended: the built-in evaluator returns true for the empty
    condition and for every condition that neither [==] nor [!=] cuts
    into exactly two pieces, so for every condition in which neither
    operator occurs. For a key without white space at its ends and a
    value without a quote character at its ends, it decides
    [key == "value"] by string equality when [==] occurs in neither of
    them, and [key != "value"] by string inequality when [!=] occurs in
    neither of them and [==] does not cut the condition in two, so when
    [==] occurs in neither; the strings compared are the value and the
    string stored under the key, after a leading [data.] of the key is
    removed, and a stored value that is not a string reads as the empty
    string. *)
Theorem simpleEvaluate_forms
    (e : FlowEngine.t) (conv : Conversation.t) (key value other : string) :
  strings.TrimSpace key = key ->
  tidyValue value = true ->
  simpleEvaluate e conv EmptyString = true
  /\ (strings.Index key "==" = None ->
      strings.Index value "==" = None ->
      simpleEvaluate e conv (key ++ " == " ++ quoted value)
      = String.eqb (Conversation.GetString conv (strings.TrimPrefix key "data.")) value)
  /\ (strings.Index key "!=" = None ->
      strings.Index value "!=" = None ->
      length (strings.Split (key ++ " != " ++ quoted value) "==") <> 2%nat ->
      simpleEvaluate e conv (key ++ " != " ++ quoted value)
      = negb (String.eqb (Conversation.GetString conv (strings.TrimPrefix key "data."))
                         value))
  /\ (strings.Index key "==" = None ->
      strings.Index value "==" = None ->
      length (strings.Split (key ++ " != " ++ quoted value) "==") = 1%nat)
  /\ (length (strings.Split other "==") <> 2%nat ->
      length (strings.Split other "!=") <> 2%nat ->
      simpleEvaluate e conv other = true)
  /\ (strings.Index other "==" = None ->
      strings.Index other "!=" = None ->
      simpleEvaluate e conv other = true)
  /\ (forall k, (forall s, Conversation.Get conv k <> Some (VString s)) ->
                Conversation.GetString conv k = EmptyString).
Proof.
  intros Hkey Hvalue.
  pose proof (TrimSpace_trimmed key Hkey) as Htrim.
  split; [reflexivity|]. split; [|split; [|split; [|split; [|split]]]].
  - intros Hk1 Hv1.
    change (key ++ " == " ++ quoted value)%string with (comparison key "==" value).
    unfold simpleEvaluate.
    rewrite (Split_comparison key "==" value ltac:(discriminate) eq_refl eq_refl Hk1 Hv1).
    cbn [twoParts]. rewrite Htrim, TrimSpace_quoted.
    rewrite (Trim_quoted value Hvalue). reflexivity.
  - intros Hk2 Hv2 Hcut.
    change (key ++ " != " ++ quoted value)%string with (comparison key "!=" value) in *.
    unfold simpleEvaluate. rewrite (twoParts_None _ Hcut).
    rewrite (Split_comparison key "!=" value ltac:(discriminate) eq_refl eq_refl Hk2 Hv2).
    cbn [twoParts]. rewrite Htrim, TrimSpace_quoted.
    rewrite (Trim_quoted value Hvalue). reflexivity.
  - intros Hk1 Hv1.
    change (key ++ " != " ++ quoted value)%string with (comparison key "!=" value).
    rewrite (Split_comparison_other key "==" "!=" value ltac:(discriminate)
               eq_refl eq_refl Hk1 eq_refl Hv1).
    reflexivity.
  - intros H1 H2. unfold simpleEvaluate.
    rewrite (twoParts_None _ H1), (twoParts_None _ H2). reflexivity.
  - intros Ho1 Ho2. unfold simpleEvaluate.
    rewrite (Split_absent other "==" Ho1), (Split_absent other "!=" Ho2).
    reflexivity.
  - intros k Hk. unfold Conversation.GetString.
    destruct (Conversation.Get conv k) as [[s| | | |]|] eqn:E; try reflexivity.
    exfalso. exact (Hk s eq_refl).
Qed.

Lemma simpleEvaluate_forms_witness :
  simpleEvaluate customEngine sampleData ("data.x" ++ " == " ++ quoted "zzz") = true
  /\ simpleEvaluate customEngine sampleData ("data.x" ++ " != " ++ quoted "zzz") = false
  /\ simpleEvaluate customEngine sampleData "count > 5" = true
  /\ simpleEvaluate customEngine sampleAccent
       (utf8.EncodeRune 0xE9 ++ " == " ++ quoted "a!=b") = true.
Proof.
  pose proof (simpleEvaluate_forms customEngine sampleData "data.x" "zzz" "count > 5"
                eq_refl eq_refl)
    as (_ & Heq & Hne & Hcut & _ & Hother & _).
  pose proof (simpleEvaluate_forms customEngine sampleAccent (utf8.EncodeRune 0xE9)
                "a!=b" "count > 5" eq_refl eq_refl)
    as (_ & Heq' & _).
  split; [|split; [|split]].
  - rewrite (Heq eq_refl eq_refl). reflexivity.
  - rewrite (Hne eq_refl eq_refl); [reflexivity|].
    rewrite (Hcut eq_refl eq_refl). discriminate.
  - exact (Hother eq_refl eq_refl).
  - rewrite (Heq' eq_refl eq_refl). reflexivity.
Defined.


(* ================================================================== *)
(** * The session store *)
(* ================================================================== *)

Lemma End_stored (w : World) (userID chatID : Z) (conv : loc) :
  index w !! conversationKey userID chatID = Some conv ->
  End userID chatID w = (tt, ended (conversationKey userID chatID) conv w).
Proof.
  intros H. unfold End, bind, getManager, mapLookup. rewrite H.
  unfold mapDelete, when, emit, ret, ended.
  destruct (Manager.onEnd (manager w)) eqn:E; cbn; rewrite ?E.
  - rewrite <- app_assoc. reflexivity.
  - reflexivity.
Qed.

Lemma End_absent (w : World) (userID chatID : Z) :
  index w !! conversationKey userID chatID = None ->
  End userID chatID w = (tt, w).
Proof.
  intros H. unfold End, bind, getManager, mapLookup. rewrite H. reflexivity.
Qed.

Lemma Get_absent (w : World) (userID chatID : Z) :
  index w !! conversationKey userID chatID = None ->
  Get userID chatID w = (None, w).
Proof.
  intros H. unfold Get, bind, mapLookup. rewrite H. reflexivity.
Qed.

Lemma Get_stored (w : World) (userID chatID : Z) (conv : loc) :
  index w !! conversationKey userID chatID = Some conv ->
  Get userID chatID w
  = if Conversation.expiredAt (clock w (tick w)) (heap w conv)
    then (None, ended (conversationKey userID chatID) conv (ticked w))
    else (Some conv, ticked w).
Proof.
  intros H. unfold Get, bind at 1, mapLookup. rewrite H.
  unfold conv_IsExpired, bind, now, load, ret. cbn [heap].
  fold (ticked w).
  destruct (Conversation.expiredAt (clock w (tick w)) (heap w conv)); [|reflexivity].
  rewrite (End_stored (ticked w) userID chatID conv H). reflexivity.
Qed.

Lemma Get_repeated_absent (n : nat) (w : World) (userID chatID : Z) :
  index w !! conversationKey userID chatID = None ->
  Get_repeated n userID chatID w = (repeat None n, w).
Proof.
  intros H. induction n as [|n IH]; [reflexivity|].
  cbn [Get_repeated]. rewrite (Get_absent w userID chatID H), IH. reflexivity.
Qed.

Lemma endHookCalls_app (conv : loc) (a b : list Event) :
  endHookCalls conv (a ++ b) = (endHookCalls conv a + endHookCalls conv b)%nat.
Proof. unfold endHookCalls. rewrite filter_app, length_app. reflexivity. Qed.

Lemma endHookCalls_hit (conv : loc) : endHookCalls conv [EvOnEnd conv] = 1%nat.
Proof. unfold endHookCalls. rewrite filter_cons_True by reflexivity. reflexivity. Qed.

Lemma endHookCalls_miss (conv : loc) (ev : Event) :
  ev <> EvOnEnd conv -> endHookCalls conv [ev] = 0%nat.
Proof.
  intros H. unfold endHookCalls. rewrite filter_cons_False by exact H. reflexivity.
Qed.

(** ** The sweep *)

Lemma Cleanup_loop_cons (key : string) (conv : loc) (rest : list (string * loc))
    (count : Z) (w : World) :
  Cleanup_loop ((key, conv) :: rest) count w
  = if Conversation.expiredAt (clock w (tick w)) (heap w conv)
    then Cleanup_loop rest (count + 1) (swept key conv (ticked w))
    else Cleanup_loop rest count (ticked w).
Proof.
  cbn [Cleanup_loop].
  unfold conv_IsExpired, getManager, now, load, ret, bind. cbn [heap].
  fold (ticked w).
  destruct (Conversation.expiredAt (clock w (tick w)) (heap w conv)); [|reflexivity].
  unfold when, emit, mapDelete, ret, swept.
  destruct (Manager.onEnd (manager w)) eqn:E; cbn; rewrite ?E;
    rewrite <- ?app_assoc; reflexivity.
Qed.

Lemma Cleanup_loop_spec (t : Z) (entries : list (string * loc)) :
  forall (w : World) (count : Z),
  (forall n, (tick w <= n)%nat -> clock w n = t) ->
  (Cleanup_loop entries count w).1
  = count + Z.of_nat (length (filter (fun en => expiredEntry (heap w) t en = true) entries))
  /\ heap (Cleanup_loop entries count w).2 = heap w
  /\ (forall key,
        index (Cleanup_loop entries count w).2 !! key
        = if decide (Exists (fun en => en.1 = key /\ expiredEntry (heap w) t en = true)
                            entries)
          then None else index w !! key)
  /\ (forall conv,
        endHookCalls conv (trace (Cleanup_loop entries count w).2)
        = (endHookCalls conv (trace w)
           + if Manager.onEnd (manager w)
             then length (filter (fun en => en.2 = conv /\ expiredEntry (heap w) t en = true)
                                 entries)
             else 0)%nat).
Proof.
  induction entries as [|[key conv] rest IH]; intros w count Hclock.
  - cbn [Cleanup_loop]. unfold ret. cbn [fst snd].
    split; [cbn; lia|]. split; [reflexivity|]. split.
    + intros key. case_decide as Hd; [|reflexivity]. inversion Hd.
    + intros conv. destruct (Manager.onEnd (manager w)); cbn; lia.
  - rewrite Cleanup_loop_cons. rewrite (Hclock (tick w) (le_n _)).
    assert (Hclock' : forall n, (tick (ticked w) <= n)%nat -> clock (ticked w) n = t).
    { intros n Hn. cbn in *. apply Hclock. lia. }
    destruct (Conversation.expiredAt t (heap w conv)) eqn:Hexp.
    + (* expired: hook, delete, continue *)
      destruct (IH (swept key conv (ticked w)) (count + 1) Hclock')
        as (Hcount & Hh & Hlook & Hhook).
      cbn [swept ticked heap manager trace Manager.with_conversations
           Manager.conversations Manager.onEnd] in Hcount, Hh, Hlook, Hhook.
      split; [rewrite Hcount, filter_cons_True by exact Hexp; cbn [length]; lia|].
      split; [exact Hh|]. split.
      * intros k. rewrite Hlook.
        destruct (decide (k = key)) as [->|Hne].
        -- rewrite (decide_True (P := Exists _ (_ :: _))).
           2:{ apply Exists_cons_hd. split; [reflexivity|exact Hexp]. }
           case_decide; [reflexivity|apply lookup_delete_eq].
        -- rewrite lookup_delete_ne by congruence.
           apply decide_ext. rewrite Exists_cons. split.
           ++ intros Hex. right. exact Hex.
           ++ intros [[Heq _]|Hex]; [cbn in Heq; congruence|exact Hex].
      * intros c. rewrite Hhook. rewrite !endHookCalls_app.
        destruct (Manager.onEnd (manager w)).
        -- rewrite (endHookCalls_miss c (EvMapDelete key)) by discriminate.
           destruct (decide (conv = c)) as [->|Hne].
           ++ rewrite endHookCalls_hit.
              rewrite (filter_cons_True _ (key, c)) by (split; [reflexivity|exact Hexp]).
              cbn [length]. lia.
           ++ rewrite (endHookCalls_miss c (EvOnEnd conv))
                by (intros Heq; injection Heq; exact Hne).
              rewrite (filter_cons_False _ (key, conv))
                by (intros [Heq _]; cbn in Heq; exact (Hne Heq)).
              lia.
        -- rewrite (endHookCalls_miss c (EvMapDelete key)) by discriminate.
           change (endHookCalls c []) with 0%nat. lia.
    + (* not expired: continue *)
      destruct (IH (ticked w) count Hclock') as (Hcount & Hh & Hlook & Hhook).
      cbn [ticked heap manager trace] in Hcount, Hh, Hlook, Hhook.
      assert (Hnot : ¬ expiredEntry (heap w) t (key, conv) = true).
      { unfold expiredEntry. cbn [snd]. congruence. }
      split; [rewrite Hcount, filter_cons_False by exact Hnot; reflexivity|].
      split; [exact Hh|]. split.
      * intros k. rewrite Hlook.
        apply decide_ext. rewrite Exists_cons. split.
        -- intros Hex. right. exact Hex.
        -- intros [[_ He]|Hex]; [|exact Hex].
           unfold expiredEntry in He. cbn in He. congruence.
      * intros c. rewrite Hhook.
        rewrite (filter_cons_False _ (key, conv)) by (intros [_ He]; exact (Hnot He)).
        reflexivity.
Qed.



Lemma Cleanup_spec (w : World) (t : Z) :
  (forall n, (tick w <= n)%nat -> clock w n = t) ->
  forall key,
    index (Cleanup w).2 !! key
    = match index w !! key with
      | Some conv => if Conversation.expiredAt t (heap w conv) then None else Some conv
      | None => None
      end.
Proof.
  intros Hclock key. unfold Cleanup, bind, getManager.
  destruct (Cleanup_loop_spec t (map_to_list (index w)) w 0 Hclock)
    as (_ & _ & Hlook & _).
  rewrite Hlook. case_decide as Hex.
  - apply Exists_exists in Hex as ([k conv] & Hin & Hk & He).
    cbn in Hk. subst k. apply elem_of_map_to_list in Hin. rewrite Hin.
    unfold expiredEntry in He. cbn in He. rewrite He. reflexivity.
  - destruct (index w !! key) as [conv|] eqn:E; [|reflexivity].
    destruct (Conversation.expiredAt t (heap w conv)) eqn:He; [|reflexivity].
    exfalso. apply Hex. apply Exists_exists. exists (key, conv).
    split; [apply elem_of_map_to_list; exact E|]. split; [reflexivity|exact He].
Qed.

(** C3: a stored session whose [ExpiresAt] lies before the reading of the
    clock makes [Get] return nothing and remove it from the index, and
    the end hook, when one is set, is called on it once; further calls
    of [Get] return nothing and call no hook. [Get] and [Cleanup] decide
    by the same test, that the clock shows more than [ExpiresAt]. *)
Theorem Get_expired_session (w : World) (userID chatID : Z) (conv : loc) :
  index w !! conversationKey userID chatID = Some conv ->
  Conversation.ExpiresAt (heap w conv) < clock w (tick w) ->
  (Get userID chatID w).1 = None
  /\ index (Get userID chatID w).2 !! conversationKey userID chatID = None
  /\ trace (Get userID chatID w).2
     = trace w ++ EvMapDelete (conversationKey userID chatID)
               :: (if Manager.onEnd (manager w) then [EvOnEnd conv] else [])
  /\ (forall n,
        (Get_repeated (S n) userID chatID w).1 = repeat None (S n)
        /\ endHookCalls conv (trace (Get_repeated (S n) userID chatID w).2)
           = (endHookCalls conv (trace w)
              + if Manager.onEnd (manager w) then 1 else 0)%nat)
  /\ (forall now c, Conversation.expiredAt now c = true <-> Conversation.ExpiresAt c < now)
  /\ (forall w0 u ch c0,
        index w0 !! conversationKey u ch = Some c0 ->
        (Get u ch w0).1
        = if Conversation.expiredAt (clock w0 (tick w0)) (heap w0 c0)
          then None else Some c0)
  /\ (forall w0 t,
        (forall n, (tick w0 <= n)%nat -> clock w0 n = t) ->
        forall key,
          index (Cleanup w0).2 !! key
          = match index w0 !! key with
            | Some c0 => if Conversation.expiredAt t (heap w0 c0) then None else Some c0
            | None => None
            end).
Proof.
  intros Hstored Hexp.
  assert (He : Conversation.expiredAt (clock w (tick w)) (heap w conv) = true).
  { unfold Conversation.expiredAt. apply Z.ltb_lt. exact Hexp. }
  pose proof (Get_stored w userID chatID conv Hstored) as Hget. rewrite He in Hget.
  assert (Hgone : index (ended (conversationKey userID chatID) conv (ticked w))
                  !! conversationKey userID chatID = None).
  { cbn. apply lookup_delete_eq. }
  split; [rewrite Hget; reflexivity|].
  split; [rewrite Hget; exact Hgone|].
  split; [rewrite Hget; reflexivity|].
  split; [|split; [|split]].
  - intros n. cbn [Get_repeated]. rewrite Hget.
    rewrite (Get_repeated_absent n _ userID chatID Hgone). cbn [fst snd].
    split; [reflexivity|].
    cbn [ended trace ticked manager].
    change (trace w ++ EvMapDelete (conversationKey userID chatID)
                    :: (if Manager.onEnd (manager w) then [EvOnEnd conv] else []))
      with (trace w ++ [EvMapDelete (conversationKey userID chatID)]
                    ++ (if Manager.onEnd (manager w) then [EvOnEnd conv] else [])).
    rewrite !endHookCalls_app.
    rewrite (endHookCalls_miss conv (EvMapDelete _)) by discriminate.
    destruct (Manager.onEnd (manager w)); [rewrite endHookCalls_hit|]; reflexivity.
  - intros now c. unfold Conversation.expiredAt. apply Z.ltb_lt.
  - intros w0 u ch c0 H0. rewrite (Get_stored w0 u ch c0 H0).
    destruct (Conversation.expiredAt (clock w0 (tick w0)) (heap w0 c0)); reflexivity.
  - intros w0 t Hclock key. apply Cleanup_spec. exact Hclock.
Qed.

(** C4: [Start] on a key that holds a session calls the end hook on the
    old session before it stores the new one under the key, where alone
    [Get] can find it; the new session has the given flow and initial
    step, and expires after the default TTL of the manager when the
    [ttl] given is not positive. *)
Theorem Start_replaces_session
    (w : World) (userID chatID topicID : Z) (flowID initialStep : string)
    (ttl : Z) (old : loc) :
  index w !! conversationKey userID chatID = Some old ->
  Manager.onEnd (manager w) = true ->
  let r := Start userID chatID topicID flowID initialStep ttl w in
  trace r.2
  = trace w ++ [EvOnEnd old; EvMapStore (conversationKey userID chatID) r.1]
            ++ (if Manager.onStart (manager w) then [EvOnStart r.1] else [])
  /\ index r.2 !! conversationKey userID chatID = Some r.1
  /\ r.1 = nextLoc w
  /\ Conversation.FlowID (heap r.2 r.1) = flowID
  /\ Conversation.StepID (heap r.2 r.1) = initialStep
  /\ Conversation.ExpiresAt (heap r.2 r.1)
     = clock w (tick w) + (if ttl <=? 0 then Manager.defaultTTL (manager w) else ttl)
  /\ (Get userID chatID r.2).1
     = (if Conversation.expiredAt (clock w (S (tick w))) (heap r.2 r.1)
        then None else Some r.1).
Proof.
  intros Hstored HonEnd r.
  assert (Hr : r = (nextLoc w,
    mkWorld (fun l => if decide (l = nextLoc w)
                      then Conversation.New (clock w (tick w)) userID chatID topicID
                             flowID initialStep
                             (if ttl <=? 0 then Manager.defaultTTL (manager w) else ttl)
                      else heap w l)
            (S (nextLoc w))
            (Manager.with_conversations
               (<[conversationKey userID chatID := nextLoc w]> (index w)) (manager w))
            (clock w) (S (tick w))
            (trace w ++ [EvOnEnd old; EvMapStore (conversationKey userID chatID) (nextLoc w)]
                     ++ (if Manager.onStart (manager w) then [EvOnStart (nextLoc w)] else [])))).
  { unfold r, Start, NewConversation, getManager, mapLookup, bind.
    rewrite Hstored, HonEnd.
    unfold when, emit, now, alloc, mapStore, ret.
    destruct (Manager.onStart (manager w)) eqn:E; cbn; rewrite ?E;
      rewrite <- ?app_assoc; reflexivity. }
  rewrite Hr. cbn [fst snd trace manager heap Manager.with_conversations
                   Manager.conversations].
  split; [reflexivity|]. split; [apply lookup_insert_eq|]. split; [reflexivity|].
  rewrite decide_True by reflexivity.
  split; [reflexivity|]. split; [reflexivity|]. split; [reflexivity|].
  rewrite (Get_stored _ userID chatID (nextLoc w)) by apply lookup_insert_eq.
  cbn [clock tick heap]. rewrite decide_True by reflexivity.
  match goal with |- (if ?b then _ else _).1 = _ => destruct b; reflexivity end.
Qed.

Lemma Get_expired_session_witness :
  index expiredWorld !! conversationKey 1 2 = Some 0%nat
  /\ (Get 1 2 expiredWorld).1 = None.
Proof.
  split; [reflexivity|].
  apply (Get_expired_session expiredWorld 1 2 0%nat); [reflexivity|].
  vm_compute. reflexivity.
Defined.

Lemma Start_replaces_session_witness :
  Manager.onEnd (manager liveWorld) = true
  /\ trace (Start 1 2 0 "f" "s" 0 liveWorld).2
     = trace liveWorld
       ++ [EvOnEnd 0%nat;
           EvMapStore (conversationKey 1 2) (Start 1 2 0 "f" "s" 0 liveWorld).1]
       ++ [EvOnStart (Start 1 2 0 "f" "s" 0 liveWorld).1].
Proof.
  split; [reflexivity|].
  apply (Start_replaces_session liveWorld 1 2 0 "f" "s" 0 0%nat); reflexivity.
Defined.

(** C1: two users of one group chat, with identifiers of the size the
    platform hands out, get the same key: both identifiers are beyond the
    range of a rune and are written as the replacement character. The
    second [Start] therefore ends the session of the first user, and
    [Get] for the first user returns the session of the second. *)
Theorem conversationKey_collision :
  (123456789, -1001234567890) <> (987654321, -1001234567890)
  /\ conversationKey 123456789 (-1001234567890)
     = conversationKey 987654321 (-1001234567890)
  /\ conversationKey 1 1 = conversationKey 4294967297 1
  /\ let w1 := (Start 123456789 (-1001234567890) 0 "f" "s" 0 sampleWorld).2 in
     let r2 := Start 987654321 (-1001234567890) 0 "f" "s" 0 w1 in
     let key := conversationKey 123456789 (-1001234567890) in
     trace r2.2 = [EvMapStore key 0%nat; EvOnStart 0%nat;
                   EvOnEnd 0%nat; EvMapStore key 1%nat; EvOnStart 1%nat]
     /\ (Get 123456789 (-1001234567890) r2.2).1 = Some 1%nat
     /\ Conversation.UserID (heap r2.2 1%nat) = 987654321.
Proof.
  split; [discriminate|]. split; [reflexivity|]. split; [reflexivity|].
  vm_compute. repeat split; reflexivity.
Qed.


(* ================================================================== *)
(** * The router *)
(* ================================================================== *)

Lemma GetPreviousStep_two (v : Conversation.t) (pre : list HistoryEntry)
    (e last : HistoryEntry) :
  Conversation.History v = pre ++ [e; last] ->
  Conversation.GetPreviousStep v = he_StepID e.
Proof.
  intros H. unfold Conversation.GetPreviousStep. rewrite H, length_app.
  cbn [length].
  replace (2 <=? length pre + 2)%nat with true by (symmetry; apply Nat.leb_le; lia).
  replace (length pre + 2 - 2)%nat with (length pre) by lia.
  rewrite list_lookup_middle by reflexivity. reflexivity.
Qed.

Lemma GetPreviousStep_short (v : Conversation.t) :
  (length (Conversation.History v) < 2)%nat ->
  Conversation.GetPreviousStep v = EmptyString.
Proof.
  intros H. unfold Conversation.GetPreviousStep.
  replace (2 <=? length (Conversation.History v))%nat with false
    by (symmetry; apply Nat.leb_gt; lia).
  reflexivity.
Qed.

Lemma handleMainMenu_absent (r : Router.t) (query : CallbackQuery) (w : World) :
  index w !! conversationKey (q_FromID query) (q_ChatID query) = None ->
  handleMainMenu r query w
  = (tt, mkWorld (heap w) (nextLoc w) (manager w) (clock w) (tick w)
                 (trace w ++ mainMenuEvents r query)).
Proof.
  intros H. unfold handleMainMenu, bind at 1, emit at 1.
  unfold bind at 1.
  rewrite End_absent by exact H.
  unfold mainMenuEvents.
  destruct (decide ((CallbackMainMenu ++ "_internal")%string ∈ Router.callbackHandlers r)).
  - unfold emit. cbn. rewrite <- app_assoc. reflexivity.
  - unfold ret. reflexivity.
Qed.

Lemma handleBack_no_previous (r : Router.t) (query : CallbackQuery) (c : loc)
    (w : World) :
  index w !! conversationKey (q_FromID query) (q_ChatID query) = Some c ->
  Conversation.expiredAt (clock w (tick w)) (heap w c) = false ->
  Conversation.GetPreviousStep (heap w c) = EmptyString ->
  handleBack r query w = (tt, backToMenu r query c w).
Proof.
  intros Hstored Hlive Hprev.
  unfold handleBack, bind at 1, emit at 1. unfold bind at 1.
  rewrite (Get_stored _ (q_FromID query) (q_ChatID query) c) by exact Hstored.
  cbn [clock tick heap]. rewrite Hlive.
  unfold conv_GetPreviousStep, bind at 1, load, bind at 1, ret.
  cbn [heap ticked]. rewrite Hprev. cbn [String.eqb negb].
  unfold bind at 1. rewrite (End_stored _ (q_FromID query) (q_ChatID query) c)
    by exact Hstored.
  rewrite handleMainMenu_absent by (cbn; apply lookup_delete_eq).
  unfold backToMenu. cbn.
  destruct (Manager.onEnd (manager w)); cbn; rewrite <- !app_assoc; reflexivity.
Qed.

(** C9: [GetPreviousStep] returns the step of the entry before the last
    one when the history has two entries or more ([s2] for the history
    [s1], [s2], [s3]) and the empty string when it has fewer; in that
    case [handleBack], on a session that [Get] returns, ends the session
    and runs the main-menu navigation, and displays no step. *)
Theorem handleBack_previous_step
    (r : Router.t) (query : CallbackQuery) (c : loc) (w : World) :
  index w !! conversationKey (q_FromID query) (q_ChatID query) = Some c ->
  Conversation.expiredAt (clock w (tick w)) (heap w c) = false ->
  (length (Conversation.History (heap w c)) < 2)%nat ->
  (forall v pre e last,
     Conversation.History v = pre ++ [e; last] ->
     Conversation.GetPreviousStep v = he_StepID e)
  /\ (forall v t1 t2 t3,
        Conversation.History v
        = [mkHistoryEntry "s1" "x" t1; mkHistoryEntry "s2" "y" t2;
           mkHistoryEntry "s3" "z" t3] ->
        Conversation.GetPreviousStep v = "s2")
  /\ (forall v, (length (Conversation.History v) < 2)%nat ->
                Conversation.GetPreviousStep v = EmptyString)
  /\ index (handleBack r query w).2
       !! conversationKey (q_FromID query) (q_ChatID query) = None
  /\ heap (handleBack r query w).2 = heap w
  /\ trace (handleBack r query w).2
     = trace w
       ++ [EvAnswerCallback (q_ID query) EmptyString;
           EvMapDelete (conversationKey (q_FromID query) (q_ChatID query))]
       ++ (if Manager.onEnd (manager w) then [EvOnEnd c] else [])
       ++ [EvAnswerCallback (q_ID query) EmptyString]
       ++ (if decide ((CallbackMainMenu ++ "_internal")%string
                      ∈ Router.callbackHandlers r)
           then [EvCallbackHandler (CallbackMainMenu ++ "_internal")%string] else [])
  /\ (exists added, trace (handleBack r query w).2 = trace w ++ added
                    /\ forallb (fun ev => negb (isDisplayStep ev)) added = true).
Proof.
  intros Hstored Hlive Hshort.
  split; [exact GetPreviousStep_two|].
  split; [intros v t1 t2 t3 H;
          exact (GetPreviousStep_two v [mkHistoryEntry "s1" "x" t1] _ _ H)|].
  split; [exact GetPreviousStep_short|].
  rewrite (handleBack_no_previous r query c w Hstored Hlive
             (GetPreviousStep_short _ Hshort)).
  cbn [snd backToMenu manager heap trace Manager.with_conversations
       Manager.conversations].
  split; [apply lookup_delete_eq|]. split; [reflexivity|].
  split; [reflexivity|].
  eexists. split; [reflexivity|].
  unfold mainMenuEvents.
  destruct (Manager.onEnd (manager w));
    destruct (decide ((CallbackMainMenu ++ "_internal")%string
                      ∈ Router.callbackHandlers r)); reflexivity.
Qed.

Section RouterProperties.

Variable float64 : Type.
Variable ParseFloat : string -> option float64.
Variable float_lt : float64 -> float64 -> bool.
Variable MatchString : string -> string -> option bool.

(** C5: when the step of the session accepts text and [ValidateInput]
    rejects the text of the message, [handleConversationMessage] sends
    the error message to the chat of the message and does nothing else:
    the heap of sessions (data, history and step of every session) and
    the index of the manager are as before. *)
Theorem handleConversationMessage_rejected
    (r : Router.t) (msg : Message) (c : loc) (w : World)
    (step : StepConfig.t) (err : string) :
  GetStep (Router.flowEngine r) (Conversation.FlowID (heap w c))
          (Conversation.StepID (heap w c)) = Some step ->
  StepConfig.InputType step = InputTypeText
  \/ StepConfig.InputType step = InputTypeAny ->
  ValidateInput float64 ParseFloat float_lt MatchString (Router.flowEngine r)
                (heap w c) (msg_Text msg) = Some err ->
  let w' := (handleConversationMessage float64 ParseFloat float_lt MatchString
               r msg c w).2 in
  trace w' = trace w ++ [EvSendMessage (msg_ChatID msg) (msg_MessageThreadID msg)
                                       (crossMark ++ err)]
  /\ heap w' = heap w
  /\ manager w' = manager w
  /\ Conversation.Data (heap w' c) = Conversation.Data (heap w c)
  /\ Conversation.History (heap w' c) = Conversation.History (heap w c)
  /\ Conversation.StepID (heap w' c) = Conversation.StepID (heap w c).
Proof.
  intros Hstep Hkind Hval w'.
  assert (Hw : w' = mkWorld (heap w) (nextLoc w) (manager w) (clock w) (tick w)
                      (trace w ++ [EvSendMessage (msg_ChatID msg)
                                     (msg_MessageThreadID msg) (crossMark ++ err)])).
  { unfold w', handleConversationMessage, bind at 1, load.
    rewrite Hstep.
    assert (Hk : negb (String.eqb (StepConfig.InputType step) InputTypeText)
                 && negb (String.eqb (StepConfig.InputType step) InputTypeAny) = false).
    { destruct Hkind as [-> | ->]; reflexivity. }
    rewrite Hk, Hval. reflexivity. }
  rewrite Hw. repeat split; reflexivity.
Qed.

End RouterProperties.

(** The end-to-end example: the text [Alice] is stored under [name], a
    history entry for [A] is appended and the session moves to [B]. *)
Example handleMessage_end_to_end :
  let w' := (handleMessage unit (fun _ => None) (fun _ _ => false) (fun _ _ => None)
               (routerF None) (textMessage "Alice") worldF).2 in
  Conversation.Data (heap w' 0%nat) !! "name" = Some (VString "Alice")
  /\ map he_StepID (Conversation.History (heap w' 0%nat)) = ["A"]
  /\ map he_Input (Conversation.History (heap w' 0%nat)) = ["Alice"]
  /\ Conversation.StepID (heap w' 0%nat) = "B"
  /\ trace w' = trace worldF ++ [EvDeleteMessage 2 77;
                                 EvOnStepChange 0%nat "A" "B";
                                 EvDisplayStep 0%nat "B"].
Proof. vm_compute. repeat split; reflexivity. Qed.

Lemma handleConversationMessage_rejected_witness :
  trace (handleConversationMessage unit (fun _ => None) (fun _ _ => false)
           (fun _ _ => None) (routerF (Some (sampleValidation "address")))
           (textMessage "0x123") 0%nat worldF).2
  = trace worldF ++ [EvSendMessage 2 0 (crossMark ++ "Please enter a valid Ethereum address")].
Proof.
  apply (handleConversationMessage_rejected unit (fun _ => None) (fun _ _ => false)
           (fun _ _ => None) (routerF (Some (sampleValidation "address")))
           (textMessage "0x123") 0%nat worldF
           (stepA (Some (sampleValidation "address")))
           "Please enter a valid Ethereum address").
  - reflexivity.
  - left. reflexivity.
  - reflexivity.
Defined.

Lemma handleBack_previous_step_witness :
  index worldF !! conversationKey 1 2 = Some 0%nat
  /\ index (handleBack (routerF None) backQuery worldF).2 !! conversationKey 1 2 = None.
Proof.
  split; [reflexivity|].
  apply (handleBack_previous_step (routerF None) backQuery 0%nat worldF).
  - reflexivity.
  - reflexivity.
  - vm_compute. lia.
Defined.


(* ================================================================== *)
(** * Runes and the conversation key *)
(* ================================================================== *)

Lemma byteZ_byte_of_Z (z : Z) : 0 <= z < 256 -> byteZ (byte_of_Z z) = z.
Proof.
  intros Hz. unfold byteZ, byte_of_Z. rewrite Z.mod_small by exact Hz.
  rewrite N_ascii_embedding by lia. lia.
Qed.

Lemma lor_shiftl_small (x y k : Z) :
  0 <= k -> 0 <= y < 2 ^ k -> Z.lor (Z.shiftl x k) y = x * 2 ^ k + y.
Proof.
  intros Hk Hy.
  assert (Hland : Z.land (Z.shiftl x k) y = 0).
  { rewrite <- (Z.mod_small y (2 ^ k)) by exact Hy.
    rewrite <- (Z.land_ones y k) by exact Hk.
    rewrite (Z.land_comm y), Z.land_assoc, Z.land_ones by exact Hk.
    rewrite Z.shiftl_mul_pow2 by exact Hk.
    rewrite Z.mod_mul by (apply Z.pow_nonzero; lia). apply Z.land_0_l. }
  pose proof (Z.add_lor_land (Z.shiftl x k) y) as H.
  rewrite Hland in H. rewrite <- (Z.shiftl_mul_pow2 x k) by exact Hk. lia.
Qed.

Lemma lor_lead (lead y k : Z) :
  0 <= k -> 0 <= y < 2 ^ k -> Z.lor (Z.shiftl lead k) y = lead * 2 ^ k + y.
Proof. apply lor_shiftl_small. Qed.

Lemma land_low (lead y k : Z) :
  0 <= k -> 0 <= y < 2 ^ k -> Z.land (lead * 2 ^ k + y) (Z.ones k) = y.
Proof.
  intros Hk Hy. rewrite Z.land_ones by exact Hk.
  rewrite Z.add_comm, Z.mod_add by (apply Z.pow_nonzero; lia).
  apply Z.mod_small. exact Hy.
Qed.

(** The bytes that [EncodeRune] writes, as numbers. *)
Lemma cont_byte (x : Z) :
  0 <= x -> byteZ (byte_of_Z (Z.lor 0x80 (Z.land x utf8.maskx))) = 128 + x mod 64.
Proof.
  intros Hx. change utf8.maskx with (Z.ones 6). rewrite Z.land_ones by lia.
  change 0x80 with (Z.shiftl 2 6) at 1.
  pose proof (Z.mod_pos_bound x 64 ltac:(lia)) as Hm.
  change (2 ^ 6) with 64.
  rewrite lor_lead by (change (2 ^ 6) with 64; lia). change (2 ^ 6) with 64.
  rewrite byteZ_byte_of_Z by lia. lia.
Qed.

Lemma lead_byte (lead k x : Z) :
  0 <= k -> 0 <= x < 2 ^ k -> 0 <= lead -> lead * 2 ^ k + x < 256 ->
  byteZ (byte_of_Z (Z.lor (Z.shiftl lead k) x)) = lead * 2 ^ k + x.
Proof.
  intros Hk Hx Hl Hb. rewrite lor_lead by assumption.
  apply byteZ_byte_of_Z. nia.
Qed.

Lemma cont_low (y : Z) : 0 <= y < 64 -> Z.land (128 + y) utf8.maskx = y.
Proof.
  intros Hy. change utf8.maskx with (Z.ones 6).
  replace (128 + y) with (2 * 2 ^ 6 + y) by (change (2 ^ 6) with 64; lia).
  apply land_low; [lia|change (2 ^ 6) with 64; lia].
Qed.

Lemma first_as (b : Z) : b < 128 -> utf8.first b = utf8.AS.
Proof. intros H. unfold utf8.first. destruct (b <? 128) eqn:E; [reflexivity|lia]. Qed.

Ltac first_cases :=
  unfold utf8.first;
  repeat match goal with
         | |- context [?a <? ?b] => destruct (Z.ltb_spec a b); try lia
         | |- context [?a =? ?b] => destruct (Z.eqb_spec a b); try lia
         end; try reflexivity.

Lemma first_two (b : Z) :
  0xC2 <= b <= 0xDF -> utf8.first b = utf8.SZ 2 0x80 0xBF.
Proof. intros H. first_cases. Qed.

Lemma first_three (b : Z) :
  0xE0 <= b <= 0xEF ->
  utf8.first b = utf8.SZ 3 (if b =? 0xE0 then 0xA0 else 0x80)
                           (if b =? 0xED then 0x9F else 0xBF).
Proof. intros H. first_cases. Qed.

Lemma first_four (b : Z) :
  0xF0 <= b <= 0xF4 ->
  utf8.first b = utf8.SZ 4 (if b =? 0xF0 then 0x90 else 0x80)
                           (if b =? 0xF4 then 0x8F else 0xBF).
Proof. intros H. first_cases. Qed.

Lemma accept_ok (x lo hi : Z) : lo <= x <= hi -> (x <? lo) || (hi <? x) = false.
Proof.
  intros H. destruct (Z.ltb_spec x lo); [lia|].
  destruct (Z.ltb_spec hi x); [lia|reflexivity].
Qed.

Lemma Decode_one (c0 : ascii) (s : string) :
  byteZ c0 < 128 ->
  utf8.DecodeRuneInString (String c0 s) = (byteZ c0, 1%nat).
Proof. apply DecodeRune_ascii. Qed.

Lemma Decode_two (c0 c1 : ascii) (s : string) :
  0xC2 <= byteZ c0 <= 0xDF -> 0x80 <= byteZ c1 <= 0xBF ->
  utf8.DecodeRuneInString (String c0 (String c1 s))
  = (Z.lor (Z.shiftl (Z.land (byteZ c0) utf8.mask2) 6)
           (Z.land (byteZ c1) utf8.maskx), 2%nat).
Proof.
  intros H0 H1. unfold utf8.DecodeRuneInString.
  rewrite (first_two _ H0). cbn [String.length Nat.ltb Nat.leb].
  rewrite (accept_ok _ _ _ H1). reflexivity.
Qed.

Lemma Decode_three (c0 c1 c2 : ascii) (s : string) :
  0xE0 <= byteZ c0 <= 0xEF ->
  (if byteZ c0 =? 0xE0 then 0xA0 else 0x80) <= byteZ c1
  <= (if byteZ c0 =? 0xED then 0x9F else 0xBF) ->
  0x80 <= byteZ c2 <= 0xBF ->
  utf8.DecodeRuneInString (String c0 (String c1 (String c2 s)))
  = (Z.lor (Z.lor (Z.shiftl (Z.land (byteZ c0) utf8.mask3) 12)
                  (Z.shiftl (Z.land (byteZ c1) utf8.maskx) 6))
           (Z.land (byteZ c2) utf8.maskx), 3%nat).
Proof.
  intros H0 H1 H2. unfold utf8.DecodeRuneInString.
  rewrite (first_three _ H0). cbn [String.length Nat.ltb Nat.leb].
  rewrite (accept_ok _ _ _ H1).
  unfold utf8.locb, utf8.hicb. rewrite (accept_ok _ _ _ H2). reflexivity.
Qed.

Lemma Decode_four (c0 c1 c2 c3 : ascii) (s : string) :
  0xF0 <= byteZ c0 <= 0xF4 ->
  (if byteZ c0 =? 0xF0 then 0x90 else 0x80) <= byteZ c1
  <= (if byteZ c0 =? 0xF4 then 0x8F else 0xBF) ->
  0x80 <= byteZ c2 <= 0xBF ->
  0x80 <= byteZ c3 <= 0xBF ->
  utf8.DecodeRuneInString (String c0 (String c1 (String c2 (String c3 s))))
  = (Z.lor (Z.lor (Z.lor (Z.shiftl (Z.land (byteZ c0) utf8.mask4) 18)
                         (Z.shiftl (Z.land (byteZ c1) utf8.maskx) 12))
                  (Z.shiftl (Z.land (byteZ c2) utf8.maskx) 6))
           (Z.land (byteZ c3) utf8.maskx), 4%nat).
Proof.
  intros H0 H1 H2 H3. unfold utf8.DecodeRuneInString.
  rewrite (first_four _ H0). cbn [String.length Nat.ltb Nat.leb].
  rewrite (accept_ok _ _ _ H1).
  unfold utf8.locb, utf8.hicb.
  rewrite (accept_ok _ _ _ H2), (accept_ok _ _ _ H3). reflexivity.
Qed.

Lemma shiftr_6 (r : Z) : Z.shiftr r 6 = r / 64.
Proof. rewrite Z.shiftr_div_pow2 by lia. reflexivity. Qed.

Lemma shiftr_12 (r : Z) : Z.shiftr r 12 = r / 4096.
Proof. rewrite Z.shiftr_div_pow2 by lia. reflexivity. Qed.

Lemma shiftr_18 (r : Z) : Z.shiftr r 18 = r / 262144.
Proof. rewrite Z.shiftr_div_pow2 by lia. reflexivity. Qed.

(** The digits of [r] in base 64. *)
Lemma digits64 (r : Z) :
  0 <= r ->
  let d := r mod 64 in
  let c := (r / 64) mod 64 in
  let b := (r / 4096) mod 64 in
  let a := r / 262144 in
  0 <= d < 64 /\ 0 <= c < 64 /\ 0 <= b < 64 /\ 0 <= a
  /\ r / 64 = (r / 4096) * 64 + c
  /\ r / 4096 = a * 64 + b
  /\ r = (r / 64) * 64 + d.
Proof.
  intros Hr d c b a. unfold d, c, b, a.
  pose proof (Z.mod_pos_bound r 64 ltac:(lia)).
  pose proof (Z.mod_pos_bound (r / 64) 64 ltac:(lia)).
  pose proof (Z.mod_pos_bound (r / 4096) 64 ltac:(lia)).
  pose proof (Z.div_mod r 64 ltac:(lia)).
  pose proof (Z.div_mod (r / 64) 64 ltac:(lia)) as H64.
  pose proof (Z.div_mod (r / 4096) 64 ltac:(lia)) as H4096.
  rewrite (Z.div_div r 64 64) in H64 by lia.
  rewrite (Z.div_div r 4096 64) in H4096 by lia.
  change (64 * 64) with 4096 in H64. change (4096 * 64) with 262144 in H4096.
  assert (0 <= r / 262144) by (apply Z.div_pos; lia).
  repeat split; lia.
Qed.

Lemma land_lead (lead k x : Z) :
  0 <= k -> 0 <= x < 2 ^ k -> Z.land (lead * 2 ^ k + x) (Z.ones k) = x.
Proof. apply land_low. Qed.

(** Decoding what [EncodeRune] writes for a scalar value
    gives the value back and consumes exactly its bytes, whatever
    follows. *)
Lemma Decode_Encode (r : Z) (s : string) :
  validRune r = true ->
  utf8.DecodeRuneInString (utf8.EncodeRune r ++ s)
  = (r, String.length (utf8.EncodeRune r)).
Proof.
  unfold validRune, utf8.MaxRune, utf8.surrogateMin, utf8.surrogateMax.
  intros Hv.
  assert (Hr : 0 <= r <= 0x10FFFF /\ (r < 0xD800 \/ 0xDFFF < r)) by lia.
  clear Hv. destruct Hr as [Hr Hs].
  destruct (digits64 r ltac:(lia)) as (Hd & Hc & Hb & Ha & H64 & H4096 & Hrd).
  unfold utf8.EncodeRune, utf8.rune1Max, utf8.rune2Max, utf8.rune3Max,
    utf8.MaxRune, utf8.surrogateMin, utf8.surrogateMax.
  rewrite (Z.mod_small r (2 ^ 32)) by (change (2 ^ 32) with 4294967296; lia).
  destruct (Z.leb_spec r 0x7F) as [H1|H1].
  { (* one byte *)
    rewrite sappend_cons, sappend_nil. cbn [String.length].
    rewrite <- (byteZ_byte_of_Z r) at 2 by lia.
    apply Decode_one. rewrite byteZ_byte_of_Z by lia. lia. }
  destruct (Z.leb_spec r 0x7FF) as [H2|H2].
  { (* two bytes *)
    rewrite !sappend_cons, sappend_nil. cbn [String.length].
    assert (E0 : byteZ (byte_of_Z (Z.lor 0xC0 (Z.shiftr r 6))) = 6 * 2 ^ 5 + r / 64).
    { change 0xC0 with (Z.shiftl 6 5). rewrite shiftr_6.
      apply lead_byte; change (2 ^ 5) with 32; lia. }
    assert (E1 : byteZ (byte_of_Z (Z.lor 0x80 (Z.land r utf8.maskx))) = 128 + r mod 64)
      by (apply cont_byte; lia).
    rewrite Decode_two; rewrite ?E0, ?E1; change (2 ^ 5) with 32; try lia.
    f_equal. change utf8.mask2 with (Z.ones 5).
    change (6 * 32 + r / 64) with (6 * 2 ^ 5 + r / 64).
    rewrite land_lead by (change (2 ^ 5) with 32; lia).
    rewrite cont_low by lia.
    rewrite lor_shiftl_small by (change (2 ^ 6) with 64; lia).
    change (2 ^ 6) with 64. lia. }
  assert (Hns : (0x10FFFF <? r) || (0xD800 <=? r) && (r <=? 0xDFFF) = false).
  { destruct (Z.ltb_spec 0x10FFFF r); [lia|].
    destruct (Z.leb_spec 0xD800 r); destruct (Z.leb_spec r 0xDFFF);
      try reflexivity; lia. }
  rewrite Hns. clear Hns.
  destruct (Z.leb_spec r 0xFFFF) as [H3|H3].
  { (* three bytes *)
    unfold utf8.encode3.
    rewrite !sappend_cons, sappend_nil. cbn [String.length].
    assert (E0 : byteZ (byte_of_Z (Z.lor 0xE0 (Z.shiftr r 12))) = 14 * 2 ^ 4 + r / 4096).
    { change 0xE0 with (Z.shiftl 14 4). rewrite shiftr_12.
      apply lead_byte; change (2 ^ 4) with 16; lia. }
    assert (E1 : byteZ (byte_of_Z (Z.lor 0x80 (Z.land (Z.shiftr r 6) utf8.maskx)))
                 = 128 + (r / 64) mod 64)
      by (rewrite <- shiftr_6; apply cont_byte; rewrite shiftr_6; lia).
    assert (E2 : byteZ (byte_of_Z (Z.lor 0x80 (Z.land r utf8.maskx))) = 128 + r mod 64)
      by (apply cont_byte; lia).
    rewrite Decode_three; rewrite ?E0, ?E1, ?E2; change (2 ^ 4) with 16; try lia.
    - f_equal. change utf8.mask3 with (Z.ones 4).
      change (14 * 16 + r / 4096) with (14 * 2 ^ 4 + r / 4096).
      rewrite land_lead by (change (2 ^ 4) with 16; lia).
      rewrite !cont_low by lia.
      rewrite (Z.shiftl_mul_pow2 ((r / 64) mod 64) 6) by lia.
      rewrite lor_shiftl_small by (change (2 ^ 12) with 4096; change (2 ^ 6) with 64; lia).
      replace (r / 4096 * 2 ^ 12 + (r / 64) mod 64 * 2 ^ 6)
        with (Z.shiftl (r / 64) 6)
        by (rewrite Z.shiftl_mul_pow2 by lia;
            change (2 ^ 12) with 4096; change (2 ^ 6) with 64; lia).
      rewrite lor_shiftl_small by (change (2 ^ 6) with 64; lia).
      change (2 ^ 6) with 64. lia.
    - destruct (Z.eqb_spec (14 * 16 + r / 4096) 224);
        destruct (Z.eqb_spec (14 * 16 + r / 4096) 237); lia. }
  (* four bytes *)
  rewrite !sappend_cons, sappend_nil. cbn [String.length].
  assert (E0 : byteZ (byte_of_Z (Z.lor 0xF0 (Z.shiftr r 18))) = 30 * 2 ^ 3 + r / 262144).
  { change 0xF0 with (Z.shiftl 30 3). rewrite shiftr_18.
    apply lead_byte; change (2 ^ 3) with 8; lia. }
  assert (E1 : byteZ (byte_of_Z (Z.lor 0x80 (Z.land (Z.shiftr r 12) utf8.maskx)))
               = 128 + (r / 4096) mod 64)
    by (rewrite <- shiftr_12; apply cont_byte; rewrite shiftr_12; lia).
  assert (E2 : byteZ (byte_of_Z (Z.lor 0x80 (Z.land (Z.shiftr r 6) utf8.maskx)))
               = 128 + (r / 64) mod 64)
    by (rewrite <- shiftr_6; apply cont_byte; rewrite shiftr_6; lia).
  assert (E3 : byteZ (byte_of_Z (Z.lor 0x80 (Z.land r utf8.maskx))) = 128 + r mod 64)
    by (apply cont_byte; lia).
  rewrite Decode_four; rewrite ?E0, ?E1, ?E2, ?E3; change (2 ^ 3) with 8; try lia.
  - f_equal. change utf8.mask4 with (Z.ones 3).
    change (30 * 8 + r / 262144) with (30 * 2 ^ 3 + r / 262144).
    rewrite land_lead by (change (2 ^ 3) with 8; lia).
    rewrite !cont_low by lia.
    rewrite (Z.shiftl_mul_pow2 ((r / 4096) mod 64) 12) by lia.
    rewrite lor_shiftl_small
      by (change (2 ^ 18) with 262144; change (2 ^ 12) with 4096; lia).
    replace (r / 262144 * 2 ^ 18 + (r / 4096) mod 64 * 2 ^ 12)
      with (Z.shiftl (r / 4096) 12)
      by (rewrite Z.shiftl_mul_pow2 by lia;
          change (2 ^ 18) with 262144; change (2 ^ 12) with 4096; lia).
    rewrite (Z.shiftl_mul_pow2 ((r / 64) mod 64) 6) by lia.
    rewrite lor_shiftl_small by (change (2 ^ 12) with 4096; change (2 ^ 6) with 64; lia).
    replace (r / 4096 * 2 ^ 12 + (r / 64) mod 64 * 2 ^ 6)
      with (Z.shiftl (r / 64) 6)
      by (rewrite Z.shiftl_mul_pow2 by lia;
          change (2 ^ 12) with 4096; change (2 ^ 6) with 64; lia).
    rewrite lor_shiftl_small by (change (2 ^ 6) with 64; lia).
    change (2 ^ 6) with 64. lia.
  - destruct (Z.eqb_spec (30 * 8 + r / 262144) 240);
      destruct (Z.eqb_spec (30 * 8 + r / 262144) 244); lia.
Qed.

Lemma rune_small (x : Z) : 0 <= x < 2 ^ 31 -> rune x = x.
Proof.
  intros Hx. unfold rune.
  change (2 ^ 31) with 2147483648 in *. change (2 ^ 32) with 4294967296.
  rewrite Z.mod_small by lia. lia.
Qed.

Lemma validRune_range (r : Z) : validRune r = true -> 0 <= r < 2 ^ 31.
Proof.
  unfold validRune, utf8.MaxRune. change (2 ^ 31) with 2147483648. lia.
Qed.

Lemma sappend_cancel (a x y : string) : (a ++ x = a ++ y)%string -> x = y.
Proof.
  induction a as [|c a IH]; intros H.
  - rewrite !sappend_nil in H. exact H.
  - rewrite !sappend_cons in H. injection H as H. apply IH, H.
Qed.

Lemma EncodeRune_inj (r r' : Z) (s s' : string) :
  validRune r = true -> validRune r' = true ->
  (utf8.EncodeRune r ++ s = utf8.EncodeRune r' ++ s')%string ->
  r = r' /\ s = s'.
Proof.
  intros Hr Hr' H.
  pose proof (Decode_Encode r s Hr) as D.
  pose proof (Decode_Encode r' s' Hr') as D'.
  rewrite H, D' in D. injection D as D _. subst r'.
  split; [reflexivity|]. apply (sappend_cancel _ _ _ H).
Qed.

(** X1: on Unicode scalar values the conversation key is injective: two
    different (user, chat) pairs whose identifiers are scalar values never
    share a key. *)
Theorem conversationKey_injective (userID chatID userID' chatID' : Z) :
  validRune userID = true -> validRune chatID = true ->
  validRune userID' = true -> validRune chatID' = true ->
  conversationKey userID chatID = conversationKey userID' chatID' ->
  userID = userID' /\ chatID = chatID'.
Proof.
  intros Hu Hc Hu' Hc' H. unfold conversationKey, string_of_rune in H.
  rewrite !rune_small in H by (apply validRune_range; assumption).
  apply EncodeRune_inj in H; [|assumption|assumption].
  destruct H as [-> H]. split; [reflexivity|].
  rewrite !sappend_cons, !sappend_nil in H. injection H as H.
  rewrite <- (sappend_nil_r (utf8.EncodeRune chatID)) in H.
  rewrite <- (sappend_nil_r (utf8.EncodeRune chatID')) in H.
  apply EncodeRune_inj in H; [|assumption|assumption]. apply H.
Qed.

Lemma conversationKey_injective_witness : 0x4E2D = 0x4E2D /\ 0x1F600 = 0x1F600.
Proof.
  apply (conversationKey_injective 0x4E2D 0x1F600 0x4E2D 0x1F600); reflexivity.
Defined.


(* ================================================================== *)
(** * Sessions and the store: further properties *)
(* ================================================================== *)

(** The conversion of a [float64] that has a place in [int] cuts the
    fraction off: the result has the sign of the number and the largest
    magnitude that is not above the number's. *)
Lemma int_of_float64_truncates
    (unrepresentable : spec_float -> Z) (s : bool) (m : positive) (e : Z) :
  let n := int_of_float64 unrepresentable (S754_finite s m e) in
  let scale := 2 ^ (- e) in
  e < 0 -> Z.pos m / scale < 2 ^ 63 ->
  n = (if s then - (Z.pos m / scale) else Z.pos m / scale)
  /\ Z.abs n * scale <= Z.pos m < (Z.abs n + 1) * scale.
Proof.
  intros n scale He Hm. unfold n, int_of_float64.
  assert (Hs : 0 < scale) by (apply Z.pow_pos_nonneg; lia).
  assert (Hq : 0 <= Z.pos m / scale) by (apply Z.div_pos; lia).
  destruct (0 <=? e) eqn:E; [apply Z.leb_le in E; lia|]. fold scale.
  assert (Hin : (- 2 ^ 63 <=? (if s then - (Z.pos m / scale) else Z.pos m / scale))
                && ((if s then - (Z.pos m / scale) else Z.pos m / scale) <? 2 ^ 63)
                = true).
  { apply andb_true_intro. split; [apply Z.leb_le|apply Z.ltb_lt]; destruct s; lia. }
  rewrite Hin. split; [reflexivity|].
  assert (Habs : Z.abs (if s then - (Z.pos m / scale) else Z.pos m / scale)
                 = Z.pos m / scale) by (destruct s; lia).
  rewrite Habs.
  pose proof (Z.mul_div_le (Z.pos m) scale Hs).
  pose proof (Z.mul_succ_div_gt (Z.pos m) scale Hs). lia.
Qed.

(** X2: a value stored with [Set] is read back by [Get], [GetString] and
    [GetInt] according to its dynamic type: [GetString] returns a string
    and reads anything else as empty, [GetInt] returns an [int] or an
    [int64], converts a [float64] (2.75, which is 6192449487634432 times
    2 to the power -51, reads as 2, and -2.75 as -2) and reads anything
    else as 0. The other keys keep their values,
    [UpdatedAt] becomes the reading of the clock, and neither the step,
    the history, the expiry nor any other session changes. *)
Theorem conv_Set_Get (c : loc) (key : string) (value : Value) (w : World) :
  let w' := (conv_Set c key value w).2 in
  Conversation.Get (heap w' c) key = Some value
  /\ (forall k, k <> key ->
        Conversation.Get (heap w' c) k = Conversation.Get (heap w c) k)
  /\ Conversation.GetString (heap w' c) key
     = match value with
       | VString s => s
       | VInt _ | VInt64 _ | VFloat64 _ | VBool _ => EmptyString
       end
  /\ (forall unrepresentable,
        GetInt unrepresentable (heap w' c) key
        = match value with
          | VInt n => n
          | VInt64 n => n
          | VFloat64 f => int_of_float64 unrepresentable f
          | VString _ | VBool _ => 0
          end)
  /\ (forall unrepresentable,
        value = VFloat64 (S754_finite false 6192449487634432 (-51)) ->
        GetInt unrepresentable (heap w' c) key = 2)
  /\ (forall unrepresentable,
        value = VFloat64 (S754_finite true 6192449487634432 (-51)) ->
        GetInt unrepresentable (heap w' c) key = -2)
  /\ Conversation.UpdatedAt (heap w' c) = clock w (tick w)
  /\ Conversation.StepID (heap w' c) = Conversation.StepID (heap w c)
  /\ Conversation.History (heap w' c) = Conversation.History (heap w c)
  /\ Conversation.ExpiresAt (heap w' c) = Conversation.ExpiresAt (heap w c)
  /\ (forall l, l <> c -> heap w' l = heap w l)
  /\ manager w' = manager w
  /\ trace w' = trace w.
Proof.
  intros w'. unfold w'. run. rewrite !decide_True by reflexivity.
  unfold Conversation.GetString, GetInt, Conversation.Get.
  cbn [Conversation.Data Conversation.with_Data Conversation.with_UpdatedAt
       Conversation.UpdatedAt Conversation.StepID Conversation.History
       Conversation.ExpiresAt].
  rewrite lookup_insert_eq.
  split; [reflexivity|]. split; [intros k Hk; apply lookup_insert_ne; congruence|].
  split; [destruct value; reflexivity|].
  split; [intros u; destruct value; reflexivity|].
  split; [intros u ->; reflexivity|]. split; [intros u ->; reflexivity|].
  repeat (split; [reflexivity|]).
  split; [|split; reflexivity].
  intros l Hl. rewrite !decide_False by exact Hl. reflexivity.
Qed.

(** X3: [AddHistory] appends one entry with the reading of the clock, and
    [GetPreviousStep] then returns the step of the entry that was last
    before: after the first entry of a session there is no previous
    step. *)
Theorem conv_AddHistory_GetPreviousStep
    (c : loc) (stepID input : string) (w : World) :
  let w' := (conv_AddHistory c stepID input w).2 in
  Conversation.History (heap w' c)
  = Conversation.History (heap w c) ++ [mkHistoryEntry stepID input (clock w (tick w))]
  /\ Conversation.GetPreviousStep (heap w' c)
     = match last (Conversation.History (heap w c)) with
       | Some e => he_StepID e
       | None => EmptyString
       end
  /\ Conversation.Data (heap w' c) = Conversation.Data (heap w c)
  /\ Conversation.StepID (heap w' c) = Conversation.StepID (heap w c)
  /\ (forall l, l <> c -> heap w' l = heap w l).
Proof.
  intros w'. unfold w'. run. rewrite !decide_True by reflexivity.
  cbn [Conversation.History Conversation.with_History Conversation.Data
       Conversation.StepID].
  split; [reflexivity|]. split; [|split; [reflexivity|split; [reflexivity|]]].
  - destruct (Conversation.History (heap w c)) as [|e0 h] eqn:Hh using rev_ind.
    + unfold Conversation.GetPreviousStep.
      cbn [Conversation.History Conversation.with_History]. reflexivity.
    + rewrite last_snoc.
      apply (GetPreviousStep_two _ h e0 (mkHistoryEntry stepID input (clock w (tick w)))).
      cbn [Conversation.History Conversation.with_History].
      rewrite <- app_assoc. reflexivity.
  - intros l Hl. rewrite decide_False by exact Hl. reflexivity.
Qed.

(** X4: [End] removes the session of the key and nothing else, calls the
    end hook on it when the hook is set, and is idempotent: a second
    [End] finds nothing and changes nothing. *)
Theorem End_idempotent (userID chatID : Z) (w : World) :
  let w' := (End userID chatID w).2 in
  index w' !! conversationKey userID chatID = None
  /\ (forall key, key <> conversationKey userID chatID ->
        index w' !! key = index w !! key)
  /\ heap w' = heap w
  /\ trace w'
     = trace w ++ match index w !! conversationKey userID chatID with
                  | Some conv =>
                    EvMapDelete (conversationKey userID chatID)
                    :: (if Manager.onEnd (manager w) then [EvOnEnd conv] else [])
                  | None => []
                  end
  /\ End userID chatID w' = (tt, w').
Proof.
  intros w'. unfold w'.
  destruct (index w !! conversationKey userID chatID) as [conv|] eqn:E.
  - rewrite (End_stored w userID chatID conv E).
    cbn [snd ended manager heap trace Manager.with_conversations
         Manager.conversations].
    split; [apply lookup_delete_eq|].
    split; [intros key Hk; apply lookup_delete_ne; congruence|].
    split; [reflexivity|]. split; [reflexivity|].
    apply End_absent. cbn. apply lookup_delete_eq.
  - rewrite (End_absent w userID chatID E). cbn [snd].
    split; [exact E|]. split; [reflexivity|]. split; [reflexivity|].
    split; [symmetry; apply app_nil_r|]. apply End_absent, E.
Qed.

(** The world after [Start]. *)
Lemma Start_world
    (w : World) (userID chatID topicID : Z) (flowID initialStep : string) (ttl : Z) :
  Start userID chatID topicID flowID initialStep ttl w
  = (nextLoc w,
     mkWorld (fun l => if decide (l = nextLoc w)
                       then Conversation.New (clock w (tick w)) userID chatID topicID
                              flowID initialStep
                              (if ttl <=? 0 then Manager.defaultTTL (manager w) else ttl)
                       else heap w l)
             (S (nextLoc w))
             (Manager.with_conversations
                (<[conversationKey userID chatID := nextLoc w]> (index w)) (manager w))
             (clock w) (S (tick w))
             (trace w
              ++ match index w !! conversationKey userID chatID with
                 | Some old => if Manager.onEnd (manager w) then [EvOnEnd old] else []
                 | None => []
                 end
              ++ EvMapStore (conversationKey userID chatID) (nextLoc w)
              :: (if Manager.onStart (manager w) then [EvOnStart (nextLoc w)] else []))).
Proof.
  unfold Start, NewConversation, getManager, mapLookup, bind.
  destruct (index w !! conversationKey userID chatID) as [old|];
    unfold when, emit, now, alloc, mapStore, ret;
    destruct (Manager.onEnd (manager w)) eqn:E1;
    destruct (Manager.onStart (manager w)) eqn:E2; cbn; rewrite ?E1, ?E2;
    rewrite <- ?app_assoc; try rewrite app_nil_r; reflexivity.
Qed.

(** X5: [Start] on a free key calls no end hook and makes [Count] grow
    by one; on a key in use [Count] stays. In both cases the session is a
    fresh one, the sessions of the heap and the other keys of the index
    are untouched, and the new session starts with no data, no history
    and the state [StateWaiting]. *)
Theorem Start_Count
    (w : World) (userID chatID topicID : Z) (flowID initialStep : string) (ttl : Z) :
  let r := Start userID chatID topicID flowID initialStep ttl w in
  (Count r.2).1
  = (Count w).1 + match index w !! conversationKey userID chatID with
                  | Some _ => 0
                  | None => 1
                  end
  /\ (index w !! conversationKey userID chatID = None ->
      forall conv, endHookCalls conv (trace r.2) = endHookCalls conv (trace w))
  /\ (forall l, l <> r.1 -> heap r.2 l = heap w l)
  /\ (forall key, key <> conversationKey userID chatID ->
        index r.2 !! key = index w !! key)
  /\ Conversation.Data (heap r.2 r.1) = ∅
  /\ Conversation.History (heap r.2 r.1) = []
  /\ Conversation.State (heap r.2 r.1) = StateWaiting
  /\ Conversation.UserID (heap r.2 r.1) = userID
  /\ Conversation.ChatID (heap r.2 r.1) = chatID.
Proof.
  intros r. unfold r. rewrite Start_world.
  cbn [fst snd heap manager trace Manager.with_conversations Manager.conversations].
  unfold Count, bind, getManager, ret.
  cbn [fst snd manager Manager.with_conversations Manager.conversations].
  rewrite decide_True by reflexivity.
  split; [|split; [|split; [|split; [|repeat split]]]].
  - destruct (index w !! conversationKey userID chatID) as [old|] eqn:E.
    + rewrite map_size_insert_Some by (exists old; exact E). lia.
    + rewrite map_size_insert_None by exact E. lia.
  - intros E. rewrite E. cbn [app].
    assert (H : forall conv,
               endHookCalls conv
                 (trace w ++ EvMapStore (conversationKey userID chatID) (nextLoc w)
                          :: (if Manager.onStart (manager w)
                              then [EvOnStart (nextLoc w)] else []))
               = endHookCalls conv (trace w)).
    { intros conv.
      change (trace w ++ EvMapStore (conversationKey userID chatID) (nextLoc w)
                      :: (if Manager.onStart (manager w)
                          then [EvOnStart (nextLoc w)] else []))
        with (trace w ++ [EvMapStore (conversationKey userID chatID) (nextLoc w)]
                      ++ (if Manager.onStart (manager w)
                          then [EvOnStart (nextLoc w)] else [])).
      rewrite !endHookCalls_app.
      rewrite (endHookCalls_miss conv
                 (EvMapStore (conversationKey userID chatID) (nextLoc w)))
        by discriminate.
      destruct (Manager.onStart (manager w));
        [rewrite (endHookCalls_miss conv (EvOnStart (nextLoc w))) by discriminate|];
        cbn; lia. }
    exact H.
  - intros l Hl. rewrite decide_False by exact Hl. reflexivity.
  - intros key Hk. apply lookup_insert_ne. congruence.
Qed.

(** The world after [ChangeStep] on a session that is stored and alive:
    the projections. *)
Lemma ChangeStep_live (w : World) (userID chatID : Z) (newStep : string) (conv : loc) :
  index w !! conversationKey userID chatID = Some conv ->
  Conversation.expiredAt (clock w (tick w)) (heap w conv) = false ->
  let w' := (ChangeStep userID chatID newStep w).2 in
  (forall l, heap w' l
             = if decide (l = conv)
               then Conversation.with_UpdatedAt (clock w (S (tick w)))
                      (Conversation.with_StepID newStep (heap w conv))
               else heap w l)
  /\ manager w' = manager w
  /\ tick w' = S (S (tick w))
  /\ clock w' = clock w
  /\ nextLoc w' = nextLoc w
  /\ trace w'
     = trace w ++ (if Manager.onStepChange (manager w)
                   then [EvOnStepChange conv (Conversation.StepID (heap w conv)) newStep]
                   else []).
Proof.
  intros Hstored Hlive w'.
  pose proof (eq_refl (ChangeStep userID chatID newStep w)) as H.
  unfold ChangeStep at 2 in H. unfold bind at 1, getManager in H.
  unfold bind at 1 in H.
  rewrite (Get_stored w userID chatID conv Hstored), Hlive in H.
  unfold ticked in H. run_in H.
  unfold w'. rewrite H. clear H.
  destruct (Manager.onStepChange (manager w)); unfold ret;
    cbn [fst snd heap manager trace tick clock nextLoc];
    repeat split;
    try (intros l; destruct (decide (l = conv)) as [->|Hne];
         [rewrite !decide_True by reflexivity|]; reflexivity);
    try (symmetry; apply app_nil_r).
Qed.

Lemma ChangeStep_expired (w : World) (userID chatID : Z) (newStep : string) (conv : loc) :
  index w !! conversationKey userID chatID = Some conv ->
  Conversation.expiredAt (clock w (tick w)) (heap w conv) = true ->
  ChangeStep userID chatID newStep w
  = (tt, ended (conversationKey userID chatID) conv (ticked w)).
Proof.
  intros E He. unfold ChangeStep, bind at 1, getManager. unfold bind at 1.
  rewrite (Get_stored w userID chatID conv E), He. reflexivity.
Qed.

Lemma ChangeStep_absent (w : World) (userID chatID : Z) (newStep : string) :
  index w !! conversationKey userID chatID = None ->
  ChangeStep userID chatID newStep w = (tt, w).
Proof.
  intros E. unfold ChangeStep, bind at 1, getManager. unfold bind at 1.
  rewrite (Get_absent w userID chatID E). reflexivity.
Qed.

(** X6: [ChangeStep] does nothing when the key has no session; it ends a
    session that has expired instead of moving it; and on a live session
    it sets the step, stamps [UpdatedAt], leaves data, history and expiry
    alone, keeps the session in the index and calls the step-change hook
    with the old and the new step. *)
Theorem ChangeStep_cases (w : World) (userID chatID : Z) (newStep : string) :
  let key := conversationKey userID chatID in
  let w' := (ChangeStep userID chatID newStep w).2 in
  match index w !! key with
  | None => ChangeStep userID chatID newStep w = (tt, w)
  | Some conv =>
    if Conversation.expiredAt (clock w (tick w)) (heap w conv) then
      index w' !! key = None
      /\ heap w' = heap w
      /\ trace w' = trace w ++ EvMapDelete key
                            :: (if Manager.onEnd (manager w) then [EvOnEnd conv] else [])
    else
      Conversation.StepID (heap w' conv) = newStep
      /\ Conversation.UpdatedAt (heap w' conv) = clock w (S (tick w))
      /\ Conversation.Data (heap w' conv) = Conversation.Data (heap w conv)
      /\ Conversation.History (heap w' conv) = Conversation.History (heap w conv)
      /\ Conversation.ExpiresAt (heap w' conv) = Conversation.ExpiresAt (heap w conv)
      /\ (forall l, l <> conv -> heap w' l = heap w l)
      /\ index w' = index w
      /\ trace w'
         = trace w ++ (if Manager.onStepChange (manager w)
                       then [EvOnStepChange conv (Conversation.StepID (heap w conv)) newStep]
                       else [])
  end.
Proof.
  intros key w'.
  destruct (index w !! key) as [conv|] eqn:E.
  - destruct (Conversation.expiredAt (clock w (tick w)) (heap w conv)) eqn:He.
    + unfold w'. rewrite (ChangeStep_expired w userID chatID newStep conv E He).
      cbn [snd ended ticked manager heap trace
           Manager.with_conversations Manager.conversations].
      split; [apply lookup_delete_eq|]. split; reflexivity.
    + destruct (ChangeStep_live w userID chatID newStep conv E He)
        as (Hheap & Hmgr & _ & _ & _ & Htrace).
      fold w' in Hheap, Hmgr, Htrace.
      rewrite (Hheap conv), decide_True by reflexivity.
      repeat split; try reflexivity.
      * intros l Hl. rewrite (Hheap l), decide_False by exact Hl. reflexivity.
      * rewrite Hmgr. reflexivity.
      * exact Htrace.
  - apply ChangeStep_absent. exact E.
Qed.

Lemma Cleanup_loop_frame (entries : list (string * loc)) :
  forall (w : World) (count : Z),
    clock (Cleanup_loop entries count w).2 = clock w
    /\ (tick w <= tick (Cleanup_loop entries count w).2)%nat.
Proof.
  induction entries as [|[key conv] rest IH]; intros w count.
  - split; [reflexivity|]. cbn. lia.
  - rewrite Cleanup_loop_cons.
    destruct (Conversation.expiredAt (clock w (tick w)) (heap w conv)).
    + destruct (IH (swept key conv (ticked w)) (count + 1)) as [Hc Ht].
      cbn [swept ticked clock tick] in Hc, Ht. split; [exact Hc|lia].
    + destruct (IH (ticked w) count) as [Hc Ht].
      cbn [ticked clock tick] in Hc, Ht. split; [exact Hc|lia].
Qed.

Lemma size_filter_list (t : Z) (hp : loc -> Conversation.t) (m : gmap string loc) :
  size (filter (fun en => ¬ expiredEntry hp t en = true) m)
  = length (filter (fun en => ¬ expiredEntry hp t en = true) (map_to_list m)).
Proof.
  rewrite map_filter_alt. apply map_size_list_to_map.
  eapply sublist_NoDup;
    [apply (NoDup_fst_map_to_list m)|apply fmap_sublist, sublist_filter].
Qed.

(** X7: when the clock shows [t] during the sweep, [Cleanup] returns the
    number of sessions it removes, which is the number by which the index
    shrinks; it keeps every session that has not expired and no other,
    changes no session, and a second sweep at the same time removes
    nothing. *)
Theorem Cleanup_count (w : World) (t : Z) :
  (forall n, (tick w <= n)%nat -> clock w n = t) ->
  let r := Cleanup w in
  r.1 = Z.of_nat (size (index w)) - Z.of_nat (size (index r.2))
  /\ 0 <= r.1
  /\ heap r.2 = heap w
  /\ (forall key conv,
        index r.2 !! key = Some conv
        <-> index w !! key = Some conv
            /\ Conversation.expiredAt t (heap w conv) = false)
  /\ (Cleanup r.2).1 = 0
  /\ index (Cleanup r.2).2 = index r.2.
Proof.
  intros Hclock r.
  assert (Hlook : forall w0, (forall n, (tick w0 <= n)%nat -> clock w0 n = t) ->
            forall key conv,
              index (Cleanup w0).2 !! key = Some conv
              <-> index w0 !! key = Some conv
                  /\ Conversation.expiredAt t (heap w0 conv) = false).
  { intros w0 H0 key conv. rewrite (Cleanup_spec w0 t H0 key).
    destruct (index w0 !! key) as [c0|]; [|split; [discriminate|intros [? _]; discriminate]].
    destruct (Conversation.expiredAt t (heap w0 c0)) eqn:He.
    - split; [discriminate|]. intros [[= ->] H]. congruence.
    - split; [intros [= ->]; split; [reflexivity|exact He]|intros [H _]; exact H]. }
  assert (Hidx : forall w0, (forall n, (tick w0 <= n)%nat -> clock w0 n = t) ->
            index (Cleanup w0).2
            = filter (fun en => ¬ expiredEntry (heap w0) t en = true) (index w0)).
  { intros w0 H0. apply map_eq. intros key. apply option_eq. intros conv.
    rewrite (Hlook w0 H0), map_lookup_filter_Some. unfold expiredEntry. cbn [snd].
    split; intros [H1 H2]; (split; [exact H1|]).
    - congruence.
    - destruct (Conversation.expiredAt t (heap w0 conv)); [contradiction|reflexivity]. }
  assert (Hcount : forall w0, (forall n, (tick w0 <= n)%nat -> clock w0 n = t) ->
            (Cleanup w0).1
            = Z.of_nat (size (index w0)) - Z.of_nat (size (index (Cleanup w0).2))).
  { intros w0 H0. rewrite (Hidx w0 H0), size_filter_list.
    unfold Cleanup, bind, getManager.
    destruct (Cleanup_loop_spec t (map_to_list (index w0)) w0 0 H0) as (Hc & _).
    rewrite Hc, <- (length_map_to_list (index w0)).
    pose proof (filter_app_complement
                  (fun en => expiredEntry (heap w0) t en = true)
                  (map_to_list (index w0))) as Hp.
    apply Permutation_length in Hp. rewrite length_app in Hp. lia. }
  assert (Hheap : heap r.2 = heap w).
  { unfold r, Cleanup, bind, getManager.
    exact (proj1 (proj2 (Cleanup_loop_spec t (map_to_list (index w)) w 0 Hclock))). }
  assert (Hclock2 : forall n, (tick r.2 <= n)%nat -> clock r.2 n = t).
  { unfold r, Cleanup, bind, getManager.
    destruct (Cleanup_loop_frame (map_to_list (index w)) w 0) as [Hc Ht].
    intros n Hn. rewrite Hc. apply Hclock. lia. }
  assert (Hsame : index (Cleanup r.2).2 = index r.2).
  { apply map_eq. intros key. apply option_eq. intros conv.
    rewrite (Hlook r.2 Hclock2). split; [intros [H _]; exact H|].
    intros H. split; [exact H|]. rewrite Hheap.
    apply (Hlook w Hclock) in H. exact (proj2 H). }
  split; [exact (Hcount w Hclock)|]. split.
  { unfold r, Cleanup, bind, getManager.
    destruct (Cleanup_loop_spec t (map_to_list (index w)) w 0 Hclock) as (Hc & _).
    rewrite Hc. lia. }
  split; [exact Hheap|]. split; [exact (Hlook w Hclock)|].
  split; [|exact Hsame].
  rewrite (Hcount r.2 Hclock2), Hsame. lia.
Qed.

Lemma Cleanup_count_witness :
  (forall n, (tick frozenWorld <= n)%nat -> clock frozenWorld n = 1000000000)
  /\ (Cleanup frozenWorld).1 = 1
  /\ index (Cleanup frozenWorld).2 = ∅.
Proof.
  split; [intros n _; reflexivity|].
  pose proof (Cleanup_count frozenWorld 1000000000 (fun n _ => eq_refl)) as H.
  cbv zeta in H. destruct H as (Hcount & _ & _ & _ & _ & _).
  split; [rewrite Hcount|]; vm_compute; reflexivity.
Defined.

(** X8: a manager built by [NewManager] has a positive default TTL, and
    with a positive default TTL every session that [Start] creates
    expires after the instant of its creation, whatever [ttl] is given:
    a [Get] whose reading of the clock is not past [ExpiresAt] returns
    it. *)
Theorem Start_not_born_expired
    (w : World) (userID chatID topicID : Z) (flowID initialStep : string) (ttl : Z) :
  0 < Manager.defaultTTL (manager w) ->
  let r := Start userID chatID topicID flowID initialStep ttl w in
  (forall d, 0 < Manager.defaultTTL (Manager.New d))
  /\ Conversation.CreatedAt (heap r.2 r.1) = clock w (tick w)
  /\ Conversation.CreatedAt (heap r.2 r.1) < Conversation.ExpiresAt (heap r.2 r.1)
  /\ (clock w (S (tick w)) <= Conversation.ExpiresAt (heap r.2 r.1) ->
      (Get userID chatID r.2).1 = Some r.1).
Proof.
  intros Hd r. unfold r. rewrite Start_world.
  cbn [fst snd heap]. rewrite decide_True by reflexivity.
  cbn [Conversation.New Conversation.CreatedAt Conversation.ExpiresAt].
  split; [|split; [reflexivity|split]].
  - intros d. unfold Manager.New. cbn [Manager.defaultTTL].
    destruct (d <=? 0) eqn:E; lia.
  - destruct (ttl <=? 0) eqn:E; lia.
  - intros Hle.
    rewrite (Get_stored _ userID chatID (nextLoc w)) by (cbn; apply lookup_insert_eq).
    cbn [clock tick heap]. rewrite decide_True by reflexivity.
    unfold Conversation.expiredAt.
    cbn [Conversation.New Conversation.ExpiresAt].
    destruct (_ <? _) eqn:E; [lia|reflexivity].
Qed.

Lemma Start_not_born_expired_witness :
  0 < Manager.defaultTTL (manager sampleWorld)
  /\ Conversation.CreatedAt (heap liveWorld 0%nat)
     < Conversation.ExpiresAt (heap liveWorld 0%nat).
Proof.
  split; [reflexivity|].
  exact (proj1 (proj2 (proj2
    (Start_not_born_expired sampleWorld 1 2 0 "f" "s" 0 eq_refl)))).
Defined.

(** X9: [Refresh] moves the expiry to its own reading of the clock plus
    [ttl] and stamps [UpdatedAt] with a second reading; afterwards [Get]
    returns the session exactly when its reading is not past the new
    expiry. Nothing else of the session changes. *)
Theorem conv_Refresh_Get (w : World) (userID chatID : Z) (conv : loc) (ttl : Z) :
  index w !! conversationKey userID chatID = Some conv ->
  let w' := (conv_Refresh conv ttl w).2 in
  Conversation.ExpiresAt (heap w' conv) = clock w (tick w) + ttl
  /\ Conversation.UpdatedAt (heap w' conv) = clock w (S (tick w))
  /\ Conversation.StepID (heap w' conv) = Conversation.StepID (heap w conv)
  /\ Conversation.Data (heap w' conv) = Conversation.Data (heap w conv)
  /\ Conversation.History (heap w' conv) = Conversation.History (heap w conv)
  /\ (Get userID chatID w').1
     = (if clock w (tick w) + ttl <? clock w (S (S (tick w))) then None else Some conv).
Proof.
  intros Hstored w'.
  unfold w'. remember (conv_Refresh conv ttl w) as r eqn:H.
  run_in H. rewrite H. clear H. cbn [snd heap].
  rewrite !decide_True by reflexivity.
  repeat split.
  rewrite (Get_stored _ userID chatID conv) by exact Hstored.
  cbn [clock tick heap]. rewrite !decide_True by reflexivity.
  unfold Conversation.expiredAt.
  cbn [Conversation.with_UpdatedAt Conversation.with_ExpiresAt Conversation.ExpiresAt].
  destruct (_ <? _); reflexivity.
Qed.

Lemma conv_Refresh_Get_witness :
  index liveWorld !! conversationKey 1 2 = Some 0%nat
  /\ Conversation.ExpiresAt (heap (conv_Refresh 0%nat 7 liveWorld).2 0%nat)
     = clock liveWorld (tick liveWorld) + 7.
Proof.
  split; [reflexivity|].
  exact (proj1 (conv_Refresh_Get liveWorld 1 2 0%nat 7 eq_refl)).
Defined.


(* ================================================================== *)
(** * The engine and the configuration: further properties *)
(* ================================================================== *)

Section EngineProperties.

Variable float64 : Type.
Variable ParseFloat : string -> option float64.
Variable float_lt : float64 -> float64 -> bool.
Variable MatchString : string -> string -> option bool.

(** X10: a [number] rule accepts an input exactly when the input parses
    as a number that is not below the minimum and not above the maximum,
    where a bound that is empty or does not parse is no bound at all. *)
Theorem validateNumber_accepts
    (e : FlowEngine.t) (input : string) (validation : ValidationConfig.t) :
  validateNumber float64 ParseFloat float_lt e input validation = None
  <-> exists num,
        ParseFloat input = Some num
        /\ (forall min, ValidationConfig.Min validation <> EmptyString ->
                        ParseFloat (ValidationConfig.Min validation) = Some min ->
                        float_lt num min = false)
        /\ (forall max, ValidationConfig.Max validation <> EmptyString ->
                        ParseFloat (ValidationConfig.Max validation) = Some max ->
                        float_lt max num = false).
Proof.
  unfold validateNumber. split.
  - destruct (ParseFloat input) as [num|]; [|discriminate].
    intros H. exists num. split; [reflexivity|].
    destruct (String.eqb_spec (ValidationConfig.Min validation) EmptyString) as [Emin|Emin];
      cbn [negb] in H.
    + destruct (String.eqb_spec (ValidationConfig.Max validation) EmptyString) as [Emax|Emax];
        cbn [negb] in H.
      * split; intros b Hb; congruence.
      * split; [intros b Hb; congruence|]. intros max _ Hmax. rewrite Hmax in H.
        destruct (float_lt max num); [discriminate|reflexivity].
    + destruct (ParseFloat (ValidationConfig.Min validation)) as [min|] eqn:Pmin.
      * destruct (float_lt num min) eqn:Lmin; [discriminate|].
        destruct (String.eqb_spec (ValidationConfig.Max validation) EmptyString)
          as [Emax|Emax]; cbn [negb] in H.
        -- split; [intros b _ [= <-]; exact Lmin|intros b Hb; congruence].
        -- split; [intros b _ [= <-]; exact Lmin|].
           intros max _ Hmax. rewrite Hmax in H.
           destruct (float_lt max num); [discriminate|reflexivity].
      * destruct (String.eqb_spec (ValidationConfig.Max validation) EmptyString)
          as [Emax|Emax]; cbn [negb] in H.
        -- split; intros b Hb; congruence.
        -- split; [intros b _; discriminate|].
           intros max _ Hmax. rewrite Hmax in H.
           destruct (float_lt max num); [discriminate|reflexivity].
  - intros (num & -> & Hmin & Hmax).
    assert (Elow : (if negb (String.eqb (ValidationConfig.Min validation) EmptyString)
                    then match ParseFloat (ValidationConfig.Min validation) with
                         | Some min => float_lt num min
                         | None => false
                         end
                    else false) = false).
    { destruct (String.eqb_spec (ValidationConfig.Min validation) EmptyString) as [E|E];
        [reflexivity|]. cbn [negb].
      destruct (ParseFloat (ValidationConfig.Min validation)) as [min|] eqn:P;
        [|reflexivity]. apply (Hmin min E eq_refl). }
    assert (Ehigh : (if negb (String.eqb (ValidationConfig.Max validation) EmptyString)
                     then match ParseFloat (ValidationConfig.Max validation) with
                          | Some max => float_lt max num
                          | None => false
                          end
                     else false) = false).
    { destruct (String.eqb_spec (ValidationConfig.Max validation) EmptyString) as [E|E];
        [reflexivity|]. cbn [negb].
      destruct (ParseFloat (ValidationConfig.Max validation)) as [max|] eqn:P;
        [|reflexivity]. apply (Hmax max E eq_refl). }
    rewrite Elow, Ehigh. reflexivity.
Qed.

(** X11: a [regex] rule with an empty pattern accepts every input, and
    otherwise accepts exactly the inputs the pattern matches; a pattern
    that does not compile rejects every input with a fixed message that
    the configured [ErrorMsg] does not replace. An [email] rule accepts
    exactly the inputs that match the fixed pattern. *)
Theorem validateRegex_accepts
    (e : FlowEngine.t) (input : string) (validation : ValidationConfig.t) :
  (validateRegex MatchString e input validation = None
   <-> ValidationConfig.Pattern validation = EmptyString
       \/ MatchString (ValidationConfig.Pattern validation) input = Some true)
  /\ (ValidationConfig.Pattern validation <> EmptyString ->
      MatchString (ValidationConfig.Pattern validation) input = None ->
      validateRegex MatchString e input validation
      = Some "Validation rule configuration error")
  /\ (validateEmail MatchString e input validation = None
      <-> MatchString emailPattern input = Some true).
Proof.
  unfold validateRegex, validateEmail. split; [|split].
  - destruct (String.eqb_spec (ValidationConfig.Pattern validation) EmptyString) as [E|E].
    + split; [intros _; left; exact E|reflexivity].
    + destruct (MatchString (ValidationConfig.Pattern validation) input) as [[|]|];
        cbn [negb]; split; try discriminate; try reflexivity;
        try (intros _; right; reflexivity);
        intros [H|H]; congruence.
  - intros E H. apply String.eqb_neq in E. rewrite E, H. reflexivity.
  - destruct (MatchString emailPattern input) as [[|]|]; cbn [negb];
      split; try discriminate; reflexivity.
Qed.

(** X12: when a message is configured for a rule, that message is what
    every rejection by a [number], [address] or [email] rule carries,
    and what a [regex] rule carries unless its pattern does not compile;
    with or without a configured message no built-in rule rejects with
    an empty message. *)
Theorem configured_message
    (e : FlowEngine.t) (input : string) (validation : ValidationConfig.t)
    (msg : string) :
  validateNumber float64 ParseFloat float_lt e input validation = Some msg
  \/ validateAddress e input validation = Some msg
  \/ validateEmail MatchString e input validation = Some msg
  \/ (validateRegex MatchString e input validation = Some msg
      /\ MatchString (ValidationConfig.Pattern validation) input <> None) ->
  msg <> EmptyString
  /\ (ValidationConfig.ErrorMsg validation <> EmptyString ->
      msg = ValidationConfig.ErrorMsg validation).
Proof.
  assert (Hmsg : forall d, d <> EmptyString ->
            getErrorMsg (ValidationConfig.ErrorMsg validation) d <> EmptyString
            /\ (ValidationConfig.ErrorMsg validation <> EmptyString ->
                getErrorMsg (ValidationConfig.ErrorMsg validation) d
                = ValidationConfig.ErrorMsg validation)).
  { intros d Hd. unfold getErrorMsg.
    destruct (String.eqb_spec (ValidationConfig.ErrorMsg validation) EmptyString) as [E|E].
    - split; [exact Hd|]. intros H. contradiction.
    - split; [exact E|]. reflexivity. }
  intros [H|[H|[H|[H Hc]]]].
  - unfold validateNumber in H.
    destruct (ParseFloat input) as [num|].
    + destruct (if negb (String.eqb (ValidationConfig.Min validation) EmptyString)
                then _ else false).
      * injection H as <-. apply Hmsg. discriminate.
      * destruct (if negb (String.eqb (ValidationConfig.Max validation) EmptyString)
                  then _ else false); [|discriminate].
        injection H as <-. apply Hmsg. discriminate.
    + injection H as <-. apply Hmsg. discriminate.
  - unfold validateAddress in H.
    destruct (negb (String.length input =? 42)%nat
              || negb (strings.HasPrefix input "0x")).
    + injection H as <-. apply Hmsg. discriminate.
    + destruct (strconv.ParseUint (sdrop 2 input) 16 64); [discriminate|].
      revert H. generalize (utf8.runes (sdrop 2 input)).
      intros rs. induction rs as [|c rs IH]; cbn [checkHexRunes]; [discriminate|].
      destruct (negb (isHexRune c)); [|exact IH].
      intros [= <-]. apply Hmsg. discriminate.
  - unfold validateEmail in H.
    destruct (negb _); [|discriminate].
    injection H as <-. apply Hmsg. discriminate.
  - unfold validateRegex in H.
    destruct (String.eqb (ValidationConfig.Pattern validation) EmptyString);
      [discriminate|].
    destruct (MatchString (ValidationConfig.Pattern validation) input) as [m|];
      [|contradiction].
    destruct (negb m); [|discriminate].
    injection H as <-. apply Hmsg. discriminate.
Qed.

End EngineProperties.

Lemma configured_message_witness :
  "Please enter a valid number" <> EmptyString
  /\ (ValidationConfig.ErrorMsg (sampleValidation "number") <> EmptyString ->
      "Please enter a valid number"
      = ValidationConfig.ErrorMsg (sampleValidation "number")).
Proof.
  apply (configured_message unit (fun _ => None) (fun _ _ => false) (fun _ _ => None)
           (sampleEngine (sampleStep None [] EmptyString) None) "abc"
           (sampleValidation "number")).
  left. reflexivity.
Defined.

(** X13: without a registered evaluator [EvaluateCondition] is the
    built-in evaluator on every condition, the empty one included, and a
    branch condition that does not start with [input] is decided the
    same way; with an evaluator registered the empty condition is still
    true without asking it. *)
Theorem EvaluateCondition_builtin
    (e : FlowEngine.t) (conv : Conversation.t) (condition : string) :
  FlowEngine.conditionEvaluator e = None ->
  EvaluateCondition e conv condition = simpleEvaluate e conv condition
  /\ (strings.HasPrefix condition "input" = false ->
      forall input,
        evaluateBranchCondition e conv condition input
        = EvaluateCondition e conv condition)
  /\ (forall e', EvaluateCondition e' conv EmptyString = true).
Proof.
  intros He.
  assert (H : EvaluateCondition e conv condition = simpleEvaluate e conv condition).
  { unfold EvaluateCondition. rewrite He.
    destruct (String.eqb_spec condition EmptyString) as [->|_]; reflexivity. }
  split; [exact H|]. split; [|reflexivity].
  intros Hp input. rewrite H. unfold evaluateBranchCondition. rewrite Hp.
  reflexivity.
Qed.

Lemma EvaluateCondition_builtin_witness :
  EvaluateCondition (sampleEngine (sampleStep None [] EmptyString) None) sampleData
                    ("data.x == " ++ quoted "zzz")
  = simpleEvaluate (sampleEngine (sampleStep None [] EmptyString) None) sampleData
                   ("data.x == " ++ quoted "zzz").
Proof.
  exact (proj1 (EvaluateCondition_builtin
                  (sampleEngine (sampleStep None [] EmptyString) None) sampleData
                  ("data.x == " ++ quoted "zzz") eq_refl)).
Defined.

(** X14: a branch condition [k == "value"] whose key [k] starts with
    [input] is a test of the input whatever follows [input] in the key:
    the session is not read. The built-in evaluator, on the same
    condition, reads the session under [k]. *)
Theorem evaluateBranchCondition_input_prefix
    (e : FlowEngine.t) (conv : Conversation.t) (rest value input : string) :
  tidyValue value = true ->
  strings.Index ("input" ++ rest) "==" = None ->
  strings.Index value "==" = None ->
  evaluateBranchCondition e conv (("input" ++ rest) ++ " == " ++ quoted value) input
  = String.eqb input value
  /\ (tidyKey ("input" ++ rest) = true ->
      simpleEvaluate e conv (("input" ++ rest) ++ " == " ++ quoted value)
      = String.eqb (Conversation.GetString conv ("input" ++ rest)) value).
Proof.
  intros Hvalue Hk Hv.
  change (("input" ++ rest) ++ " == " ++ quoted value)%string
    with (comparison ("input" ++ rest) "==" value).
  pose proof (Split_comparison ("input" ++ rest) "==" value
                ltac:(discriminate) eq_refl eq_refl Hk Hv) as Hsplit.
  split.
  - unfold evaluateBranchCondition.
    replace (strings.HasPrefix (comparison ("input" ++ rest) "==" value) "input")
      with true by reflexivity.
    rewrite Hsplit. cbn [twoParts].
    rewrite TrimSpace_quoted, (Trim_quoted value Hvalue). reflexivity.
  - intros Hkey. unfold simpleEvaluate. rewrite Hsplit. cbn [twoParts].
    rewrite (TrimSpace_key _ Hkey), TrimSpace_quoted, (Trim_quoted value Hvalue).
    reflexivity.
Qed.

Lemma evaluateBranchCondition_input_prefix_witness :
  evaluateBranchCondition customEngine sampleData
    (("input" ++ "_kind") ++ " == " ++ quoted "zzz") "other"
  = String.eqb "other" "zzz".
Proof.
  exact (proj1 (evaluateBranchCondition_input_prefix customEngine sampleData
                  "_kind" "zzz" "other" eq_refl eq_refl eq_refl)).
Defined.


(** X16: [StartConversation] on a flow the configuration does not have
    reports an error and touches nothing: no session is created or
    ended, no hook runs and the clock is not read. On a known flow it
    returns a session that is stored under the key of the user and the
    chat, stands at the flow's [InitialStep] whether or not the flow has
    such a step, lives for [GetTTL] of the flow over the manager's
    default, and records the keyboard message only when its identifier
    is positive. *)
Theorem StartConversation_cases
    (cfg : Config.t) (userID chatID topicID : Z) (flowID : string)
    (keyboardMsgID : Z) (w : World) :
  let r := StartConversation cfg userID chatID topicID flowID keyboardMsgID w in
  match Config.GetFlow cfg flowID with
  | None => r = ((None, Some ("flow " ++ flowID ++ " does not exist")%string), w)
  | Some flow =>
    exists c,
      r.1 = (Some c, None)
      /\ index r.2 !! conversationKey userID chatID = Some c
      /\ Conversation.FlowID (heap r.2 c) = flowID
      /\ Conversation.StepID (heap r.2 c) = FlowConfig.InitialStep flow
      /\ Conversation.ExpiresAt (heap r.2 c)
         = Conversation.CreatedAt (heap r.2 c)
           + FlowConfig.GetTTL flow (Manager.defaultTTL (manager w))
      /\ Conversation.KeyboardMsgID (heap r.2 c)
         = (if 0 <? keyboardMsgID then keyboardMsgID else 0)
      /\ Conversation.Data (heap r.2 c) = ∅
      /\ Conversation.History (heap r.2 c) = []
  end.
Proof.
  intros r. unfold r. clear r.
  remember (StartConversation cfg userID chatID topicID flowID keyboardMsgID w)
    as res eqn:Hres.
  unfold StartConversation in Hres.
  destruct (Config.GetFlow cfg flowID) as [flow|]; [|exact Hres].
  exists (nextLoc w).
  unfold bind at 1 in Hres. rewrite Start_world in Hres.
  unfold bind, when, conv_SetKeyboardMsgID, modify, ret in Hres.
  assert (Httl : (if FlowConfig.TTL flow <=? 0
                  then Manager.defaultTTL (manager w) else FlowConfig.TTL flow)
                 = FlowConfig.GetTTL flow (Manager.defaultTTL (manager w))).
  { unfold FlowConfig.GetTTL.
    destruct (Z.leb_spec (FlowConfig.TTL flow) 0);
      destruct (Z.ltb_spec 0 (FlowConfig.TTL flow)); try reflexivity; lia. }
  rewrite Httl in Hres. rewrite Hres. clear Hres.
  destruct (0 <? keyboardMsgID);
    cbn [fst snd heap manager Manager.with_conversations Manager.conversations];
    rewrite ?decide_True by reflexivity;
    repeat split; try apply lookup_insert_eq.
Qed.


(* ================================================================== *)
(** * The router: further properties *)
(* ================================================================== *)

Lemma kept_refl (a : Conversation.t) : kept a a.
Proof. repeat split. Qed.

Lemma kept_trans (a b c : Conversation.t) : kept a b -> kept b c -> kept a c.
Proof.
  unfold kept. intros (A1 & A2 & A3 & A4 & A5) (B1 & B2 & B3 & B4 & B5).
  repeat split; congruence.
Qed.

Lemma navigates_refl (w : World) : navigates w w.
Proof.
  split; [intros l; apply kept_refl|]. split; [intros key; right; reflexivity|].
  split; [reflexivity|]. exists []. split; [symmetry; apply app_nil_r|reflexivity].
Qed.

Lemma navigates_trans (w1 w2 w3 : World) :
  navigates w1 w2 -> navigates w2 w3 -> navigates w1 w3.
Proof.
  intros (H1 & I1 & N1 & evs1 & T1 & Q1) (H2 & I2 & N2 & evs2 & T2 & Q2).
  split; [intros l; eapply kept_trans; [apply H1|apply H2]|].
  split.
  { intros key. destruct (I2 key) as [E|E]; [left; exact E|].
    destruct (I1 key) as [E1|E1]; [left|right]; congruence. }
  split; [congruence|].
  exists (evs1 ++ evs2). split.
  - rewrite T2, T1, app_assoc. reflexivity.
  - rewrite forallb_app, Q1, Q2. reflexivity.
Qed.

Lemma nav_ret {A : Type} (a : A) : nav (ret a).
Proof. intros w. apply navigates_refl. Qed.

Lemma nav_bind {A B : Type} (m : M A) (k : A -> M B) :
  nav m -> (forall a, nav (k a)) -> nav (bind m k).
Proof.
  intros Hm Hk w. unfold bind. specialize (Hm w).
  destruct (m w) as [a w1]. eapply navigates_trans; [exact Hm|apply Hk].
Qed.

Lemma nav_when (b : bool) (m : M unit) : nav m -> nav (when b m).
Proof. intros H. destruct b; [exact H|apply nav_ret]. Qed.

Lemma nav_emit (ev : Event) : quietEvent ev = true -> nav (emit ev).
Proof.
  intros H w. split; [intros l; apply kept_refl|].
  split; [intros key; right; reflexivity|]. split; [reflexivity|].
  exists [ev]. split; [reflexivity|]. cbn [forallb]. rewrite H. reflexivity.
Qed.

Lemma nav_silent {A : Type} (m : M A) :
  (forall w, heap (m w).2 = heap w /\ manager (m w).2 = manager w
             /\ nextLoc (m w).2 = nextLoc w /\ trace (m w).2 = trace w) ->
  nav m.
Proof.
  intros H w. destruct (H w) as (Hh & Hm & Hn & Ht).
  split; [intros l; rewrite Hh; apply kept_refl|].
  split; [intros key; right; rewrite Hm; reflexivity|]. split; [exact Hn|].
  exists []. split; [rewrite Ht; symmetry; apply app_nil_r|reflexivity].
Qed.

Lemma nav_now : nav now.
Proof. apply nav_silent. intros w. repeat split. Qed.

Lemma nav_load (c : loc) : nav (load c).
Proof. apply nav_silent. intros w. repeat split. Qed.

Lemma nav_getManager : nav getManager.
Proof. apply nav_silent. intros w. repeat split. Qed.

Lemma nav_mapLookup (key : string) : nav (mapLookup key).
Proof. apply nav_silent. intros w. repeat split. Qed.

Lemma nav_mapDelete (key : string) : nav (mapDelete key).
Proof.
  intros w. split; [intros l; apply kept_refl|]. split.
  { intros k. cbn. destruct (decide (k = key)) as [->|Hne].
    - left. apply lookup_delete_eq.
    - right. apply lookup_delete_ne. congruence. }
  split; [reflexivity|]. exists [EvMapDelete key]. split; reflexivity.
Qed.

Lemma nav_modify (c : loc) (f : Conversation.t -> Conversation.t) :
  (forall v, kept v (f v)) -> nav (modify c f).
Proof.
  intros Hf w. split.
  { intros l. cbn. destruct (decide (l = c)) as [->|_]; [apply Hf|apply kept_refl]. }
  split; [intros key; right; reflexivity|]. split; [reflexivity|].
  exists []. split; [symmetry; apply app_nil_r|reflexivity].
Qed.

Create HintDb nav.
#[local] Hint Resolve nav_ret nav_now nav_load nav_getManager nav_mapLookup
  nav_mapDelete nav_when : nav.

Lemma nav_End (userID chatID : Z) : nav (End userID chatID).
Proof.
  unfold End. apply nav_bind; [auto with nav|intros m].
  apply nav_bind; [auto with nav|intros [conv|]]; [|auto with nav].
  apply nav_bind; [auto with nav|intros _].
  apply nav_when, nav_emit. reflexivity.
Qed.

Lemma nav_Get (userID chatID : Z) : nav (Get userID chatID).
Proof.
  unfold Get. apply nav_bind; [auto with nav|intros [conv|]]; [|auto with nav].
  apply nav_bind.
  { unfold conv_IsExpired. apply nav_bind; [auto with nav|intros t].
    apply nav_bind; auto with nav. }
  intros [|]; [|auto with nav].
  apply nav_bind; [apply nav_End|auto with nav].
Qed.

Lemma nav_ChangeStep (userID chatID : Z) (newStep : string) :
  nav (ChangeStep userID chatID newStep).
Proof.
  unfold ChangeStep. apply nav_bind; [auto with nav|intros m].
  apply nav_bind; [apply nav_Get|intros [conv|]]; [|auto with nav].
  apply nav_bind; [auto with nav|intros v].
  apply nav_bind.
  { unfold conv_SetStep. apply nav_bind; [apply nav_modify; intros v0; repeat split|].
    intros _. apply nav_bind; [auto with nav|intros t].
    apply nav_modify. intros v0. repeat split. }
  intros _. apply nav_when, nav_emit. reflexivity.
Qed.

Lemma nav_displayStep (r : Router.t) (c : loc) : nav (displayStep r c).
Proof.
  unfold displayStep. destruct (Router.stepDisplayFunc r); [|auto with nav].
  apply nav_bind; [auto with nav|intros v]. apply nav_emit. reflexivity.
Qed.

Lemma nav_handleMainMenu (r : Router.t) (query : CallbackQuery) :
  nav (handleMainMenu r query).
Proof.
  unfold handleMainMenu. apply nav_bind; [apply nav_emit; reflexivity|intros _].
  apply nav_bind; [apply nav_End|intros _].
  destruct (decide _); [apply nav_emit; reflexivity|auto with nav].
Qed.

Lemma nav_handleBack (r : Router.t) (query : CallbackQuery) :
  nav (handleBack r query).
Proof.
  unfold handleBack. apply nav_bind; [apply nav_emit; reflexivity|intros _].
  apply nav_bind; [apply nav_Get|intros [c|]]; [|apply nav_handleMainMenu].
  apply nav_bind.
  { unfold conv_GetPreviousStep. apply nav_bind; auto with nav. }
  intros prevStep. destruct (negb _).
  - apply nav_bind; [apply nav_ChangeStep|intros _; apply nav_displayStep].
  - apply nav_bind; [apply nav_End|intros _; apply nav_handleMainMenu].
Qed.

(** X17: a callback whose data is one of the three navigation tokens is
    a navigation whatever is registered: no handler runs but the one of
    the main menu, no message is sent or deleted, no session is created,
    the index loses keys at most, and every session keeps its data, its
    history (the history is not popped) and its expiry. *)
Theorem handleCallback_navigation
    (r : Router.t) (code : HandlerCode) (prefixes : list string)
    (query : CallbackQuery) (w : World) :
  q_Data query = CallbackMainMenu \/ q_Data query = CallbackBack
  \/ q_Data query = CallbackCancel ->
  navigates w (handleCallback r code prefixes query w).2.
Proof.
  intros H. unfold handleCallback.
  destruct (negb (CheckAuth r (q_FromID query) (q_FromUsername query))).
  { apply nav_emit. reflexivity. }
  destruct H as [-> | [-> | ->]]; cbn [String.eqb Ascii.eqb Bool.eqb orb].
  - apply nav_handleMainMenu.
  - apply nav_handleBack.
  - apply nav_handleBack.
Qed.

Lemma handleCallback_navigation_witness :
  navigates worldF (handleCallback (routerF None) idleCode ["ba"] backQuery worldF).2.
Proof.
  apply (handleCallback_navigation (routerF None) idleCode ["ba"] backQuery worldF).
  right. left. reflexivity.
Defined.

(** X18: after [handleMainMenu] the user has no session in the chat,
    whether there was one or not; the sessions themselves and the other
    keys of the index are as before. *)
Theorem handleMainMenu_ends_session
    (r : Router.t) (query : CallbackQuery) (w : World) :
  let key := conversationKey (q_FromID query) (q_ChatID query) in
  let w' := (handleMainMenu r query w).2 in
  index w' !! key = None
  /\ (forall key', key' <> key -> index w' !! key' = index w !! key')
  /\ heap w' = heap w
  /\ (Get (q_FromID query) (q_ChatID query) w').1 = None.
Proof.
  intros key w'.
  assert (Hw : index w' = delete key (index w) /\ heap w' = heap w).
  { unfold w'. remember (handleMainMenu r query w) as res eqn:Hres.
    unfold handleMainMenu, bind at 1, emit at 1 in Hres. unfold bind at 1 in Hres.
    destruct (index w !! key) as [c|] eqn:E.
    - rewrite (End_stored _ (q_FromID query) (q_ChatID query) c) in Hres by exact E.
      destruct (decide _); rewrite Hres; split; reflexivity.
    - rewrite End_absent in Hres by exact E.
      destruct (decide _); rewrite Hres; (split; [|reflexivity]); cbn;
        symmetry; apply delete_id; exact E. }
  destruct Hw as [Hi Hh].
  assert (Hnone : index w' !! key = None) by (rewrite Hi; apply lookup_delete_eq).
  split; [exact Hnone|]. split; [|split; [exact Hh|]].
  - intros key' Hne. rewrite Hi. apply lookup_delete_ne. congruence.
  - rewrite (Get_absent w' _ _ Hnone). reflexivity.
Qed.

(** X19: the token [cancel] is handled as [back]: on a session with a
    previous step that is alive at both readings of the clock it does
    not end the session but moves it to that step, keeps the history
    as it is, and displays the step. *)
Theorem handleCallback_cancel_is_back
    (r : Router.t) (code : HandlerCode) (prefixes : list string) (qid uname : string)
    (userID chatID : Z) (c : loc) (w : World) :
  CheckAuth r userID uname = true ->
  index w !! conversationKey userID chatID = Some c ->
  Conversation.expiredAt (clock w (tick w)) (heap w c) = false ->
  Conversation.expiredAt (clock w (S (tick w))) (heap w c) = false ->
  Conversation.GetPreviousStep (heap w c) <> EmptyString ->
  let cancel := mkCallbackQuery qid userID uname chatID CallbackCancel in
  let back := mkCallbackQuery qid userID uname chatID CallbackBack in
  let w' := (handleCallback r code prefixes cancel w).2 in
  handleCallback r code prefixes cancel w = handleCallback r code prefixes back w
  /\ index w' !! conversationKey userID chatID = Some c
  /\ Conversation.StepID (heap w' c) = Conversation.GetPreviousStep (heap w c)
  /\ Conversation.History (heap w' c) = Conversation.History (heap w c)
  /\ trace w'
     = trace w ++ [EvAnswerCallback qid EmptyString]
       ++ (if Manager.onStepChange (manager w)
           then [EvOnStepChange c (Conversation.StepID (heap w c))
                                (Conversation.GetPreviousStep (heap w c))]
           else [])
       ++ (if Router.stepDisplayFunc r
           then [EvDisplayStep c (Conversation.GetPreviousStep (heap w c))]
           else []).
Proof.
  intros Hauth Hstored Hlive1 Hlive2 Hprev cancel back w'.
  split.
  { unfold handleCallback, cancel, back. cbn [q_FromID q_FromUsername q_Data].
    rewrite Hauth. reflexivity. }
  remember (handleCallback r code prefixes cancel w) as res eqn:Hres.
  unfold handleCallback, cancel in Hres. cbn [q_FromID q_FromUsername q_Data] in Hres.
  rewrite Hauth in Hres.
  cbn [negb CallbackCancel CallbackMainMenu CallbackBack String.eqb Ascii.eqb
       Bool.eqb orb] in Hres.
  unfold handleBack, bind at 1, emit at 1 in Hres. unfold bind at 1 in Hres.
  cbn [q_FromID q_ChatID q_ID] in Hres.
  rewrite (Get_stored _ userID chatID c) in Hres by exact Hstored.
  cbn [clock tick heap] in Hres. rewrite Hlive1 in Hres.
  unfold conv_GetPreviousStep, bind at 1, load, bind at 1, ret in Hres.
  cbn [heap ticked] in Hres.
  apply String.eqb_neq in Hprev. rewrite Hprev in Hres. cbn [negb] in Hres.
  unfold bind at 1 in Hres.
  match type of Hres with
  | context [ChangeStep userID chatID ?s ?w0] =>
    pose proof (ChangeStep_live w0 userID chatID s c Hstored Hlive2) as HC;
    destruct (ChangeStep userID chatID s w0) as [[] w2] eqn:E
  end.
  cbn [snd] in HC. destruct HC as (Hheap & Hmgr & _ & _ & _ & Htrace).
  unfold ticked in Hheap, Hmgr, Htrace.
  cbn [heap manager trace tick clock] in Hheap, Hmgr, Htrace.
  assert (Hc : heap w2 c
               = Conversation.with_UpdatedAt (clock w (S (S (tick w))))
                   (Conversation.with_StepID (Conversation.GetPreviousStep (heap w c))
                      (heap w c))).
  { rewrite (Hheap c), decide_True by reflexivity. reflexivity. }
  unfold w'. rewrite Hres. clear Hres. unfold displayStep.
  destruct (Router.stepDisplayFunc r);
    unfold bind, load, emit, ret; cbn [snd heap manager trace];
    rewrite ?Hc, ?Hmgr, ?Htrace; cbn [Conversation.StepID Conversation.with_UpdatedAt
      Conversation.with_StepID Conversation.History];
    repeat split; try exact Hstored;
    destruct (Manager.onStepChange (manager w)); cbn [app];
    rewrite <- ?app_assoc; reflexivity.
Qed.

Lemma handleCallback_cancel_is_back_witness :
  index (handleCallback (routerF None) idleCode []
           (mkCallbackQuery "q1" 1 "alice" 2 CallbackCancel)
           worldAB).2 !! conversationKey 1 2 = Some 0%nat
  /\ Conversation.StepID
       (heap (handleCallback (routerF None) idleCode []
                (mkCallbackQuery "q1" 1 "alice" 2 CallbackCancel) worldAB).2 0%nat)
     = "A".
Proof.
  destruct (handleCallback_cancel_is_back (routerF None) idleCode [] "q1" "alice" 1 2
              0%nat worldAB)
    as (_ & Hi & Hs & _);
    [reflexivity|vm_compute; reflexivity|vm_compute; reflexivity
    |vm_compute; reflexivity|vm_compute; discriminate|].
  split; [exact Hi|]. rewrite Hs. vm_compute. reflexivity.
Defined.

(** The tail of the two input handlers: the next step is determined and,
    when there is one, the session is moved and displayed. *)
Lemma nav_advance (r : Router.t) (c : loc) (userID : Z) (input : string) :
  nav (v2 <- load c ;;
       let nextStep := DetermineNextStep (Router.flowEngine r) v2 input in
       if negb (String.eqb nextStep EmptyString) then
         ChangeStep userID (Conversation.ChatID v2) nextStep ;;;
         displayStep r c
       else ret tt).
Proof.
  apply nav_bind; [apply nav_load|intros v2]. cbv zeta.
  destruct (negb _); [|apply nav_ret].
  apply nav_bind; [apply nav_ChangeStep|intros _; apply nav_displayStep].
Qed.

Section RouterInput.

Variable float64 : Type.
Variable ParseFloat : string -> option float64.
Variable float_lt : float64 -> float64 -> bool.
Variable MatchString : string -> string -> option bool.

(** X20: a text that the step accepts and the rule does not reject is
    recorded before anything else happens: stored as a string under
    [StoreAs] when that is set (so [GetString] reads it back and [GetInt]
    reads 0, also for a text of digits), appended to the history with
    the step it answered, and the message is deleted; what follows is a
    navigation. The expiry of the session is not extended, and no other
    session changes its data. *)
Theorem handleConversationMessage_accepted
    (r : Router.t) (msg : Message) (c : loc) (w : World) (step : StepConfig.t) :
  GetStep (Router.flowEngine r) (Conversation.FlowID (heap w c))
          (Conversation.StepID (heap w c)) = Some step ->
  StepConfig.InputType step = InputTypeText
  \/ StepConfig.InputType step = InputTypeAny ->
  ValidateInput float64 ParseFloat float_lt MatchString (Router.flowEngine r)
                (heap w c) (msg_Text msg) = None ->
  StepConfig.OnComplete step = EmptyString ->
  let w' := (handleConversationMessage float64 ParseFloat float_lt MatchString
               r msg c w).2 in
  let stored := negb (String.eqb (StepConfig.StoreAs step) EmptyString) in
  Conversation.Data (heap w' c)
  = (if stored
     then <[StepConfig.StoreAs step := VString (msg_Text msg)]>
            (Conversation.Data (heap w c))
     else Conversation.Data (heap w c))
  /\ Conversation.History (heap w' c)
     = Conversation.History (heap w c)
       ++ [mkHistoryEntry (Conversation.StepID (heap w c)) (msg_Text msg)
             (clock w (if stored then S (tick w) else tick w))]
  /\ Conversation.ExpiresAt (heap w' c) = Conversation.ExpiresAt (heap w c)
  /\ (stored = true ->
      Conversation.GetString (heap w' c) (StepConfig.StoreAs step) = msg_Text msg
      /\ forall unrepresentable,
           GetInt unrepresentable (heap w' c) (StepConfig.StoreAs step) = 0)
  /\ (forall l, l <> c -> kept (heap w l) (heap w' l))
  /\ exists evs,
       trace w' = trace w ++ EvDeleteMessage (msg_ChatID msg) (msg_MessageID msg) :: evs
       /\ forallb quietEvent evs = true.
Proof.
  intros Hstep Hkind Hval Hoc w' stored.
  assert (Hk : negb (String.eqb (StepConfig.InputType step) InputTypeText)
               && negb (String.eqb (StepConfig.InputType step) InputTypeAny) = false).
  { destruct Hkind as [-> | ->]; reflexivity. }
  remember (handleConversationMessage float64 ParseFloat float_lt MatchString r msg c w)
    as res eqn:Hres.
  unfold handleConversationMessage, bind at 1, load in Hres.
  rewrite Hstep, Hk, Hval, Hoc in Hres. cbn [String.eqb negb] in Hres.
  match type of Hres with
  | context [bind (emit (EvDeleteMessage _ _)) ?k] => set (K := k) in Hres
  end.
  assert (HK : nav (K tt)) by apply nav_advance.
  fold stored in Hres. unfold w'. clear w'.
  destruct stored eqn:Es; run_in Hres; run_in Hres;
    match type of Hres with
    | res = K tt ?w1 =>
      destruct (HK w1) as (Hkept & _ & _ & evs & Htrace & Hquiet)
    end;
    rewrite <- Hres in Hkept, Htrace; clear Hres;
    cbn [heap trace] in Hkept, Htrace;
    pose proof (Hkept c) as (Hd & Hh & He & _);
    rewrite !decide_True in Hd, Hh, He by reflexivity;
    cbn [Conversation.Data Conversation.History Conversation.ExpiresAt
         Conversation.StepID Conversation.with_Data Conversation.with_History
         Conversation.with_UpdatedAt] in Hd, Hh, He.
  - split; [exact Hd|]. split; [exact Hh|]. split; [exact He|]. split.
    { intros _. unfold Conversation.GetString, GetInt, Conversation.Get.
      rewrite Hd, lookup_insert_eq. split; [reflexivity|]. intros u. reflexivity. }
    split.
    { intros l Hl. specialize (Hkept l).
      rewrite !decide_False in Hkept by exact Hl. exact Hkept. }
    exists evs. split; [|exact Hquiet].
    rewrite Htrace, <- app_assoc. reflexivity.
  - split; [exact Hd|]. split; [exact Hh|]. split; [exact He|]. split.
    { intros H. discriminate. }
    split.
    { intros l Hl. specialize (Hkept l).
      rewrite !decide_False in Hkept by exact Hl. exact Hkept. }
    exists evs. split; [|exact Hquiet].
    rewrite Htrace, <- app_assoc. reflexivity.
Qed.

(** X21: when the step names a completion handler the router records
    the text and runs that handler, and that is all. The handler is
    given the pointer to the session in a world where the text is stored
    as a string under [StoreAs] when that is set, the history has one
    more entry with the step the text answered, the session is at the
    same step with the same expiry, the other sessions and the index are
    as before and the message is deleted. The world the handler leaves is
    the final one: its error is dropped, and neither the branches nor the
    next step of the step are consulted. With no handler registered under
    the name nothing more happens: the session stays at its step, the
    text consumed. *)
Theorem handleConversationMessage_OnComplete
    (r : Router.t) (msg : Message) (c : loc) (w : World) (step : StepConfig.t) :
  GetStep (Router.flowEngine r) (Conversation.FlowID (heap w c))
          (Conversation.StepID (heap w c)) = Some step ->
  StepConfig.InputType step = InputTypeText
  \/ StepConfig.InputType step = InputTypeAny ->
  ValidateInput float64 ParseFloat float_lt MatchString (Router.flowEngine r)
                (heap w c) (msg_Text msg) = None ->
  StepConfig.OnComplete step <> EmptyString ->
  let stored := negb (String.eqb (StepConfig.StoreAs step) EmptyString) in
  exists w1,
    handleConversationMessage float64 ParseFloat float_lt MatchString r msg c w
    = (tt, match GetStepHandler (Router.flowEngine r) (StepConfig.OnComplete step) with
           | Some handler =>
             (handler c (emit (EvStepHandler (StepConfig.OnComplete step) c) w1).2).2
           | None => w1
           end)
    /\ Conversation.Data (heap w1 c)
       = (if stored
          then <[StepConfig.StoreAs step := VString (msg_Text msg)]>
                 (Conversation.Data (heap w c))
          else Conversation.Data (heap w c))
    /\ Conversation.History (heap w1 c)
       = Conversation.History (heap w c)
         ++ [mkHistoryEntry (Conversation.StepID (heap w c)) (msg_Text msg)
               (clock w (if stored then S (tick w) else tick w))]
    /\ Conversation.StepID (heap w1 c) = Conversation.StepID (heap w c)
    /\ Conversation.ExpiresAt (heap w1 c) = Conversation.ExpiresAt (heap w c)
    /\ (forall l, l <> c -> heap w1 l = heap w l)
    /\ manager w1 = manager w
    /\ nextLoc w1 = nextLoc w
    /\ trace w1 = trace w ++ [EvDeleteMessage (msg_ChatID msg) (msg_MessageID msg)].
Proof.
  intros Hstep Hkind Hval Hoc stored.
  assert (Hk : negb (String.eqb (StepConfig.InputType step) InputTypeText)
               && negb (String.eqb (StepConfig.InputType step) InputTypeAny) = false).
  { destruct Hkind as [-> | ->]; reflexivity. }
  remember (handleConversationMessage float64 ParseFloat float_lt MatchString r msg c w)
    as res eqn:Hres.
  unfold handleConversationMessage, bind at 1, load in Hres.
  rewrite Hstep, Hk, Hval in Hres.
  apply String.eqb_neq in Hoc. rewrite Hoc in Hres. cbn [negb] in Hres.
  unfold ExecuteStepHandler in Hres. fold stored in Hres.
  set (record :=
         when stored (conv_Set c (StepConfig.StoreAs step) (VString (msg_Text msg))) ;;;
         v1 <- load c ;;
         conv_AddHistory c (Conversation.StepID v1) (msg_Text msg) ;;;
         emit (EvDeleteMessage (msg_ChatID msg) (msg_MessageID msg))).
  exists (record w).2. split.
  { rewrite Hres. unfold record, bind, load.
    destruct (when stored _ w) as [[] wa].
    destruct (conv_AddHistory c _ _ wa) as [[] wb].
    destruct (emit _ wb) as [[] wd]. cbn [snd].
    destruct (GetStepHandler (Router.flowEngine r) (StepConfig.OnComplete step))
      as [handler|]; [|reflexivity].
    destruct (emit _ wd) as [[] we]. cbn [snd].
    destruct (handler c we). reflexivity. }
  clear Hres. remember (record w) as w1 eqn:Hw1. unfold record in Hw1.
  destruct stored; run_in Hw1; run_in Hw1; rewrite Hw1;
    cbn [snd heap manager trace nextLoc]; rewrite !decide_True by reflexivity;
    cbn [Conversation.Data Conversation.History Conversation.StepID
         Conversation.ExpiresAt Conversation.with_Data Conversation.with_History
         Conversation.with_UpdatedAt];
    repeat (split; [reflexivity|]);
    (split; [intros l Hl; rewrite !decide_False by exact Hl; reflexivity|]);
    repeat (split; [reflexivity|]); reflexivity.
Qed.

(** X22: a text for a session whose step is not in the configuration, or
    whose step does not take text, is dropped: nothing is stored, nothing
    is sent, the message is not deleted. *)
Theorem handleConversationMessage_ignored
    (r : Router.t) (msg : Message) (c : loc) (w : World) :
  (forall step,
     GetStep (Router.flowEngine r) (Conversation.FlowID (heap w c))
             (Conversation.StepID (heap w c)) = Some step ->
     StepConfig.InputType step <> InputTypeText
     /\ StepConfig.InputType step <> InputTypeAny) ->
  handleConversationMessage float64 ParseFloat float_lt MatchString r msg c w = (tt, w).
Proof.
  intros H. unfold handleConversationMessage, bind, load.
  destruct (GetStep _ _ _) as [step|]; [|reflexivity].
  destruct (H step eq_refl) as [H1 H2].
  apply String.eqb_neq in H1, H2. rewrite H1, H2. reflexivity.
Qed.

End RouterInput.

Lemma handleConversationMessage_accepted_witness :
  Conversation.GetString
    (heap (handleConversationMessage unit (fun _ => None) (fun _ _ => false)
             (fun _ _ => None) (routerF None) (textMessage "42") 0%nat worldF).2 0%nat)
    "name" = "42"
  /\ GetInt (fun _ => 0)
       (heap (handleConversationMessage unit (fun _ => None) (fun _ _ => false)
                (fun _ _ => None) (routerF None) (textMessage "42") 0%nat worldF).2 0%nat)
       "name" = 0.
Proof.
  destruct (handleConversationMessage_accepted unit (fun _ => None) (fun _ _ => false)
              (fun _ _ => None) (routerF None) (textMessage "42") 0%nat worldF
              (stepA None))
    as (_ & _ & _ & Hs & _);
    [reflexivity|left; reflexivity|reflexivity|reflexivity|].
  destruct (Hs eq_refl) as [Hstring Hint].
  split; [exact Hstring|exact (Hint (fun _ => 0))].
Defined.

Lemma handleConversationMessage_OnComplete_witness :
  Conversation.GetString
    (heap (handleConversationMessage unit (fun _ => None) (fun _ _ => false)
             (fun _ _ => None) routerDone (textMessage "Alice") 0%nat worldF).2 0%nat)
    "name" = "Alice"
  /\ Conversation.Get
       (heap (handleConversationMessage unit (fun _ => None) (fun _ _ => false)
                (fun _ _ => None) routerDone (textMessage "Alice") 0%nat worldF).2 0%nat)
       "done" = Some (VBool true)
  /\ Conversation.StepID
       (heap (handleConversationMessage unit (fun _ => None) (fun _ _ => false)
                (fun _ _ => None) routerDone (textMessage "Alice") 0%nat worldF).2 0%nat)
     = "A".
Proof.
  destruct (handleConversationMessage_OnComplete unit (fun _ => None) (fun _ _ => false)
              (fun _ _ => None) routerDone (textMessage "Alice") 0%nat worldF
              (StepConfig.mk "A" EmptyString InputTypeText None "B" [] EmptyString "finish" "name" EmptyString))
    as (w1 & Hrun & Hd & _ & Hs & _);
    [reflexivity|left; reflexivity|reflexivity|discriminate|].
  rewrite Hrun.
  change (GetStepHandler (Router.flowEngine routerDone)
            (StepConfig.OnComplete
               (StepConfig.mk "A" EmptyString InputTypeText None "B" [] EmptyString "finish" "name" EmptyString)))
    with (Some (fun c : loc => conv_Set c "done" (VBool true) ;;; ret (Some "failed"))).
  run. rewrite !decide_True by reflexivity.
  unfold Conversation.GetString, Conversation.Get.
  cbn [Conversation.Data Conversation.StepID Conversation.with_Data
       Conversation.with_UpdatedAt].
  rewrite Hd, Hs. cbn [StepConfig.StoreAs negb String.eqb].
  split; [|split; [apply lookup_insert_eq|reflexivity]].
  rewrite lookup_insert_ne by discriminate. rewrite lookup_insert_eq. reflexivity.
Defined.

Lemma handleConversationMessage_ignored_witness :
  handleConversationMessage unit (fun _ => None) (fun _ _ => false) (fun _ _ => None)
    (routerF None) (textMessage "hello") 0%nat sampleWorld
  = (tt, sampleWorld).
Proof.
  apply (handleConversationMessage_ignored unit (fun _ => None) (fun _ _ => false)
           (fun _ _ => None) (routerF None) (textMessage "hello") 0%nat sampleWorld).
  intros step H. vm_compute in H. discriminate.
Defined.

(** X23: the data of a callback goes to the session without passing the
    rule of the step: when the step takes callbacks the data is stored
    under [StoreAs] and appended to the history whatever the rule would
    say of it; the query is answered first and what follows is a
    navigation. The expiry of the session is not extended. *)
Theorem handleConversationCallback_stores
    (r : Router.t) (query : CallbackQuery) (c : loc) (w : World)
    (step : StepConfig.t) :
  GetStep (Router.flowEngine r) (Conversation.FlowID (heap w c))
          (Conversation.StepID (heap w c)) = Some step ->
  StepConfig.InputType step = InputTypeCallback
  \/ StepConfig.InputType step = InputTypeAny ->
  StepConfig.OnComplete step = EmptyString ->
  let w' := (handleConversationCallback r query c w).2 in
  let stored := negb (String.eqb (StepConfig.StoreAs step) EmptyString) in
  Conversation.Data (heap w' c)
  = (if stored
     then <[StepConfig.StoreAs step := VString (q_Data query)]>
            (Conversation.Data (heap w c))
     else Conversation.Data (heap w c))
  /\ Conversation.History (heap w' c)
     = Conversation.History (heap w c)
       ++ [mkHistoryEntry (Conversation.StepID (heap w c)) (q_Data query)
             (clock w (if stored then S (tick w) else tick w))]
  /\ Conversation.ExpiresAt (heap w' c) = Conversation.ExpiresAt (heap w c)
  /\ (forall l, l <> c -> kept (heap w l) (heap w' l))
  /\ exists evs,
       trace w' = trace w ++ EvAnswerCallback (q_ID query) EmptyString :: evs
       /\ forallb quietEvent evs = true.
Proof.
  intros Hstep Hkind Hoc w' stored.
  assert (Hk : negb (String.eqb (StepConfig.InputType step) InputTypeCallback)
               && negb (String.eqb (StepConfig.InputType step) InputTypeAny) = false).
  { destruct Hkind as [-> | ->]; reflexivity. }
  remember (handleConversationCallback r query c w) as res eqn:Hres.
  unfold handleConversationCallback, bind at 1, emit at 1 in Hres.
  unfold bind at 1, load at 1 in Hres. cbn [heap] in Hres.
  rewrite Hstep, Hk, Hoc in Hres. cbn [String.eqb negb] in Hres.
  set (T := v2 <- load c ;;
            let nextStep := DetermineNextStep (Router.flowEngine r) v2 (q_Data query) in
            if negb (String.eqb nextStep EmptyString) then
              ChangeStep (q_FromID query) (Conversation.ChatID v2) nextStep ;;;
              displayStep r c
            else ret tt) in Hres.
  assert (HT : nav T) by apply nav_advance.
  fold stored in Hres. unfold w'. clear w'.
  destruct stored eqn:Es; run_in Hres; run_in Hres;
    match type of Hres with
    | res = T ?w1 =>
      destruct (HT w1) as (Hkept & _ & _ & evs & Htrace & Hquiet)
    end;
    rewrite <- Hres in Hkept, Htrace; clear Hres;
    cbn [heap trace] in Hkept, Htrace;
    pose proof (Hkept c) as (Hd & Hh & He & _);
    rewrite !decide_True in Hd, Hh, He by reflexivity;
    cbn [Conversation.Data Conversation.History Conversation.ExpiresAt
         Conversation.StepID Conversation.with_Data Conversation.with_History
         Conversation.with_UpdatedAt] in Hd, Hh, He;
    (split; [exact Hd|]); (split; [exact Hh|]); (split; [exact He|]);
    (split; [intros l Hl; specialize (Hkept l);
             rewrite !decide_False in Hkept by exact Hl; exact Hkept|]);
    exists evs; (split; [|exact Hquiet]);
    rewrite Htrace, <- app_assoc; reflexivity.
Qed.

Lemma handleConversationCallback_stores_witness :
  ValidateInput unit (fun _ => None) (fun _ _ => false) (fun _ _ => None)
    (Router.flowEngine routerC) (heap worldF 0%nat) "yes"
  = Some "Please enter a valid Ethereum address"
  /\ Conversation.Data
       (heap (handleConversationCallback routerC
                (mkCallbackQuery "q1" 1 "alice" 2 "yes") 0%nat worldF).2 0%nat)
     = <["choice" := VString "yes"]> (Conversation.Data (heap worldF 0%nat)).
Proof.
  split; [reflexivity|].
  destruct (handleConversationCallback_stores routerC
              (mkCallbackQuery "q1" 1 "alice" 2 "yes") 0%nat worldF
              (StepConfig.mk "A" EmptyString InputTypeCallback
                 (Some (sampleValidation "address")) "B" [] EmptyString EmptyString "choice" EmptyString))
    as (Hd & _); [reflexivity|left; reflexivity|reflexivity|].
  exact Hd.
Defined.

(** ** Callbacks and commands *)

Lemma matchPrefix_Some (prefixes : list string) (data p : string) :
  matchPrefix prefixes data = Some p ->
  p ∈ prefixes /\ strings.HasPrefix data p = true.
Proof.
  induction prefixes as [|q rest IH]; cbn [matchPrefix]; [discriminate|].
  destruct (strings.HasPrefix data q) eqn:E.
  - intros [= <-]. split; [left|exact E].
  - intros H. destruct (IH H) as [Hin Hp]. split; [right; exact Hin|exact Hp].
Qed.

Lemma matchPrefix_None (prefixes : list string) (data : string) :
  matchPrefix prefixes data = None
  <-> forall p, p ∈ prefixes -> strings.HasPrefix data p = false.
Proof.
  induction prefixes as [|q rest IH]; cbn [matchPrefix].
  - split; [intros _ p Hp; inversion Hp|reflexivity].
  - destruct (strings.HasPrefix data q) eqn:E.
    + split; [discriminate|]. intros H. rewrite (H q) in E by left. discriminate.
    + rewrite IH. split.
      * intros H p Hp. apply elem_of_cons in Hp as [->|Hp]; [exact E|apply H, Hp].
      * intros H p Hp. apply H. right. exact Hp.
Qed.

(** X24: for an authorised sender and data that is none of the three
    navigation tokens, a handler registered for the exact data wins over
    every prefix handler, and a handler registered for a prefix of the
    data wins over the session of the sender. The router records the call
    and runs the handler on the world as it stands: it does not answer
    the callback, read the clock or look the session up, and it does
    nothing after the handler, whose error is dropped. The sessions and
    the index are then what the handler leaves: the [flow:] handler of
    the wrapper starts a session that takes the place of the sender's. *)
Theorem handleCallback_registered
    (r : Router.t) (code : HandlerCode) (prefixes : list string)
    (query : CallbackQuery) (w : World) :
  CheckAuth r (q_FromID query) (q_FromUsername query) = true ->
  q_Data query <> CallbackMainMenu ->
  q_Data query <> CallbackBack ->
  q_Data query <> CallbackCancel ->
  (q_Data query ∈ Router.callbackHandlers r ->
   handleCallback r code prefixes query w
   = (tt, (callbackCode code (q_Data query) query
             (emit (EvCallbackHandler (q_Data query)) w).2).2))
  /\ (q_Data query ∉ Router.callbackHandlers r ->
      forall prefix,
        matchPrefix prefixes (q_Data query) = Some prefix ->
        prefix ∈ prefixes
        /\ strings.HasPrefix (q_Data query) prefix = true
        /\ handleCallback r code prefixes query w
           = (tt, (prefixCode code prefix query
                     (emit (EvCallbackHandler prefix) w).2).2)).
Proof.
  intros Hauth Hm Hb Hc.
  remember (handleCallback r code prefixes query w) as res eqn:Hres.
  unfold handleCallback in Hres. rewrite Hauth in Hres.
  apply String.eqb_neq in Hm, Hb, Hc. rewrite Hm, Hb, Hc in Hres.
  cbn [negb orb] in Hres. split.
  - intros Hin. rewrite decide_True in Hres by exact Hin.
    unfold bind in Hres. rewrite Hres.
    destruct (emit (EvCallbackHandler (q_Data query)) w) as [[] w0].
    cbn [snd]. destruct (callbackCode code (q_Data query) query w0). reflexivity.
  - intros Hout prefix E. rewrite decide_False in Hres by exact Hout.
    rewrite E in Hres. destruct (matchPrefix_Some _ _ _ E) as [Hin Hp].
    split; [exact Hin|]. split; [exact Hp|].
    unfold bind in Hres. rewrite Hres.
    destruct (emit (EvCallbackHandler prefix) w) as [[] w0].
    cbn [snd]. destruct (prefixCode code prefix query w0). reflexivity.
Qed.

Lemma handleCallback_registered_witness :
  (Conversation.StepID (heap worldAB 0%nat) = "B"
   /\ Conversation.GetString (heap worldAB 0%nat) "name" = "Alice"
   /\ index worldAB !! conversationKey 1 2 = Some 0%nat)
  /\ exists c,
       index (handleCallback (routerF None) wrapperCode ["flow:"]
                (mkCallbackQuery "q1" 1 "alice" 2 "flow:F") worldAB).2
         !! conversationKey 1 2 = Some c
       /\ c <> 0%nat
       /\ Conversation.StepID
            (heap (handleCallback (routerF None) wrapperCode ["flow:"]
                     (mkCallbackQuery "q1" 1 "alice" 2 "flow:F") worldAB).2 c) = "A"
       /\ Conversation.Data
            (heap (handleCallback (routerF None) wrapperCode ["flow:"]
                     (mkCallbackQuery "q1" 1 "alice" 2 "flow:F") worldAB).2 c)
          = ∅.
Proof.
  split; [repeat split; vm_compute; reflexivity|].
  destruct (handleCallback_registered (routerF None) wrapperCode ["flow:"]
              (mkCallbackQuery "q1" 1 "alice" 2 "flow:F") worldAB)
    as [_ Hprefix]; [reflexivity|discriminate|discriminate|discriminate|].
  assert (Hout : "flow:F" ∉ Router.callbackHandlers (routerF None)).
  { change (Router.callbackHandlers (routerF None))
      with ({[ "main_menu_internal" ]} : gset string).
    intros Hin. apply elem_of_singleton in Hin. discriminate. }
  destruct (Hprefix Hout "flow:" eq_refl) as (_ & _ & Hrun).
  rewrite Hrun. exists 1%nat.
  split; [vm_compute; reflexivity|]. split; [discriminate|].
  split; vm_compute; reflexivity.
Defined.

(** X25: the order in which the registered prefixes are visited does not
    matter when at most one of them is a prefix of the data: every order
    gives the same run. *)
Theorem handleCallback_prefix_order
    (r : Router.t) (code : HandlerCode) (prefixes prefixes' : list string)
    (query : CallbackQuery) (w : World) :
  prefixes ≡ₚ prefixes' ->
  (forall p p', p ∈ prefixes -> p' ∈ prefixes ->
                strings.HasPrefix (q_Data query) p = true ->
                strings.HasPrefix (q_Data query) p' = true -> p = p') ->
  handleCallback r code prefixes query w = handleCallback r code prefixes' query w.
Proof.
  intros Hperm Huniq.
  assert (H : matchPrefix prefixes (q_Data query)
              = matchPrefix prefixes' (q_Data query)).
  { destruct (matchPrefix prefixes (q_Data query)) as [p|] eqn:E.
    - destruct (matchPrefix_Some _ _ _ E) as [Hin Hp].
      destruct (matchPrefix prefixes' (q_Data query)) as [p'|] eqn:E'.
      + destruct (matchPrefix_Some _ _ _ E') as [Hin' Hp'].
        rewrite <- Hperm in Hin'. f_equal. exact (Huniq p p' Hin Hin' Hp Hp').
      + rewrite matchPrefix_None in E'. rewrite Hperm in Hin.
        rewrite (E' p Hin) in Hp. discriminate.
    - symmetry. rewrite matchPrefix_None in E |- *.
      intros p Hin. rewrite <- Hperm in Hin. exact (E p Hin). }
  unfold handleCallback. rewrite H. reflexivity.
Qed.

Lemma handleCallback_prefix_order_witness :
  handleCallback (routerF None) idleCode ["pick:"; "page:"]
    (mkCallbackQuery "q1" 1 "alice" 2 "pick:7") worldF
  = handleCallback (routerF None) idleCode ["page:"; "pick:"]
      (mkCallbackQuery "q1" 1 "alice" 2 "pick:7") worldF.
Proof.
  apply (handleCallback_prefix_order (routerF None) idleCode ["pick:"; "page:"]
           ["page:"; "pick:"] (mkCallbackQuery "q1" 1 "alice" 2 "pick:7") worldF).
  - apply perm_swap.
  - intros p p' Hp Hp' H H'.
    apply elem_of_cons in Hp as [->|Hp];
      [|apply list_elem_of_singleton in Hp as ->; vm_compute in H; discriminate].
    apply elem_of_cons in Hp' as [->|Hp']; [reflexivity|].
    apply list_elem_of_singleton in Hp' as ->. vm_compute in H'. discriminate.
Defined.

(** X26: a callback, a text or a command of a sender who is not
    authorised runs no handler and touches no session: the callback is
    answered and that is all, also when its data is a navigation token;
    the text and the command are dropped without a trace. *)
Theorem unauthorized_sender
    (r : Router.t) (userID : Z) (username : string) (w : World) :
  CheckAuth r userID username = false ->
  (forall code prefixes qid chatID data,
     handleCallback r code prefixes (mkCallbackQuery qid userID username chatID data) w
     = (tt, mkWorld (heap w) (nextLoc w) (manager w) (clock w) (tick w)
                    (trace w ++ [EvAnswerCallback qid EmptyString])))
  /\ (forall float64 ParseFloat float_lt MatchString chatID threadID messageID text,
        handleMessage float64 ParseFloat float_lt MatchString r
          (mkMessage true userID username chatID threadID messageID text) w
        = (tt, w))
  /\ (forall commandHandlers chatID threadID messageID text command,
        handleCommand r commandHandlers
          (mkMessage true userID username chatID threadID messageID text)
        <> Invoked command).
Proof.
  intros Hauth. split; [|split].
  - intros code prefixes qid chatID data. unfold handleCallback.
    cbn [q_FromID q_FromUsername q_ID]. rewrite Hauth. reflexivity.
  - intros float64 ParseFloat float_lt MatchString chatID threadID messageID text.
    unfold handleMessage. cbn [msg_HasFrom msg_FromID msg_FromUsername negb].
    rewrite Hauth. reflexivity.
  - intros commandHandlers chatID threadID messageID text command.
    unfold handleCommand. cbn [msg_Text msg_HasFrom msg_FromID msg_FromUsername].
    destruct text as [|c0 rest]; [discriminate|].
    destruct (negb (Ascii.eqb c0 "/")); [discriminate|].
    rewrite Hauth. discriminate.
Qed.

Lemma unauthorized_sender_witness :
  handleCallback (Router.mk (FlowEngine.mk None ∅ ∅ None) (Some (fun _ _ => false))
                    ∅ false false)
    idleCode [] (mkCallbackQuery "q1" 1 "alice" 2 "main_menu") liveWorld
  = (tt, mkWorld (heap liveWorld) (nextLoc liveWorld) (manager liveWorld)
                 (clock liveWorld) (tick liveWorld)
                 (trace liveWorld ++ [EvAnswerCallback "q1" EmptyString])).
Proof.
  apply (proj1 (unauthorized_sender
                  (Router.mk (FlowEngine.mk None ∅ ∅ None) (Some (fun _ _ => false))
                     ∅ false false) 1 "alice" liveWorld eq_refl) idleCode).
Defined.

Lemma Index_char_cons (c g : ascii) (s : string) :
  strings.Index (String c s) (String g EmptyString)
  = if Ascii.eqb c g then Some O
    else option_map S (strings.Index s (String g EmptyString)).
Proof.
  cbn [strings.Index strings.HasPrefix]. destruct (Ascii.eqb c g); reflexivity.
Qed.

Lemma Index_char_first (a t : string) (g : ascii) :
  strings.Index a (String g EmptyString) = None ->
  strings.Index (a ++ String g t) (String g EmptyString) = Some (String.length a).
Proof.
  induction a as [|c a IH]; intros H.
  - rewrite sappend_nil, Index_char_cons, Ascii.eqb_refl. reflexivity.
  - rewrite sappend_cons, Index_char_cons. rewrite Index_char_cons in H.
    destruct (Ascii.eqb c g); [discriminate|].
    destruct (strings.Index a (String g EmptyString)); [discriminate|].
    rewrite IH by reflexivity. reflexivity.
Qed.

Lemma stake_app_add (a t : string) (j : nat) :
  stake (String.length a + j) (a ++ t) = (a ++ stake j t)%string.
Proof.
  induction a as [|c a IH]; rewrite ?sappend_cons, ?sappend_nil;
    cbn [String.length Nat.add stake]; [reflexivity|]. rewrite IH. reflexivity.
Qed.

(** The command of a text that starts with a slash: the name up to the
    first space or at-sign. *)
Lemma commandName_spec (name tail : string) :
  strings.Index name " " = None ->
  strings.Index name "@" = None ->
  tail = EmptyString \/ (exists t, tail = String " " t) \/ (exists t, tail = String "@" t) ->
  commandName (String "/" (name ++ tail)) = name.
Proof.
  intros Hsp Hat Htail. unfold commandName, SplitN.
  assert (Hn : (Nat.min 2 (String.length (String "/" (name ++ tail)) + 1) - 1 = 1)%nat).
  { cbn [String.length]. lia. }
  rewrite Hn. cbn [strings.genSplit].
  destruct Htail as [-> | [[t ->] | [t ->]]].
  - rewrite sappend_nil_r, Index_char_cons. cbn [Ascii.eqb Bool.eqb].
    rewrite Hsp. cbn [option_map hd].
    change (strings.TrimPrefix (String "/" name) "/") with name.
    rewrite Hat. reflexivity.
  - rewrite Index_char_cons. cbn [Ascii.eqb Bool.eqb].
    rewrite (Index_char_first name t " " Hsp). cbn [option_map hd stake].
    rewrite stake_app.
    change (strings.TrimPrefix (String "/" name) "/") with name.
    rewrite Hat. reflexivity.
  - assert (Hname : forall s,
              match strings.Index (name ++ String "@" s) "@" with
              | Some idx => stake idx (name ++ String "@" s)
              | None => (name ++ String "@" s)%string
              end = name).
    { intros s. rewrite (Index_char_first name s "@" Hat). apply stake_app. }
    rewrite Index_char_cons. cbn [Ascii.eqb Bool.eqb].
    rewrite (Index_guard " " "@" name t ltac:(discriminate) eq_refl), Hsp.
    destruct (strings.Index t " ") as [j|]; cbn [option_map hd].
    + replace (S (String.length name + 1 + j))
        with (String.length (String "/" (name ++ "@")) + j)%nat.
      2:{ cbn [String.length]. rewrite slength_app. cbn [String.length]. lia. }
      replace (String "/" (name ++ String "@" t))
        with (String "/" (name ++ "@") ++ t)%string.
      2:{ rewrite sappend_cons, sappend_assoc, sappend_cons, sappend_nil. reflexivity. }
      rewrite stake_app_add, sappend_cons, sappend_assoc, sappend_cons, sappend_nil.
      change (strings.TrimPrefix (String "/" (name ++ String "@" (stake j t))) "/")
        with (name ++ String "@" (stake j t))%string.
      apply Hname.
    + change (strings.TrimPrefix (String "/" (name ++ String "@" t)) "/")
        with (name ++ String "@" t)%string.
      apply Hname.
Qed.

(** X27: a command registered with or without its slash is found by a
    text that is the slash and the name, alone or followed by a space
    and arguments or by an at-sign and a bot name: when the sender is
    authorised its handler runs. A command text without a sender makes
    [handleCommand] read a nil pointer, where [handleMessage] drops the
    message. *)
Theorem handleCommand_dispatch
    (r : Router.t) (commandHandlers : gset string) (msg : Message)
    (name tail : string) (w : World) :
  strings.Index name " " = None ->
  strings.Index name "@" = None ->
  tail = EmptyString \/ (exists t, tail = String " " t) \/ (exists t, tail = String "@" t) ->
  msg_Text msg = String "/" (name ++ tail) ->
  (msg_HasFrom msg = true ->
   CheckAuth r (msg_FromID msg) (msg_FromUsername msg) = true ->
   handleCommand r (RegisterCommand (String "/" name) commandHandlers) msg
   = Invoked name
   /\ (strings.HasPrefix name "/" = false ->
       handleCommand r (RegisterCommand name commandHandlers) msg = Invoked name))
  /\ (msg_HasFrom msg = false ->
      handleCommand r commandHandlers msg = NilSender
      /\ forall float64 ParseFloat float_lt MatchString,
           handleMessage float64 ParseFloat float_lt MatchString r msg w = (tt, w)).
Proof.
  intros Hsp Hat Htail Htext.
  pose proof (commandName_spec name tail Hsp Hat Htail) as Hname.
  split.
  - intros Hfrom Hauth.
    assert (H : forall hs, name ∈ hs -> handleCommand r hs msg = Invoked name).
    { intros hs Hin. unfold handleCommand. rewrite Htext.
      cbn [Ascii.eqb Bool.eqb negb]. rewrite Hname, Hfrom, Hauth. cbn [negb].
      rewrite decide_True by exact Hin. reflexivity. }
    split.
    + apply H. unfold RegisterCommand.
      change (strings.TrimPrefix (String "/" name) "/") with name.
      apply elem_of_union_l, elem_of_singleton. reflexivity.
    + intros Hns. apply H. unfold RegisterCommand, strings.TrimPrefix.
      rewrite Hns. apply elem_of_union_l, elem_of_singleton. reflexivity.
  - intros Hfrom. split.
    + unfold handleCommand. rewrite Htext.
      cbn [Ascii.eqb Bool.eqb negb]. rewrite Hfrom. reflexivity.
    + intros float64 ParseFloat float_lt MatchString.
      unfold handleMessage. rewrite Hfrom. reflexivity.
Qed.

Lemma handleCommand_dispatch_witness :
  handleCommand (routerF None) (RegisterCommand "/start" ∅)
    (textMessage "/start@flow_bot now")
  = Invoked "start".
Proof.
  destruct (handleCommand_dispatch (routerF None) ∅ (textMessage "/start@flow_bot now")
              "start" "@flow_bot now" worldF)
    as [H _];
    [reflexivity|reflexivity|right; right; eexists; reflexivity|reflexivity|].
  exact (proj1 (H eq_refl eq_refl)).
Defined.


(* ================================================================== *)
(** * Callback data and keyboards *)
(* ================================================================== *)

Lemma HasPrefix_stake (data prefix : string) :
  strings.HasPrefix data prefix
  = (String.length prefix <=? String.length data)%nat
    && String.eqb (stake (String.length prefix) data) prefix.
Proof.
  revert data. induction prefix as [|p prefix IH]; intros data.
  - destruct data; reflexivity.
  - destruct data as [|c data]; [reflexivity|].
    cbn [strings.HasPrefix String.length stake String.eqb].
    change (S (String.length prefix) <=? S (String.length data))%nat
      with (String.length prefix <=? String.length data)%nat.
    rewrite IH. destruct (Ascii.eqb c p); [reflexivity|].
    apply eq_sym, andb_false_r.
Qed.

Lemma HasPrefix_app (prefix rest : string) :
  strings.HasPrefix (prefix ++ rest) prefix = true.
Proof.
  induction prefix as [|p prefix IH]; [reflexivity|].
  rewrite sappend_cons. cbn [strings.HasPrefix]. rewrite Ascii.eqb_refl. exact IH.
Qed.

Lemma HasPrefix_split (data prefix : string) :
  strings.HasPrefix data prefix = true ->
  (prefix ++ sdrop (String.length prefix) data)%string = data.
Proof.
  revert data. induction prefix as [|p prefix IH]; intros data H.
  - rewrite sappend_nil. reflexivity.
  - destruct data as [|c data]; [discriminate|]. cbn [strings.HasPrefix] in H.
    destruct (Ascii.eqb_spec c p) as [->|]; [|discriminate].
    rewrite sappend_cons. cbn [String.length sdrop]. rewrite (IH data H).
    reflexivity.
Qed.

(** X28: [ParseCallbackData] is [strings.TrimPrefix]: it gives back the
    payload that was put behind the prefix, and when the router has
    dispatched a callback by a registered prefix, that prefix and the
    parsed payload make up the data of the callback. *)
Theorem ParseCallbackData_payload (prefix payload data : string) :
  ParseCallbackData data prefix = strings.TrimPrefix data prefix
  /\ ParseCallbackData (prefix ++ payload) prefix = payload
  /\ (forall prefixes,
        matchPrefix prefixes data = Some prefix ->
        (prefix ++ ParseCallbackData data prefix)%string = data)
  /\ (strings.HasPrefix data prefix = false -> ParseCallbackData data prefix = data).
Proof.
  assert (H : forall d, ParseCallbackData d prefix = strings.TrimPrefix d prefix).
  { intros d. unfold ParseCallbackData, strings.TrimPrefix.
    rewrite HasPrefix_stake. reflexivity. }
  split; [apply H|]. split; [|split].
  - rewrite H. unfold strings.TrimPrefix. rewrite HasPrefix_app. apply sdrop_app.
  - intros prefixes Hm. apply matchPrefix_Some in Hm as [_ Hp].
    rewrite H. unfold strings.TrimPrefix. rewrite Hp. apply HasPrefix_split, Hp.
  - intros Hp. rewrite H. unfold strings.TrimPrefix. rewrite Hp. reflexivity.
Qed.

Lemma Grid_loop_spec (columns : nat) (buttons : list InlineKeyboardButton) :
  (0 < columns)%nat ->
  forall fuel i rows,
    (length buttons - i <= fuel)%nat ->
    exists chunks,
      Grid_loop fuel i columns buttons rows = rows ++ chunks
      /\ concat chunks = drop i buttons
      /\ Forall (fun row => (0 < length row <= columns)%nat) chunks
      /\ (forall j row, chunks !! j = Some row -> (S j < length chunks)%nat ->
                        length row = columns).
Proof.
  intros Hc. induction fuel as [|fuel IH]; intros i rows Hfuel.
  - exists []. cbn [Grid_loop]. rewrite app_nil_r.
    split; [reflexivity|]. split; [|split].
    + cbn [concat]. symmetry. apply drop_ge. lia.
    + constructor.
    + intros j row H. rewrite lookup_nil in H. discriminate.
  - cbn [Grid_loop]. destruct (Nat.ltb_spec i (length buttons)) as [Hi|Hi].
    + cbv zeta.
      destruct (IH (i + columns)%nat
                   (rows ++ [take (Nat.min (i + columns) (length buttons) - i)
                                  (drop i buttons)])
                   ltac:(lia))
        as (chunks & Heq & Hcat & Hall & Hfull).
      exists (take (Nat.min (i + columns) (length buttons) - i) (drop i buttons) :: chunks).
      split; [rewrite Heq, <- app_assoc; reflexivity|].
      assert (Hlen : length (take (Nat.min (i + columns) (length buttons) - i)
                                  (drop i buttons))
                     = Nat.min columns (length buttons - i)).
      { rewrite length_take, length_drop. lia. }
      split; [|split].
      * cbn [concat]. rewrite Hcat.
        destruct (Nat.le_gt_cases (i + columns) (length buttons)) as [Hle|Hgt].
        -- replace (Nat.min (i + columns) (length buttons) - i)%nat with columns by lia.
           rewrite <- (drop_drop buttons columns i). apply take_drop.
        -- replace (Nat.min (i + columns) (length buttons) - i)%nat
             with (length buttons - i)%nat by lia.
           rewrite (drop_ge buttons (i + columns)) by lia. rewrite app_nil_r.
           apply take_ge. rewrite length_drop. lia.
      * constructor; [rewrite Hlen; lia|exact Hall].
      * intros [|j] row Hrow Hj.
        -- cbn in Hrow. injection Hrow as <-. rewrite Hlen.
           destruct (Nat.le_gt_cases (i + columns) (length buttons)) as [Hle|Hgt];
             [lia|].
           exfalso. rewrite (drop_ge buttons (i + columns)) in Hcat by lia.
           destruct chunks as [|row' chunks']; [cbn in Hj; lia|].
           inversion Hall as [|? ? Hrow' _]; subst.
           cbn [concat] in Hcat. apply app_eq_nil in Hcat as [Hnil _].
           rewrite Hnil in Hrow'. cbn in Hrow'. lia.
        -- cbn in Hrow, Hj. apply (Hfull j row Hrow). lia.
    + exists []. rewrite app_nil_r.
      split; [reflexivity|]. split; [|split].
      * cbn [concat]. symmetry. apply drop_ge. lia.
      * constructor.
      * intros j row H. rewrite lookup_nil in H. discriminate.
Qed.

(** X29: [Grid] appends rows that, read in order, are the buttons it was
    given: no button is lost, repeated or moved. No row is empty, none
    is longer than the number of columns, and every row but the last is
    full. A number of columns that is not positive counts as two. *)
Theorem Grid_rows (rows : Rows) (buttons : list InlineKeyboardButton) (columns : Z) :
  let width := Z.to_nat (if columns <=? 0 then 2 else columns) in
  exists chunks,
    Grid rows buttons columns = rows ++ chunks
    /\ concat chunks = buttons
    /\ Forall (fun row => (0 < length row <= width)%nat) chunks
    /\ (forall j row, chunks !! j = Some row -> (S j < length chunks)%nat ->
                      length row = width).
Proof.
  intros width. unfold Grid. fold width.
  assert (Hw : (0 < width)%nat).
  { unfold width. destruct (Z.leb_spec columns 0); lia. }
  destruct (Grid_loop_spec width buttons Hw (length buttons) 0%nat rows ltac:(lia))
    as (chunks & Heq & Hcat & Hall & Hfull).
  exists chunks. repeat split; assumption.
Qed.

Lemma EncodeRune_head (r : Z) :
  57 < r < 2 ^ 31 ->
  exists c s, utf8.EncodeRune r = String c s /\ 57 < byteZ c.
Proof.
  change (2 ^ 31) with 2147483648. intros Hr.
  unfold utf8.EncodeRune, utf8.rune1Max, utf8.rune2Max, utf8.rune3Max,
    utf8.MaxRune, utf8.surrogateMin, utf8.surrogateMax.
  rewrite (Z.mod_small r (2 ^ 32)) by (change (2 ^ 32) with 4294967296; lia).
  destruct (Z.leb_spec r 0x7F) as [H1|H1].
  { eexists _, _. split; [reflexivity|]. rewrite byteZ_byte_of_Z by lia. lia. }
  pose proof (Z.div_pos r 64 ltac:(lia) ltac:(lia)) as Hq6.
  pose proof (Z.div_pos r 4096 ltac:(lia) ltac:(lia)) as Hq12.
  pose proof (Z.div_pos r 262144 ltac:(lia) ltac:(lia)) as Hq18.
  destruct (Z.leb_spec r 0x7FF) as [H2|H2].
  { eexists _, _. split; [reflexivity|].
    change 0xC0 with (Z.shiftl 6 5). rewrite shiftr_6.
    assert (r / 64 < 32) by (apply Z.div_lt_upper_bound; lia).
    rewrite lead_byte; change (2 ^ 5) with 32; lia. }
  destruct ((0x10FFFF <? r) || (0xD800 <=? r) && (r <=? 0xDFFF)) eqn:Einv.
  { eexists _, _. split; [reflexivity|]. vm_compute. reflexivity. }
  apply orb_false_elim in Einv as [Hmax _]. apply Z.ltb_ge in Hmax.
  destruct (Z.leb_spec r 0xFFFF) as [H3|H3].
  { unfold utf8.encode3. eexists _, _. split; [reflexivity|].
    change 0xE0 with (Z.shiftl 14 4). rewrite shiftr_12.
    assert (r / 4096 < 16) by (apply Z.div_lt_upper_bound; lia).
    rewrite lead_byte; change (2 ^ 4) with 16; lia. }
  eexists _, _. split; [reflexivity|].
  change 0xF0 with (Z.shiftl 30 3). rewrite shiftr_18.
  assert (r / 262144 < 8) by (apply Z.div_lt_upper_bound; lia).
  rewrite lead_byte; change (2 ^ 3) with 8; lia.
Qed.

(** X30: [Pagination] adds nothing for a single page and one row
    otherwise. Before the last page that row ends with the button of the
    next page, whose callback data parses back, under the prefix, to the
    number of that page as [Pagination] writes it: one decimal digit up
    to page 9, and from page 10 on a string that does not start with a
    digit. *)
Theorem Pagination_next
    (rows : Rows) (currentPage totalPages : Z) (prefix : string) :
  1 <= currentPage < totalPages ->
  (forall t, t <= 1 -> Pagination rows currentPage t prefix = rows)
  /\ (exists row,
        Pagination rows currentPage totalPages prefix = rows ++ [row]
        /\ last row = Some (Button rightArrow (prefix ++ pageRune (currentPage + 1))))
  /\ ParseCallbackData (prefix ++ pageRune (currentPage + 1)) prefix
     = pageRune (currentPage + 1)
  /\ (currentPage + 1 <= 9 ->
      pageRune (currentPage + 1)
      = String (byte_of_Z (48 + (currentPage + 1))) EmptyString)
  /\ (10 <= currentPage + 1 < 2 ^ 31 - 48 ->
      exists c s, pageRune (currentPage + 1) = String c s /\ 57 < byteZ c).
Proof.
  intros Hpage. split; [|split; [|split; [|split]]].
  - intros t Ht. unfold Pagination.
    destruct (Z.leb_spec t 1); [reflexivity|lia].
  - unfold Pagination.
    destruct (Z.leb_spec totalPages 1); [lia|].
    destruct (Z.ltb_spec currentPage totalPages); [|lia].
    destruct (1 <? currentPage); eexists; split; reflexivity.
  - unfold ParseCallbackData. rewrite <- HasPrefix_stake, HasPrefix_app.
    apply sdrop_app.
  - intros H9. unfold pageRune, string_of_rune.
    rewrite rune_small by (change (2 ^ 31) with 2147483648; lia).
    unfold utf8.EncodeRune, utf8.rune1Max.
    rewrite Z.mod_small by (change (2 ^ 32) with 4294967296; lia).
    destruct (Z.leb_spec (48 + (currentPage + 1)) 0x7F); [reflexivity|lia].
  - intros H10. unfold pageRune, string_of_rune.
    rewrite rune_small by lia. apply EncodeRune_head. lia.
Qed.

Lemma Pagination_next_witness :
  1 <= 9 < 12
  /\ exists c s, pageRune (9 + 1) = String c s /\ 57 < byteZ c.
Proof.
  split; [lia|].
  destruct (Pagination_next [] 9 12 "page:" ltac:(lia)) as (_ & _ & _ & _ & H).
  apply H. change (2 ^ 31) with 2147483648. lia.
Defined.

